(** * faststream: the RabbitMQ publisher use case and the Redis stream
      subscription descriptor, as a shallow embedding

    Sources embedded here:
    - [faststream/redis/schemas/stream_sub.py]   ([StreamSub])
    - [faststream/rabbit/publisher/usecase.py]   ([LogicPublisher])

    Python objects that are only read are plain values; the queue
    descriptor, which [add_prefix] copies and which several publishers may
    share, lives in an object store and is held by reference.  Awaited
    calls run in a state-and-exception monad over that store. *)

From stdpp Require Import gmap strings list.

Open Scope string_scope.

(** ** Python values and truthiness *)

(** [bool(s)] for a [str]: only the empty string is falsy. *)
Definition truthy (s : string) : bool := negb (String.eqb s "").

(** [bool(o)] for an [Optional[str]]: [None] and [""] are falsy. *)
Definition truthy_opt (o : option string) : bool :=
  match o with
  | Some s => truthy s
  | None => false
  end.

(** [a or b] on two strings. *)
Definition str_or (a b : string) : string := if truthy a then a else b.

(** ** Exceptions and outcomes *)

(** The exceptions the two files raise themselves, and [Exception] for
    whatever a collaborator (producer, middleware, parser) raises. *)
Inductive exn : Type :=
| AssertionError (msg : string)
| SetupError (msg : string)
| Exception (msg : string).

Inductive outcome (A : Type) : Type :=
| Returned (a : A)
| Raised (e : exn).
Arguments Returned {A} a.
Arguments Raised {A} e.

(** ** [faststream/redis/schemas/stream_sub.py] *)

Module StreamSub.

Inductive WarningCategory : Type := RuntimeWarning.

(** One [warnings.warn(message=..., category=...)] call. *)
Record Warning : Type := warn {
  message : string;
  category : WarningCategory
}.

(** The slots of a [StreamSub]; [name] is set by [NameRequired.__init__]. *)
Record t : Type := mk {
  name : string;
  group : option string;
  consumer : option string;
  polling_interval : option Z;
  batch : bool;
  no_ack : bool;
  last_id : string;
  maxlen : option Z;
  max_records : option Z;
  max_concurrent : option Z
}.

Definition both_message : string :=
  "You should specify `group` and `consumer` both".

Definition no_ack_message : string :=
  "`no_ack` has no effect with consumer group".

(** [StreamSub.__init__]: the warnings emitted, and either the
    constructed descriptor or the exception raised. *)
Definition __init__
    (stream : string) (polling_interval : option Z)
    (group consumer : option string) (batch no_ack : bool)
    (last_id : option string)
    (maxlen max_records max_concurrent : option Z)
  : list Warning * outcome t :=
  if (truthy_opt group && negb (truthy_opt consumer))
     || (negb (truthy_opt group) && truthy_opt consumer)
  then ([], Raised (SetupError both_message))
  else
    let warnings :=
      if truthy_opt group && truthy_opt consumer && no_ack
      then [warn no_ack_message RuntimeWarning]
      else [] in
    let last_id :=
      match last_id with
      | None => "$"
      | Some i => i
      end in
    (warnings,
     Returned {| name := stream;
                 group := group;
                 consumer := consumer;
                 polling_interval := polling_interval;
                 batch := batch;
                 no_ack := no_ack;
                 last_id := last_id;
                 maxlen := maxlen;
                 max_records := max_records;
                 max_concurrent := max_concurrent |}).

(** The signature's defaults: [StreamSub(stream)]. *)
Definition default (stream : string) : list Warning * outcome t :=
  __init__ stream (Some 100%Z) None None false false None None None None.

(** The last-seen id of a construction result, when it succeeded. *)
Definition last_id_of (r : list Warning * outcome t) : option string :=
  match r.2 with
  | Returned s => Some (last_id s)
  | Raised _ => None
  end.

End StreamSub.


(** ** [faststream/rabbit/publisher/usecase.py]: the data model *)

(** Modelled from the spec: [RabbitExchange] (faststream.rabbit.schemas)
    is not among the embedded sources; the publisher reads only its [name]. *)
Module RabbitExchange.

Record t : Type := mk { name : string }.

End RabbitExchange.

(** Modelled from the spec: [RabbitQueue] (faststream.rabbit.schemas) is not
    among the embedded sources. The spec gives a destination descriptor a
    name, a derived [.routing] and a [validate(nameOrDescriptor)] entry point.
    A descriptor carries its name and its own binding key; [.routing] is the
    binding key when there is one and the name otherwise. *)
Module RabbitQueue.

Record t : Type := mk {
  name : string;
  routing_key : string
}.

(** [RabbitQueue(name)]: a descriptor declared by name only. *)
Definition of_name (n : string) : t := {| name := n; routing_key := "" |}.

(** The [routing] property. *)
Definition routing (q : t) : string := str_or (routing_key q) (name q).

(** [new_q.name = n]. *)
Definition set_name (n : string) (q : t) : t :=
  {| name := n; routing_key := routing_key q |}.

End RabbitQueue.

(** References to descriptor objects. *)
Abbreviation loc := positive (only parsing).

(** Python values that travel in keyword arguments.  [VFloat m e] is the
    float [m * 2 ** e]; [VObject] stands for an object the publisher never
    looks into (payloads, header mappings, dates, transport
    acknowledgements, raw replies). *)
Inductive Value : Type :=
| VNone
| VBool (b : bool)
| VInt (z : Z)
| VFloat (m e : Z)
| VStr (s : string)
| VExchange (e : RabbitExchange.t)
| VObject (id : positive).

Abbreviation Any := Value (only parsing).
Abbreviation AnyDict := (gmap string Value) (only parsing).

(** An [Optional[str]] as a value. *)
Definition of_optional_str (o : option string) : Value :=
  match o with
  | Some s => VStr s
  | None => VNone
  end.

(** [{**d, **later}]: the entries of [later] win on a key collision. *)
Definition unpack (d later : AnyDict) : AnyDict := later ∪ d.

(** ** The world awaited calls run in *)

(** The object store of queue descriptors, the ids [uuid4] is going to hand
    out (and how many were drawn), and a log that collaborators may write
    to. *)
Record World : Type := mkWorld {
  heap : gmap loc RabbitQueue.t;
  uuids : nat -> string;
  drawn : nat;
  log : list string
}.

Definition set_heap (h : gmap loc RabbitQueue.t) (w : World) : World :=
  {| heap := h; uuids := uuids w; drawn := drawn w; log := log w |}.

Definition set_drawn (n : nat) (w : World) : World :=
  {| heap := heap w; uuids := uuids w; drawn := n; log := log w |}.

Definition set_log (l : list string) (w : World) : World :=
  {| heap := heap w; uuids := uuids w; drawn := drawn w; log := l |}.

(** A coroutine run to completion: it returns or raises, and leaves a
    world behind. *)
Definition M (A : Type) : Type := World -> outcome A * World.

Definition ret {A} (a : A) : M A := fun w => (Returned a, w).

Definition raise {A} (e : exn) : M A := fun w => (Raised e, w).

Definition bind {A B} (m : M A) (k : A -> M B) : M B :=
  fun w =>
    match m w with
    | (Returned a, w') => k a w'
    | (Raised e, w') => (Raised e, w')
    end.

Notation "'let*' x ':=' c1 'in' c2" := (bind c1 (fun x => c2))
  (at level 10, x pattern, c1 at level 100, c2 at level 200).

(** [try: m] with the outcome reified, so that what was raised can be handed
    to exit callbacks. *)
Definition attempt {A} (m : M A) : M (outcome A) :=
  fun w => let '(o, w') := m w in (Returned o, w').

(** Reading a descriptor through its reference. *)
Definition load (l : loc) : M RabbitQueue.t :=
  fun w =>
    match heap w !! l with
    | Some q => (Returned q, w)
    | None => (Raised (Exception "no object at this reference"), w)
    end.

(** Modelled from the spec: [gen_cor_id] (faststream.broker.message) is not
    among the embedded sources; it generates a correlation id, a new one on
    every call. *)
Definition gen_cor_id : M string :=
  fun w => (Returned (uuids w (drawn w)), set_drawn (S (drawn w)) w).

(** Modelled from the spec: [NameRequired.validate], inherited by
    [RabbitQueue], is not among the embedded sources; it accepts a raw name or
    a full descriptor and normalises it to a descriptor. *)
Definition RabbitQueue_validate (value : string + loc) : M RabbitQueue.t :=
  match value with
  | inl n => ret (RabbitQueue.of_name n)
  | inr l => load l
  end.

(** [copy.deepcopy] of a descriptor: a new object with equal fields. *)
Definition deepcopy (l : loc) : M loc :=
  let* q := load l in
  fun w =>
    let l' := fresh (dom (heap w)) in
    (Returned l', set_heap (<[l' := q]> (heap w)) w).

(** [obj.name = prefix + obj.name] on the object behind a reference. *)
Definition prefix_name (l : loc) (prefix : string) : M unit :=
  let* q := load l in
  fun w =>
    (Returned tt,
     set_heap (<[l := RabbitQueue.set_name (prefix ++ RabbitQueue.name q) q]> (heap w)) w).

(** ** Collaborators: producer, parsed message, middlewares *)

(** What [partial(m, call)] wraps and yields: [call(message, **kwargs)]. *)
Abbreviation AsyncFunc := (Any -> AnyDict -> M Any) (only parsing).

(** A publisher-level middleware: [m(call, message, **kwargs)]. *)
Abbreviation PublisherMiddleware := (AsyncFunc -> AsyncFunc) (only parsing).

(** Modelled from the spec: [SourceType] (faststream.broker.message) is not
    among the embedded sources; the spec lists the tags Request and Response. *)
Inductive SourceType : Type := Request | Response.

(** Modelled from the spec: [RabbitMessage] (faststream.rabbit.message) is not
    among the embedded sources; a parsed message holds the decoded body, the
    source-type tag and the original raw transport message. *)
Module RabbitMessage.

Record t : Type := mk {
  raw_message : Any;
  _decoded_body : Any;
  _source_type : SourceType
}.

Definition set_decoded_body (b : Any) (m : t) : t :=
  {| raw_message := raw_message m; _decoded_body := b;
     _source_type := _source_type m |}.

Definition set_source_type (s : SourceType) (m : t) : t :=
  {| raw_message := raw_message m; _decoded_body := _decoded_body m;
     _source_type := s |}.

End RabbitMessage.

(** What flows through the inbound chain: [return_msg(parsed_msg)]. *)
Abbreviation ReturnMsg := (RabbitMessage.t -> M RabbitMessage.t) (only parsing).

(** Modelled from the spec: [BaseMiddleware] (faststream.broker.middlewares)
    is not among the embedded sources. A middleware object wraps an outbound
    call ([publish_scope]) and an inbound one ([consume_scope]) and is an
    async context manager: [__aexit__] is handed the exception in flight, if
    any, and a true result asks for it to be swallowed. *)
Module BaseMiddleware.

Record t : Type := mk {
  __aenter__ : M unit;
  __aexit__ : option exn -> M bool;
  publish_scope : PublisherMiddleware;
  consume_scope : ReturnMsg -> ReturnMsg
}.

End BaseMiddleware.

(** A broker-level middleware is the class: [m(msg)] builds the object for
    one message ([m(None)] on the publishing side). *)
Abbreviation BrokerMiddleware := (option Any -> BaseMiddleware.t) (only parsing).

(** Modelled from the spec: [AioPikaFastProducer]
    (faststream.rabbit.publisher.producer) is not among the embedded
    sources; the producer contract has [publish], [request], a parser and a
    decoder. *)
Module AioPikaFastProducer.

Record t : Type := mk {
  publish : AsyncFunc;
  request : AsyncFunc;
  _parser : Any -> M RabbitMessage.t;
  _decoder : RabbitMessage.t -> M Any
}.

End AioPikaFastProducer.

(** Modelled from the spec: [return_input] (faststream.utils.functions) is not
    among the embedded sources; the innermost inbound call, which hands the
    message back. *)
Definition return_input : ReturnMsg := fun x => ret x.

(** Modelled from the spec: [NOT_CONNECTED_YET] (faststream.exceptions) is not
    among the embedded sources; the message of the failure the spec calls
    NotConnected. *)
Definition NOT_CONNECTED_YET : string := "NotConnected".

(** ** [contextlib.AsyncExitStack] *)

(** The loop of [AsyncExitStack.__aexit__] over the callbacks, last
    registered first: a callback that returns true clears the exception in
    flight, one that raises replaces it. *)
Fixpoint exit_callbacks (callbacks : list (option exn -> M bool))
    (exc_details : option exn) (suppressed_exc pending_raise : bool)
  : M (option exn * bool * bool) :=
  match callbacks with
  | [] => ret (exc_details, suppressed_exc, pending_raise)
  | cb :: rest =>
    fun w =>
      match cb exc_details w with
      | (Returned cb_suppress, w') =>
        if cb_suppress
        then exit_callbacks rest None true false w'
        else exit_callbacks rest exc_details suppressed_exc pending_raise w'
      | (Raised e, w') => exit_callbacks rest (Some e) suppressed_exc true w'
      end
  end.

(** [AsyncExitStack.__aexit__] on the exception in flight; [stack] has the
    callback registered last at its head. *)
Definition AsyncExitStack_aexit (stack : list (option exn -> M bool))
    (exc : option exn) : M bool :=
  let received_exc := bool_decide (exc <> None) in
  let* final := exit_callbacks stack exc false false in
  let '(exc_details, suppressed_exc, pending_raise) := final in
  if pending_raise
  then match exc_details with
       | Some e => raise e
       | None => ret (received_exc && suppressed_exc)
       end
  else ret (received_exc && suppressed_exc).

(** Leaving an [async with] block whose body returned or raised.  [None]
    means that control falls out of the block: the body raised and the exit
    swallowed it. *)
Definition async_with_exit {A} (stack : list (option exn -> M bool))
    (body : outcome A) : M (option A) :=
  match body with
  | Returned v =>
    let* _ := AsyncExitStack_aexit stack None in
    ret (Some v)
  | Raised e =>
    let* swallowed := AsyncExitStack_aexit stack (Some e) in
    if swallowed then ret None else raise e
  end.

(** ** The arguments of one call *)

(** The parameters of [LogicPublisher.publish]. *)
Module PublishArgs.

Record t : Type := mk {
  message : Any;
  queue : option (string + loc);
  exchange : option (string + RabbitExchange.t);
  routing_key : string;
  correlation_id : option string;
  message_id : option string;
  timestamp : Any;
  rpc : bool;
  rpc_timeout : Any;
  raise_timeout : bool;
  _extra_middlewares : list PublisherMiddleware;
  publish_kwargs : AnyDict
}.

(** [publish(message)]: every other parameter at its default. *)
Definition defaults (message : Any) : t :=
  {| message := message; queue := None; exchange := None;
     routing_key := ""; correlation_id := None; message_id := None;
     timestamp := VNone; rpc := false; rpc_timeout := VFloat 15 1;
     raise_timeout := false; _extra_middlewares := [];
     publish_kwargs := ∅ |}.

End PublishArgs.

(** The parameters of [LogicPublisher.request]. *)
Module RequestArgs.

Record t : Type := mk {
  message : Any;
  queue : option (string + loc);
  exchange : option (string + RabbitExchange.t);
  routing_key : string;
  correlation_id : option string;
  message_id : option string;
  timestamp : Any;
  _extra_middlewares : list PublisherMiddleware;
  publish_kwargs : AnyDict
}.

(** [request(message)]: every other parameter at its default. *)
Definition defaults (message : Any) : t :=
  {| message := message; queue := None; exchange := None;
     routing_key := ""; correlation_id := None; message_id := None;
     timestamp := VNone; _extra_middlewares := [];
     publish_kwargs := ∅ |}.

End RequestArgs.

(** The keys of the [RequestPublishKwargs] typed dict. *)
Definition RequestPublishKwargs_keys : gset string :=
  {[ "headers"; "mandatory"; "immediate"; "timeout"; "persist"; "priority";
     "message_type"; "content_type"; "user_id"; "expiration";
     "content_encoding" ]}.

(** The keys of the [PublishKwargs] typed dict. *)
Definition PublishKwargs_keys : gset string :=
  RequestPublishKwargs_keys ∪ {[ "reply_to" ]}.

(** ** [LogicPublisher] *)

Module LogicPublisher.

Record t : Type := mk {
  routing_key : string;
  queue : loc;
  exchange : RabbitExchange.t;
  reply_to : Any;
  message_kwargs : AnyDict;
  app_id : option string;
  virtual_host : string;
  _producer : option AioPikaFastProducer.t;
  _middlewares : list PublisherMiddleware;
  _broker_middlewares : list BrokerMiddleware;
  schema_ : Any;
  title_ : option string;
  description_ : option string;
  include_in_schema : bool
}.

(** [LogicPublisher.__init__]. The base class, not among the embedded sources,
    keeps the two middleware lists and the AsyncAPI arguments and starts
    without a producer (the spec: constructed unconfigured, Producer handle
    absent). *)
Definition __init__ (routing_key : string) (queue : loc)
    (exchange : RabbitExchange.t) (message_kwargs : AnyDict)
    (broker_middlewares : list BrokerMiddleware)
    (middlewares : list PublisherMiddleware)
    (schema_ : Any) (title_ description_ : option string)
    (include_in_schema : bool) : t :=
  {| routing_key := routing_key;
     queue := queue;
     exchange := exchange;
     reply_to := default VNone (message_kwargs !! "reply_to");
     message_kwargs := delete "reply_to" message_kwargs;
     app_id := None;
     virtual_host := "";
     _producer := None;
     _middlewares := middlewares;
     _broker_middlewares := broker_middlewares;
     schema_ := schema_;
     title_ := title_;
     description_ := description_;
     include_in_schema := include_in_schema |}.

(** [LogicPublisher.setup]; the base class's [setup], not among the embedded
    sources, stores the producer it is given. *)
Definition setup (self : t) (producer : option AioPikaFastProducer.t)
    (app_id : option string) (virtual_host : string) : t :=
  {| routing_key := routing_key self;
     queue := queue self;
     exchange := exchange self;
     reply_to := reply_to self;
     message_kwargs := message_kwargs self;
     app_id := app_id;
     virtual_host := virtual_host;
     _producer := producer;
     _middlewares := _middlewares self;
     _broker_middlewares := _broker_middlewares self;
     schema_ := schema_ self;
     title_ := title_ self;
     description_ := description_ self;
     include_in_schema := include_in_schema self |}.

(** [self.queue = new_q]. *)
Definition set_queue (new_q : loc) (self : t) : t :=
  {| routing_key := routing_key self;
     queue := new_q;
     exchange := exchange self;
     reply_to := reply_to self;
     message_kwargs := message_kwargs self;
     app_id := app_id self;
     virtual_host := virtual_host self;
     _producer := _producer self;
     _middlewares := _middlewares self;
     _broker_middlewares := _broker_middlewares self;
     schema_ := schema_ self;
     title_ := title_ self;
     description_ := description_ self;
     include_in_schema := include_in_schema self |}.

(** The [routing] property: [self.routing_key or self.queue.routing]. *)
Definition routing (self : t) : M string :=
  if truthy (routing_key self) then ret (routing_key self)
  else
    let* q := load (queue self) in
    ret (RabbitQueue.routing q).

(** [queue or self.queue]: [None] and the empty name are falsy, a
    descriptor object is truthy. *)
Definition queue_or (queue : option (string + loc)) (bound : loc)
  : string + loc :=
  match queue with
  | Some (inl n) => if truthy n then inl n else inr bound
  | Some (inr l) => inr l
  | None => inr bound
  end.

(** [exchange or self.exchange.name]. *)
Definition exchange_or (exchange : option (string + RabbitExchange.t))
    (bound : RabbitExchange.t) : Any :=
  match exchange with
  | Some (inl n) => if truthy n then VStr n else VStr (RabbitExchange.name bound)
  | Some (inr e) => VExchange e
  | None => VStr (RabbitExchange.name bound)
  end.

(** [routing_key or self.routing_key or
     RabbitQueue.validate(queue or self.queue).routing]. *)
Definition resolve_routing_key (self : t) (queue' : option (string + loc))
    (routing_key' : string) : M string :=
  if truthy routing_key' then ret routing_key'
  else if truthy (routing_key self) then ret (routing_key self)
  else
    let* q := RabbitQueue_validate (queue_or queue' (queue self)) in
    ret (RabbitQueue.routing q).

(** [correlation_id or gen_cor_id()]. *)
Definition resolve_correlation_id (correlation_id : option string) : M string :=
  if truthy_opt correlation_id
  then ret (default "" correlation_id)
  else gen_cor_id.

(** The [kwargs] dict that [publish] builds. *)
Definition publish_kwargs_dict (self : t) (a : PublishArgs.t) : M AnyDict :=
  let* routing_key' :=
    resolve_routing_key self (PublishArgs.queue a) (PublishArgs.routing_key a) in
  let* correlation_id := resolve_correlation_id (PublishArgs.correlation_id a) in
  ret (unpack
         (unpack
            (list_to_map
               [ ("routing_key", VStr routing_key');
                 ("exchange", exchange_or (PublishArgs.exchange a) (exchange self));
                 ("app_id", of_optional_str (app_id self));
                 ("correlation_id", VStr correlation_id);
                 ("message_id", of_optional_str (PublishArgs.message_id a));
                 ("timestamp", PublishArgs.timestamp a);
                 ("rpc", VBool (PublishArgs.rpc a));
                 ("rpc_timeout", PublishArgs.rpc_timeout a);
                 ("raise_timeout", VBool (PublishArgs.raise_timeout a));
                 ("reply_to", reply_to self) ])
            (message_kwargs self))
         (PublishArgs.publish_kwargs a)).

(** The [kwargs] dict that [request] builds. *)
Definition request_kwargs_dict (self : t) (a : RequestArgs.t) : M AnyDict :=
  let* routing_key' :=
    resolve_routing_key self (RequestArgs.queue a) (RequestArgs.routing_key a) in
  let* correlation_id := resolve_correlation_id (RequestArgs.correlation_id a) in
  ret (unpack
         (unpack
            (list_to_map
               [ ("routing_key", VStr routing_key');
                 ("exchange", exchange_or (RequestArgs.exchange a) (exchange self));
                 ("app_id", of_optional_str (app_id self));
                 ("correlation_id", VStr correlation_id);
                 ("message_id", of_optional_str (RequestArgs.message_id a));
                 ("timestamp", RequestArgs.timestamp a) ])
            (message_kwargs self))
         (RequestArgs.publish_kwargs a)).

(** The second tier of the chain: [_extra_middlewares or
    (m(None).publish_scope for m in self._broker_middlewares[::-1])]. *)
Definition second_tier (self : t) (_extra_middlewares : list PublisherMiddleware)
  : list PublisherMiddleware :=
  match _extra_middlewares with
  | [] => map (fun m : BrokerMiddleware => BaseMiddleware.publish_scope (m None))
              (rev (_broker_middlewares self))
  | _ => _extra_middlewares
  end.

(** The [for m in chain(...): call = partial(m, call)] loop. *)
Definition wrap_call (self : t) (_extra_middlewares : list PublisherMiddleware)
    (call : AsyncFunc) : AsyncFunc :=
  fold_left (fun (call : AsyncFunc) (m : PublisherMiddleware) => m call)
            (rev (_middlewares self) ++ second_tier self _extra_middlewares)
            call.

(** [LogicPublisher.publish]. *)
Definition publish (self : t) (a : PublishArgs.t) : M Any :=
  match _producer self with
  | None => raise (AssertionError NOT_CONNECTED_YET)
  | Some producer =>
    let* kwargs := publish_kwargs_dict self a in
    let call :=
      wrap_call self (PublishArgs._extra_middlewares a)
                (AioPikaFastProducer.publish producer) in
    call (PublishArgs.message a) kwargs
  end.

(** The loop at the head of the [async with] block of [request]: each
    broker middleware, last registered first, is built for the reply,
    entered on the exit stack and wrapped around [return_msg].  It yields
    the chain built, or what an [__aenter__] raised, together with the
    callbacks registered until then. *)
Fixpoint enter_scopes (ms : list BrokerMiddleware) (published_msg : Any)
    (stack : list (option exn -> M bool)) (return_msg : ReturnMsg)
  : M (outcome ReturnMsg * list (option exn -> M bool)) :=
  match ms with
  | [] => ret (Returned return_msg, stack)
  | m :: rest =>
    let mid := m (Some published_msg) in
    let* entered := attempt (BaseMiddleware.__aenter__ mid) in
    match entered with
    | Returned _ =>
      enter_scopes rest published_msg
                   (BaseMiddleware.__aexit__ mid :: stack)
                   (BaseMiddleware.consume_scope mid return_msg)
    | Raised e => ret (Raised e, stack)
    end
  end.

(** The rest of the block: parse, decode, tag, and hand the message to the
    inbound chain. *)
Definition parse_reply (producer : AioPikaFastProducer.t) (published_msg : Any)
    (return_msg : ReturnMsg) : M RabbitMessage.t :=
  let* parsed_msg := AioPikaFastProducer._parser producer published_msg in
  let* body := AioPikaFastProducer._decoder producer parsed_msg in
  let parsed_msg := RabbitMessage.set_decoded_body body parsed_msg in
  let parsed_msg := RabbitMessage.set_source_type Response parsed_msg in
  return_msg parsed_msg.

(** The whole [async with AsyncExitStack() as stack:] block; [None] when
    control leaves the block without returning. *)
Definition scoped_reply (self : t) (producer : AioPikaFastProducer.t)
    (published_msg : Any) : M (option RabbitMessage.t) :=
  let* scopes :=
    enter_scopes (rev (_broker_middlewares self)) published_msg [] return_input in
  let* body :=
    attempt match scopes.1 with
            | Returned return_msg => parse_reply producer published_msg return_msg
            | Raised e => raise e
            end in
  async_with_exit scopes.2 body.

(** The outbound half of [request]: the envelope and the wrapped
    [self._producer.request] call, yielding [published_msg]. *)
Definition request_call (self : t) (producer : AioPikaFastProducer.t)
    (a : RequestArgs.t) : M Any :=
  let* kwargs := request_kwargs_dict self a in
  let request :=
    wrap_call self (RequestArgs._extra_middlewares a)
              (AioPikaFastProducer.request producer) in
  request (RequestArgs.message a) kwargs.

(** [LogicPublisher.request]. *)
Definition request (self : t) (a : RequestArgs.t) : M RabbitMessage.t :=
  match _producer self with
  | None => raise (AssertionError NOT_CONNECTED_YET)
  | Some producer =>
    let* published_msg := request_call self producer a in
    let* result := scoped_reply self producer published_msg in
    match result with
    | Some parsed_msg => ret parsed_msg
    | None => raise (AssertionError "unreachable")
    end
  end.

(** [LogicPublisher.add_prefix]; the publisher object after the call is
    the result. *)
Definition add_prefix (self : t) (prefix : string) : M t :=
  let* new_q := deepcopy (queue self) in
  let* _ := prefix_name new_q prefix in
  ret (set_queue new_q self).

End LogicPublisher.

(** ** Vocabulary of the statements *)

(** A dict whose keys are all among those of a typed dict. *)
Definition typed (keys : gset string) (d : AnyDict) : Prop := dom d ⊆ keys.

(** The reference points at an object of the store. *)
Definition allocated (w : World) (l : loc) : Prop := is_Some (heap w !! l).

(** The references a call may follow are allocated: the publisher's bound
    descriptor and, when the caller passes a descriptor object, that one. *)
Definition refs_ok (w : World) (self : LogicPublisher.t)
    (queue' : option (string + loc)) : Prop :=
  allocated w (LogicPublisher.queue self)
  /\ forall l, queue' = Some (inr l) -> allocated w l.

(** In world [w], [publish] builds [kwargs], leaves world [w'] and invokes
    its composed call chain around the producer's [publish] there. *)
Definition publish_sends (self : LogicPublisher.t) (a : PublishArgs.t)
    (w : World) (kwargs : AnyDict) (w' : World) : Prop :=
  exists producer,
    LogicPublisher._producer self = Some producer
    /\ LogicPublisher.publish_kwargs_dict self a w = (Returned kwargs, w')
    /\ LogicPublisher.publish self a w
       = LogicPublisher.wrap_call self (PublishArgs._extra_middlewares a)
           (AioPikaFastProducer.publish producer)
           (PublishArgs.message a) kwargs w'.

(** In world [w], [request] builds [kwargs], leaves world [w'] and invokes
    its composed call chain around the producer's [request] there; the
    whole call is that invocation followed, on the message it yields, by
    the scoped block and the guard after it. *)
Definition request_sends (self : LogicPublisher.t) (a : RequestArgs.t)
    (w : World) (kwargs : AnyDict) (w' : World) : Prop :=
  exists producer,
    LogicPublisher._producer self = Some producer
    /\ LogicPublisher.request_kwargs_dict self a w = (Returned kwargs, w')
    /\ LogicPublisher.request self a w
       = (let* published_msg :=
            LogicPublisher.wrap_call self (RequestArgs._extra_middlewares a)
              (AioPikaFastProducer.request producer)
              (RequestArgs.message a) kwargs in
          let* result :=
            LogicPublisher.scoped_reply self producer published_msg in
          match result with
          | Some parsed_msg => ret parsed_msg
          | None => raise (AssertionError "unreachable")
          end) w'.

(** The precedence the spec gives for the routing key [rk] of a call made
    with the per-call [routing_key'] and destination [queue']: the per-call
    key, then the publisher's bound key, then the routing derived from the
    per-call destination, then the routing derived from the bound one. *)
Definition routing_precedence (self : LogicPublisher.t) (w : World)
    (queue' : option (string + loc)) (routing_key' : string) (rk : string)
  : Prop :=
  (routing_key' <> "" -> rk = routing_key')
  /\ (routing_key' = "" -> LogicPublisher.routing_key self <> "" ->
      rk = LogicPublisher.routing_key self)
  /\ (routing_key' = "" -> LogicPublisher.routing_key self = "" ->
      (forall n, queue' = Some (inl n) -> n <> "" ->
         rk = RabbitQueue.routing (RabbitQueue.of_name n))
      /\ (forall l q, queue' = Some (inr l) -> heap w !! l = Some q ->
            rk = RabbitQueue.routing q)
      /\ (queue' = None \/ queue' = Some (inl "") ->
          forall q, heap w !! LogicPublisher.queue self = Some q ->
            rk = RabbitQueue.routing q)).

(** An exit callback that never asks for the exception to be swallowed:
    whenever it returns, it returns false. *)
Definition never_swallows (cb : option exn -> M bool) : Prop :=
  forall exc w b w', cb exc w = (Returned b, w') -> b = false.

(** Between world [w] and world [w'] nothing rewound the id generator: it
    hands out the same ids and has drawn at least as many. *)
Definition generator_not_rewound (w w' : World) : Prop :=
  uuids w' = uuids w /\ drawn w <= drawn w'.

(** Both dicts carry a correlation id, and the two ids differ. *)
Definition distinct_correlation_ids (kwargs1 kwargs2 : AnyDict) : Prop :=
  exists c1 c2,
    kwargs1 !! "correlation_id" = Some (VStr c1)
    /\ kwargs2 !! "correlation_id" = Some (VStr c2)
    /\ c1 <> c2.

(** ** Concrete collaborators, publishers and worlds *)

Module Fixtures.

(** Appends a line to the world's log. *)
Definition say (line : string) : M unit :=
  fun w => (Returned tt, set_log (log w ++ [line]) w).

(** A publisher middleware that logs its name and delegates inward. *)
Definition probe (name : string) : PublisherMiddleware :=
  fun call message kwargs =>
    let* _ := say name in
    call message kwargs.

(** A producer that logs the operation it is asked for. *)
Definition producer : AioPikaFastProducer.t :=
  {| AioPikaFastProducer.publish :=
       fun _ _ => let* _ := say "producer.publish" in ret VNone;
     AioPikaFastProducer.request :=
       fun _ _ => let* _ := say "producer.request" in ret (VObject 7);
     AioPikaFastProducer._parser :=
       fun raw => ret (RabbitMessage.mk raw VNone Request);
     AioPikaFastProducer._decoder := fun _ => ret (VStr "pong") |}.

(** The same producer with a parser that fails on every reply. *)
Definition producer_bad_parser : AioPikaFastProducer.t :=
  {| AioPikaFastProducer.publish := AioPikaFastProducer.publish producer;
     AioPikaFastProducer.request := AioPikaFastProducer.request producer;
     AioPikaFastProducer._parser := fun _ => raise (Exception "malformed reply");
     AioPikaFastProducer._decoder := AioPikaFastProducer._decoder producer |}.

(** A broker middleware class whose objects log their scopes and leave
    exceptions alone. *)
Definition broker_probe (name : string) : BrokerMiddleware :=
  fun _ =>
    {| BaseMiddleware.__aenter__ := say (name ++ ".enter");
       BaseMiddleware.__aexit__ := fun _ => let* _ := say (name ++ ".exit") in ret false;
       BaseMiddleware.publish_scope := probe (name ++ ".publish_scope");
       BaseMiddleware.consume_scope :=
         fun call msg => let* _ := say (name ++ ".consume_scope") in call msg |}.

(** A broker middleware class whose [__aexit__] returns true. *)
Definition swallowing : BrokerMiddleware :=
  fun _ =>
    {| BaseMiddleware.__aenter__ := ret tt;
       BaseMiddleware.__aexit__ := fun _ => ret true;
       BaseMiddleware.publish_scope := fun call => call;
       BaseMiddleware.consume_scope := fun call => call |}.

Definition orders : loc := 1%positive.
Definition audit : loc := 2%positive.

(** A store with the descriptors "orders" and "audit", a generator that
    hands out "uuid-0", and an empty log. *)
Definition world : World :=
  {| heap := {[ orders := RabbitQueue.of_name "orders";
                audit := RabbitQueue.of_name "audit" ]};
     uuids := fun _ => "uuid-0";
     drawn := 0;
     log := [] |}.

Definition events : RabbitExchange.t := RabbitExchange.mk "events".

(** A publisher bound to "orders" on "events", not yet set up. *)
Definition fresh_publisher (routing_key : string) (message_kwargs : AnyDict)
    (broker_middlewares : list BrokerMiddleware)
    (middlewares : list PublisherMiddleware) : LogicPublisher.t :=
  LogicPublisher.__init__ routing_key orders events message_kwargs
    broker_middlewares middlewares VNone None None true.

(** The same publisher after [setup] with the logging producer. *)
Definition publisher (routing_key : string) (message_kwargs : AnyDict)
    (broker_middlewares : list BrokerMiddleware)
    (middlewares : list PublisherMiddleware) : LogicPublisher.t :=
  LogicPublisher.setup
    (fresh_publisher routing_key message_kwargs broker_middlewares middlewares)
    (Some producer) (Some "svc") "/".

Definition hi : Any := VStr "hi".

(** A publisher with the swallowing broker middleware, set up with the
    producer whose parser fails. *)
Definition publisher_swallowing : LogicPublisher.t :=
  LogicPublisher.setup (fresh_publisher "" ∅ [swallowing] [])
    (Some producer_bad_parser) (Some "svc") "/".

(** Message options stored on a publisher, and options of one call. *)
Definition stored_options : AnyDict :=
  {[ "priority" := VInt 1; "persist" := VBool true ]}.

Definition call_options : AnyDict := {[ "priority" := VInt 9 ]}.

End Fixtures.

(** ** Hashes *)

Section Hashes.

(** Python's built-in [hash] on strings. *)
Variable hash : string -> Z.

(** [LogicSubscriber.get_routing_hash] (faststream.rabbit.subscriber.usecase)
    is not among the embedded sources; it is taken as a function of the
    descriptor and the exchange it is handed. *)
Variable get_routing_hash : RabbitQueue.t -> RabbitExchange.t -> Z.

(** How an f-string renders an [Optional[str]] field. *)
Definition format_optional (o : option string) : string :=
  match o with
  | Some s => s
  | None => "None"
  end.

(** The string that [StreamSub.__hash__] hashes. *)
Definition StreamSub_hash_key (self : StreamSub.t) : string :=
  match StreamSub.group self with
  | Some group =>
    "stream:" ++ StreamSub.name self ++ " group:" ++ group
    ++ " consumer:" ++ format_optional (StreamSub.consumer self)
  | None => "stream:" ++ StreamSub.name self
  end.

(** [StreamSub.__hash__]. *)
Definition StreamSub_hash (self : StreamSub.t) : Z :=
  hash (StreamSub_hash_key self).

(** [LogicPublisher.__hash__]; it reads the bound descriptor through the
    publisher's reference. *)
Definition LogicPublisher_hash (self : LogicPublisher.t) : M Z :=
  let* q := load (LogicPublisher.queue self) in
  ret (get_routing_hash q (LogicPublisher.exchange self)
       + hash (LogicPublisher.routing_key self))%Z.

End Hashes.

(** ** Further vocabulary and collaborators *)

(** An exit callback that lets every exception pass: it neither raises nor
    asks for the exception to be swallowed. *)
Definition quiet_exit (cb : option exn -> M bool) : Prop :=
  forall exc w, exists w', cb exc w = (Returned false, w').

Module MoreFixtures.

(** [n] strokes: a different string for every number. *)
Fixpoint strokes (n : nat) : string :=
  match n with
  | 0 => ""
  | S n => "|" ++ strokes n
  end.

(** The fixture world with a generator that never repeats an id. *)
Definition world : World :=
  {| heap := heap Fixtures.world;
     uuids := fun n => "uuid-" ++ strokes n;
     drawn := 0;
     log := [] |}.

(** A broker middleware class whose objects cannot be entered. *)
Definition failing_enter : BrokerMiddleware :=
  fun _ =>
    {| BaseMiddleware.__aenter__ := raise (Exception "cannot enter");
       BaseMiddleware.__aexit__ := fun _ => let* _ := Fixtures.say "never" in ret false;
       BaseMiddleware.publish_scope := fun call => call;
       BaseMiddleware.consume_scope := fun call => call |}.

(** A producer whose operations fail. *)
Definition producer_down : AioPikaFastProducer.t :=
  {| AioPikaFastProducer.publish := fun _ _ => raise (Exception "channel closed");
     AioPikaFastProducer.request := fun _ _ => raise (Exception "timeout");
     AioPikaFastProducer._parser := AioPikaFastProducer._parser Fixtures.producer;
     AioPikaFastProducer._decoder := AioPikaFastProducer._decoder Fixtures.producer |}.

End MoreFixtures.

(** * Properties *)

(** ** Truthiness *)

Lemma truthy_true s : truthy s = true <-> s <> "".
Proof.
  unfold truthy. destruct (String.eqb_spec s ""); simpl; split; congruence.
Qed.

Lemma truthy_false s : truthy s = false <-> s = "".
Proof.
  unfold truthy. destruct (String.eqb_spec s ""); simpl; split; congruence.
Qed.

Lemma truthy_opt_true o :
  truthy_opt o = true <-> exists s, o = Some s /\ s <> "".
Proof.
  destruct o as [s|]; simpl.
  - rewrite truthy_true. split; [eauto | by intros (s' & [= <-] & ?)].
  - split; [done | by intros (? & ? & ?)].
Qed.

Lemma truthy_opt_false o : truthy_opt o = false <-> o = None \/ o = Some "".
Proof.
  destruct o as [s|]; simpl.
  - rewrite truthy_false. split; [intros ->; auto | by intros [?|[= ->]]].
  - split; auto.
Qed.

(** ** The stream subscription descriptor *)

(** C9, as the spec words it, fails on [StreamSub("s")]: with group and
    consumer unset the construction succeeds, but the last-seen id it
    stores is "$", not "latest". *)
Lemma C9_default_last_id_is_dollar :
  StreamSub.last_id_of (StreamSub.default "s") = Some "$"
  /\ StreamSub.last_id_of (StreamSub.default "s") <> Some "latest".
Proof. split; [reflexivity | discriminate]. Qed.

(** C9, amended.  A group or consumer counts as set when it is a non-empty
    string.  Construction raises the configuration error [SetupError]
    exactly when one of the two is set and the other is not.  With both
    unset it succeeds without a warning, and a last-seen id that was not
    given becomes "$".  With both set and [no_ack] true it succeeds and
    emits one [RuntimeWarning]. *)
Theorem C9_stream_sub_validation
    (stream : string) (polling_interval : option Z)
    (group consumer : option string) (batch no_ack : bool)
    (last_id : option string) (maxlen max_records max_concurrent : option Z) :
  let init := StreamSub.__init__ stream polling_interval group consumer batch in
  ((init no_ack last_id maxlen max_records max_concurrent).2
     = Raised (SetupError StreamSub.both_message)
   <-> truthy_opt group <> truthy_opt consumer)
  /\ (truthy_opt group = false -> truthy_opt consumer = false ->
      init no_ack None maxlen max_records max_concurrent
      = ([], Returned (StreamSub.mk stream group consumer polling_interval
                         batch no_ack "$" maxlen max_records max_concurrent)))
  /\ (truthy_opt group = true -> truthy_opt consumer = true ->
      init true last_id maxlen max_records max_concurrent
      = ([StreamSub.warn StreamSub.no_ack_message StreamSub.RuntimeWarning],
         Returned (StreamSub.mk stream group consumer polling_interval
                     batch true (default "$" last_id)
                     maxlen max_records max_concurrent))).
Proof.
  cbv zeta. unfold StreamSub.__init__.
  split; [|split].
  - destruct (truthy_opt group), (truthy_opt consumer); simpl;
      split; intros H; try done.
  - intros -> ->. reflexivity.
  - intros -> ->. simpl. by destruct last_id.
Qed.

(** C9 at work: no group and no consumer; group "g" alone; and group "g"
    with consumer "c" and [no_ack]. *)
Lemma C9_stream_sub_validation_witness :
  StreamSub.__init__ "s" (Some 100%Z) None None false false None None None None
  = ([], Returned (StreamSub.mk "s" None None (Some 100%Z) false false "$"
                     None None None))
  /\ (StreamSub.__init__ "s" (Some 100%Z) (Some "g") None false false None
        None None None).2
     = Raised (SetupError StreamSub.both_message)
  /\ StreamSub.__init__ "s" (Some 100%Z) (Some "g") (Some "c") false true None
       None None None
     = ([StreamSub.warn StreamSub.no_ack_message StreamSub.RuntimeWarning],
        Returned (StreamSub.mk "s" (Some "g") (Some "c") (Some 100%Z) false
                    true "$" None None None)).
Proof.
  split; [|split].
  - apply (C9_stream_sub_validation "s" (Some 100%Z) None None false false
             None None None None); reflexivity.
  - apply (C9_stream_sub_validation "s" (Some 100%Z) (Some "g") None false
             false None None None None). simpl. discriminate.
  - apply (C9_stream_sub_validation "s" (Some 100%Z) (Some "g") (Some "c")
             false true None None None None); reflexivity.
Defined.

(** ** The state-and-exception monad *)

Lemma bind_returned {A B} (m : M A) (k : A -> M B) w a w' :
  m w = (Returned a, w') -> bind m k w = k a w'.
Proof. intros H. unfold bind. by rewrite H. Qed.

(** A bind returns only if both halves do. *)
Lemma bind_returned_inv {A B} (m : M A) (k : A -> M B) w b w' :
  bind m k w = (Returned b, w') ->
  exists a w1, m w = (Returned a, w1) /\ k a w1 = (Returned b, w').
Proof.
  unfold bind. destruct (m w) as [[a|e] w1]; [eauto | discriminate].
Qed.

(** A bind raises when its first half does, or when the second does after
    the first returned. *)
Lemma bind_raised_inv {A B} (m : M A) (k : A -> M B) w e w' :
  bind m k w = (Raised e, w') ->
  m w = (Raised e, w')
  \/ exists a w1, m w = (Returned a, w1) /\ k a w1 = (Raised e, w').
Proof.
  unfold bind. destruct (m w) as [[a|e1] w1]; [eauto | intros [= -> ->]; auto].
Qed.

(** ** Middleware order *)

(** Wrapping the reversed list nests the middlewares in list order: the
    head of the list ends up outermost. *)
Lemma fold_wrap_rev (ms : list PublisherMiddleware) (call : AsyncFunc) :
  fold_left (fun (call : AsyncFunc) (m : PublisherMiddleware) => m call)
            (rev ms) call
  = fold_right (fun (m : PublisherMiddleware) (call : AsyncFunc) => m call)
               call ms.
Proof.
  rewrite <- fold_left_rev_right. by rewrite rev_involutive.
Qed.

(** A stack of probes logs their names in registration order before the
    innermost call runs. *)
Lemma probes_log_in_order (names : list string) (call : AsyncFunc)
    (message : Any) (kwargs : AnyDict) (w : World) :
  fold_right (fun (m : PublisherMiddleware) (call : AsyncFunc) => m call)
             call (map Fixtures.probe names) message kwargs w
  = call message kwargs (set_log (log w ++ names) w).
Proof.
  revert w. induction names as [|n names IH]; intros w; simpl.
  - rewrite app_nil_r. by destruct w.
  - unfold Fixtures.probe at 1, bind, Fixtures.say. simpl.
    rewrite IH. simpl. by rewrite <- app_assoc.
Qed.

(** The chain of a call without extras: the publisher-level middlewares
    nest around the producer's operation and the broker-level
    [publish_scope]s around them, in each tier the one registered first
    outermost. *)
Lemma wrap_call_nesting (self : LogicPublisher.t) (call : AsyncFunc) :
  LogicPublisher.wrap_call self [] call
  = fold_right
      (fun (m : BrokerMiddleware) (call : AsyncFunc) =>
         BaseMiddleware.publish_scope (m None) call)
      (fold_right (fun (m : PublisherMiddleware) (call : AsyncFunc) => m call)
                  call (LogicPublisher._middlewares self))
      (LogicPublisher._broker_middlewares self).
Proof.
  unfold LogicPublisher.wrap_call, LogicPublisher.second_tier.
  rewrite fold_left_app, fold_wrap_rev, map_rev, fold_wrap_rev.
  generalize (fold_right (fun (m : PublisherMiddleware) (call : AsyncFunc) => m call)
                call (LogicPublisher._middlewares self)).
  intros inner.
  induction (LogicPublisher._broker_middlewares self) as [|m ms IH]; simpl;
    [done | by rewrite IH].
Qed.

(** Any number of publisher-level probes run in registration order, and
    the producer's operation runs after the last of them. *)
Lemma probes_run_in_registration_order (self : LogicPublisher.t)
    (names : list string) (call : AsyncFunc) (message : Any)
    (kwargs : AnyDict) (w : World) :
  LogicPublisher._middlewares self = map Fixtures.probe names ->
  LogicPublisher._broker_middlewares self = [] ->
  LogicPublisher.wrap_call self [] call message kwargs w
  = call message kwargs (set_log (log w ++ names) w).
Proof.
  intros Hm Hb. rewrite wrap_call_nesting, Hm, Hb. simpl.
  apply probes_log_in_order.
Qed.

(** C1, as the spec words it, fails: with the publisher middlewares
    registered as [A, B], a [publish] and a [request] both run A first,
    then B, then the producer. *)
Lemma C1_registered_first_runs_first :
  let self := Fixtures.publisher "" ∅ [] [Fixtures.probe "A"; Fixtures.probe "B"] in
  log (LogicPublisher.publish self (PublishArgs.defaults Fixtures.hi)
         Fixtures.world).2
  = ["A"; "B"; "producer.publish"]
  /\ log (LogicPublisher.publish self (PublishArgs.defaults Fixtures.hi)
            Fixtures.world).2
     <> ["B"; "A"; "producer.publish"]
  /\ log (LogicPublisher.request self (RequestArgs.defaults Fixtures.hi)
            Fixtures.world).2
     = ["A"; "B"; "producer.request"]
  /\ log (LogicPublisher.request self (RequestArgs.defaults Fixtures.hi)
            Fixtures.world).2
     <> ["B"; "A"; "producer.request"].
Proof. vm_compute. repeat split; discriminate. Qed.

(** C1, amended.  On a configured publisher whose publisher-level
    middlewares were registered as [A, B], with no broker-level and no
    extra middlewares, [publish] and [request] call A with B wrapped around
    the producer's operation as its inner call: the middleware registered
    first is outermost and runs first, then B, and the producer's call is
    innermost and runs last. *)
Theorem C1_first_registered_is_outermost
    (self : LogicPublisher.t) (producer : AioPikaFastProducer.t)
    (A B : PublisherMiddleware) :
  LogicPublisher._producer self = Some producer ->
  LogicPublisher._middlewares self = [A; B] ->
  LogicPublisher._broker_middlewares self = [] ->
  (forall a : PublishArgs.t,
     PublishArgs._extra_middlewares a = [] ->
     LogicPublisher.publish self a
     = let* kwargs := LogicPublisher.publish_kwargs_dict self a in
       A (B (AioPikaFastProducer.publish producer)) (PublishArgs.message a) kwargs)
  /\ (forall a : RequestArgs.t,
        RequestArgs._extra_middlewares a = [] ->
        LogicPublisher.request self a
        = let* published_msg :=
            (let* kwargs := LogicPublisher.request_kwargs_dict self a in
             A (B (AioPikaFastProducer.request producer))
               (RequestArgs.message a) kwargs) in
          let* result := LogicPublisher.scoped_reply self producer published_msg in
          match result with
          | Some parsed_msg => ret parsed_msg
          | None => raise (AssertionError "unreachable")
          end).
Proof.
  intros Hp Hm Hb. split; intros a Ha.
  - unfold LogicPublisher.publish, LogicPublisher.wrap_call,
      LogicPublisher.second_tier.
    by rewrite Hp, Hm, Hb, Ha.
  - unfold LogicPublisher.request, LogicPublisher.request_call,
      LogicPublisher.wrap_call, LogicPublisher.second_tier.
    by rewrite Hp, Hm, Hb, Ha.
Qed.

(** The amended C1 on two probes and the logging producer. *)
Lemma C1_first_registered_is_outermost_witness :
  let self := Fixtures.publisher "" ∅ [] [Fixtures.probe "A"; Fixtures.probe "B"] in
  LogicPublisher.publish self (PublishArgs.defaults Fixtures.hi)
  = let* kwargs :=
      LogicPublisher.publish_kwargs_dict self (PublishArgs.defaults Fixtures.hi) in
    Fixtures.probe "A"
      (Fixtures.probe "B" (AioPikaFastProducer.publish Fixtures.producer))
      Fixtures.hi kwargs.
Proof.
  exact (proj1 (C1_first_registered_is_outermost
                  (Fixtures.publisher "" ∅ [] [Fixtures.probe "A"; Fixtures.probe "B"])
                  Fixtures.producer (Fixtures.probe "A") (Fixtures.probe "B")
                  eq_refl eq_refl eq_refl)
               (PublishArgs.defaults Fixtures.hi) eq_refl).
Defined.

(** ** The envelope *)

Lemma unpack_lookup (d later : AnyDict) (k : string) :
  unpack d later !! k
  = match later !! k with
    | Some v => Some v
    | None => d !! k
    end.
Proof.
  unfold unpack. rewrite lookup_union.
  by destruct (later !! k), (d !! k).
Qed.

Lemma typed_lookup_None (keys : gset string) (d : AnyDict) (k : string) :
  typed keys d -> k ∉ keys -> d !! k = None.
Proof.
  unfold typed. intros Hd Hk. apply not_elem_of_dom. set_solver.
Qed.

Lemma typed_mono (keys keys' : gset string) (d : AnyDict) :
  keys ⊆ keys' -> typed keys d -> typed keys' d.
Proof. unfold typed. set_solver. Qed.

Lemma routing_key_not_an_option : "routing_key" ∉ PublishKwargs_keys.
Proof.
  unfold PublishKwargs_keys, RequestPublishKwargs_keys.
  rewrite !elem_of_union, !elem_of_singleton. intros H.
  repeat (destruct H as [H|H]); discriminate.
Qed.

Lemma correlation_id_not_an_option : "correlation_id" ∉ PublishKwargs_keys.
Proof.
  unfold PublishKwargs_keys, RequestPublishKwargs_keys.
  rewrite !elem_of_union, !elem_of_singleton. intros H.
  repeat (destruct H as [H|H]); discriminate.
Qed.

Lemma request_keys_subseteq : RequestPublishKwargs_keys ⊆ PublishKwargs_keys.
Proof. unfold PublishKwargs_keys. apply union_subseteq_l. Qed.

Lemma load_allocated (w : World) (l : loc) :
  allocated w l -> exists q, heap w !! l = Some q /\ load l w = (Returned q, w).
Proof. intros [q Hq]. exists q. unfold load. by rewrite Hq. Qed.

(** Resolving the routing key reads the store, leaves the world as it was
    and follows the precedence. *)
Lemma resolve_routing_key_run (self : LogicPublisher.t) (w : World)
    (queue' : option (string + loc)) (routing_key' : string) :
  refs_ok w self queue' ->
  exists rk,
    LogicPublisher.resolve_routing_key self queue' routing_key' w = (Returned rk, w)
    /\ routing_precedence self w queue' routing_key' rk.
Proof.
  intros [Hbound Hover]. unfold LogicPublisher.resolve_routing_key, routing_precedence.
  destruct (truthy routing_key') eqn:Hk.
  { apply truthy_true in Hk. exists routing_key'. by repeat split. }
  apply truthy_false in Hk.
  destruct (truthy (LogicPublisher.routing_key self)) eqn:Hs.
  { apply truthy_true in Hs. exists (LogicPublisher.routing_key self).
    by repeat split. }
  apply truthy_false in Hs.
  destruct (load_allocated _ _ Hbound) as (qb & Hqb & Hlb).
  destruct queue' as [[n|l]|]; simpl.
  - destruct (truthy n) eqn:Hn; simpl.
    + exists (RabbitQueue.routing (RabbitQueue.of_name n)).
      split; [done|]. apply truthy_true in Hn.
      split; [done|]. split; [done|]. intros _ _.
      split; [by intros ? [= <-]|]. split; [done|].
      intros [?|[= ->]]; done.
    + apply truthy_false in Hn as ->.
      exists (RabbitQueue.routing qb). unfold bind. rewrite Hlb.
      split; [done|]. split; [done|]. split; [done|]. intros _ _.
      split; [by intros ? [= <-]|]. split; [done|].
      intros _ q. rewrite Hqb. by intros [= <-].
  - destruct (load_allocated w l) as (ql & Hql & Hll); [by apply Hover|].
    exists (RabbitQueue.routing ql). unfold bind. rewrite Hll.
    split; [done|]. split; [done|]. split; [done|]. intros _ _.
    split; [done|]. split.
    + intros l' q [= <-]. rewrite Hql. by intros [= <-].
    + intros [?|?]; done.
  - exists (RabbitQueue.routing qb). unfold bind. rewrite Hlb.
    split; [done|]. split; [done|]. split; [done|]. intros _ _.
    split; [done|]. split; [done|].
    intros _ q. rewrite Hqb. by intros [= <-].
Qed.

(** Resolving the correlation id: the caller's id when it is non-empty, and
    otherwise the next id of the generator, which advances. *)
Lemma resolve_correlation_id_run (correlation_id : option string) (w : World) :
  exists cid w',
    LogicPublisher.resolve_correlation_id correlation_id w = (Returned cid, w')
    /\ (forall c, correlation_id = Some c -> c <> "" -> cid = c /\ w' = w)
    /\ (correlation_id = None \/ correlation_id = Some "" ->
        gen_cor_id w = (Returned cid, w')
        /\ cid = uuids w (drawn w) /\ drawn w' = S (drawn w)).
Proof.
  unfold LogicPublisher.resolve_correlation_id.
  destruct (truthy_opt correlation_id) eqn:Hc.
  - apply truthy_opt_true in Hc as (c & -> & Hc).
    exists c, w. split; [done|]. split.
    + by intros ? [= <-].
    + intros [?|[= ->]]; done.
  - exists (uuids w (drawn w)), (set_drawn (S (drawn w)) w).
    split; [done|]. split; [|done].
    apply truthy_opt_false in Hc as [->| ->]; [done|]. by intros ? [= <-].
Qed.

(** [publish] always gets as far as its call chain when a producer is set
    and the references are allocated; the dict it passes is the first layer
    with the stored options and then the per-call options unpacked over
    it. *)
Lemma publish_kwargs_dict_run (self : LogicPublisher.t) (a : PublishArgs.t)
    (w : World) :
  refs_ok w self (PublishArgs.queue a) ->
  exists rk cid w' layer,
    LogicPublisher.resolve_routing_key self (PublishArgs.queue a)
      (PublishArgs.routing_key a) w = (Returned rk, w)
    /\ LogicPublisher.resolve_correlation_id (PublishArgs.correlation_id a) w
       = (Returned cid, w')
    /\ layer !! "routing_key" = Some (VStr rk)
    /\ layer !! "correlation_id" = Some (VStr cid)
    /\ LogicPublisher.publish_kwargs_dict self a w
       = (Returned (unpack (unpack layer (LogicPublisher.message_kwargs self))
                           (PublishArgs.publish_kwargs a)), w').
Proof.
  intros Hrefs.
  destruct (resolve_routing_key_run self w _ (PublishArgs.routing_key a) Hrefs)
    as (rk & Hrk & _).
  destruct (resolve_correlation_id_run (PublishArgs.correlation_id a) w)
    as (cid & w' & Hcid & _).
  eexists rk, cid, w', _. split; [done|]. split; [done|].
  split; [|split]; cycle 2.
  - unfold LogicPublisher.publish_kwargs_dict.
    rewrite (bind_returned _ _ _ _ _ Hrk), (bind_returned _ _ _ _ _ Hcid).
    reflexivity.
  - reflexivity.
  - reflexivity.
Qed.

Lemma request_kwargs_dict_run (self : LogicPublisher.t) (a : RequestArgs.t)
    (w : World) :
  refs_ok w self (RequestArgs.queue a) ->
  exists rk cid w' layer,
    LogicPublisher.resolve_routing_key self (RequestArgs.queue a)
      (RequestArgs.routing_key a) w = (Returned rk, w)
    /\ LogicPublisher.resolve_correlation_id (RequestArgs.correlation_id a) w
       = (Returned cid, w')
    /\ layer !! "routing_key" = Some (VStr rk)
    /\ layer !! "correlation_id" = Some (VStr cid)
    /\ LogicPublisher.request_kwargs_dict self a w
       = (Returned (unpack (unpack layer (LogicPublisher.message_kwargs self))
                           (RequestArgs.publish_kwargs a)), w').
Proof.
  intros Hrefs.
  destruct (resolve_routing_key_run self w _ (RequestArgs.routing_key a) Hrefs)
    as (rk & Hrk & _).
  destruct (resolve_correlation_id_run (RequestArgs.correlation_id a) w)
    as (cid & w' & Hcid & _).
  eexists rk, cid, w', _. split; [done|]. split; [done|].
  split; [|split]; cycle 2.
  - unfold LogicPublisher.request_kwargs_dict.
    rewrite (bind_returned _ _ _ _ _ Hrk), (bind_returned _ _ _ _ _ Hcid).
    reflexivity.
  - reflexivity.
  - reflexivity.
Qed.

Lemma publish_sends_intro (self : LogicPublisher.t)
    (producer : AioPikaFastProducer.t) (a : PublishArgs.t) w kwargs w' :
  LogicPublisher._producer self = Some producer ->
  LogicPublisher.publish_kwargs_dict self a w = (Returned kwargs, w') ->
  publish_sends self a w kwargs w'.
Proof.
  intros Hp Hk. exists producer. split; [done|]. split; [done|].
  unfold LogicPublisher.publish. rewrite Hp.
  by rewrite (bind_returned _ _ _ _ _ Hk).
Qed.

Lemma request_sends_intro (self : LogicPublisher.t)
    (producer : AioPikaFastProducer.t) (a : RequestArgs.t) w kwargs w' :
  LogicPublisher._producer self = Some producer ->
  LogicPublisher.request_kwargs_dict self a w = (Returned kwargs, w') ->
  request_sends self a w kwargs w'.
Proof.
  intros Hp Hk. exists producer. split; [done|]. split; [done|].
  unfold LogicPublisher.request, LogicPublisher.request_call. rewrite Hp.
  unfold bind at 1 2. by rewrite Hk.
Qed.

(** A key outside both typed dicts keeps the value of the first layer. *)
Lemma unpack_typed_lookup (keys : gset string) (layer d later : AnyDict)
    (k : string) :
  typed keys d -> typed keys later -> k ∉ keys ->
  unpack (unpack layer d) later !! k = layer !! k.
Proof.
  intros Hd Hl Hk. rewrite !unpack_lookup.
  by rewrite (typed_lookup_None _ _ _ Hl Hk), (typed_lookup_None _ _ _ Hd Hk).
Qed.

(** With an empty per-call key, the routing is the bound key or, when that
    is empty too, the routing of the validated destination. *)
Lemma resolve_routing_key_empty (self : LogicPublisher.t) (w : World)
    (queue' : option (string + loc)) (rk : string) (w' : World) :
  LogicPublisher.resolve_routing_key self queue' "" w = (Returned rk, w') ->
  (LogicPublisher.routing_key self <> "" -> rk = LogicPublisher.routing_key self)
  /\ (LogicPublisher.routing_key self = "" ->
      exists q,
        RabbitQueue_validate
          (LogicPublisher.queue_or queue' (LogicPublisher.queue self)) w
        = (Returned q, w')
        /\ rk = RabbitQueue.routing q).
Proof.
  unfold LogicPublisher.resolve_routing_key. simpl.
  destruct (truthy (LogicPublisher.routing_key self)) eqn:Hs.
  - intros [= <- <-]. apply truthy_true in Hs. by split.
  - apply truthy_false in Hs. intros H. split; [done|]. intros _.
    apply bind_returned_inv in H as (q & w1 & Hq & [= <- <-]). eauto.
Qed.

(** Facts about the fixtures. *)
Lemma fixture_refs_ok (self : LogicPublisher.t) :
  LogicPublisher.queue self = Fixtures.orders ->
  refs_ok Fixtures.world self None.
Proof. intros Hq. split; [rewrite Hq; by eexists | done]. Qed.

Lemma typed_empty (keys : gset string) : typed keys ∅.
Proof. unfold typed. rewrite dom_empty_L. apply empty_subseteq. Qed.

Lemma typed_delete (keys : gset string) (k : string) (d : AnyDict) :
  typed keys d -> typed keys (delete k d).
Proof.
  unfold typed. rewrite dom_delete_L. intros H x Hx.
  apply H. by apply elem_of_difference in Hx as [? _].
Qed.

(** The per-call options of [request] are annotated [RequestPublishKwargs];
    they are [PublishKwargs] all the more. *)
Lemma typed_request_kwargs (d : AnyDict) :
  typed RequestPublishKwargs_keys d -> typed PublishKwargs_keys d.
Proof. apply typed_mono, request_keys_subseteq. Qed.

(** A publisher constructed with options annotated [PublishKwargs] stores
    options within [RequestPublishKwargs]: "reply_to" was taken out. *)
Lemma init_typed rk q ex (message_kwargs : AnyDict) bm ms sc ti de inc :
  typed PublishKwargs_keys message_kwargs ->
  typed RequestPublishKwargs_keys
    (LogicPublisher.message_kwargs
       (LogicPublisher.__init__ rk q ex message_kwargs bm ms sc ti de inc)).
Proof.
  unfold typed, PublishKwargs_keys. simpl. rewrite dom_delete_L.
  intros H k Hk. apply elem_of_difference in Hk as [Hk Hne].
  apply H, elem_of_union in Hk as [Hk|Hk]; [done|]. by destruct Hne.
Qed.

(** C2.  In every call to [publish] or [request] on a configured publisher
    the routing key of the keyword arguments handed to the call chain
    follows the precedence: a non-empty per-call [routing_key], else the
    publisher's non-empty bound routing key, else the routing derived from
    the per-call [queue], else the routing derived from the publisher's
    bound queue. *)
Theorem C2_routing_precedence
    (self : LogicPublisher.t) (producer : AioPikaFastProducer.t) (w : World) :
  LogicPublisher._producer self = Some producer ->
  typed PublishKwargs_keys (LogicPublisher.message_kwargs self) ->
  (forall a : PublishArgs.t,
     refs_ok w self (PublishArgs.queue a) ->
     typed PublishKwargs_keys (PublishArgs.publish_kwargs a) ->
     exists kwargs w' rk,
       publish_sends self a w kwargs w'
       /\ kwargs !! "routing_key" = Some (VStr rk)
       /\ routing_precedence self w (PublishArgs.queue a)
            (PublishArgs.routing_key a) rk)
  /\ (forall a : RequestArgs.t,
        refs_ok w self (RequestArgs.queue a) ->
        typed PublishKwargs_keys (RequestArgs.publish_kwargs a) ->
        exists kwargs w' rk,
          request_sends self a w kwargs w'
          /\ kwargs !! "routing_key" = Some (VStr rk)
          /\ routing_precedence self w (RequestArgs.queue a)
               (RequestArgs.routing_key a) rk).
Proof.
  intros Hp Hstored. split; intros a Hrefs Hcall.
  - destruct (publish_kwargs_dict_run self a w Hrefs)
      as (rk & cid & w' & layer & Hrk & _ & Hl & _ & Hrun).
    eexists _, w', rk. split; [by eapply publish_sends_intro|]. split.
    + rewrite (unpack_typed_lookup PublishKwargs_keys); auto using routing_key_not_an_option.
    + destruct (resolve_routing_key_run self w _ (PublishArgs.routing_key a) Hrefs)
        as (rk' & Hrk' & Hprec).
      rewrite Hrk in Hrk'. by injection Hrk' as ->.
  - destruct (request_kwargs_dict_run self a w Hrefs)
      as (rk & cid & w' & layer & Hrk & _ & Hl & _ & Hrun).
    eexists _, w', rk. split; [by eapply request_sends_intro|]. split.
    + rewrite (unpack_typed_lookup PublishKwargs_keys); auto using routing_key_not_an_option.
    + destruct (resolve_routing_key_run self w _ (RequestArgs.routing_key a) Hrefs)
        as (rk' & Hrk' & Hprec).
      rewrite Hrk in Hrk'. by injection Hrk' as ->.
Qed.

(** C2 on the publisher bound to "orders", called with routing key
    "orders.created". *)
Lemma C2_routing_precedence_witness :
  let self := Fixtures.publisher "" ∅ [] [] in
  let a := PublishArgs.mk Fixtures.hi None None "orders.created" None None
             VNone false (VFloat 15 1) false [] ∅ in
  exists kwargs w' rk,
    publish_sends self a Fixtures.world kwargs w'
    /\ kwargs !! "routing_key" = Some (VStr rk)
    /\ routing_precedence self Fixtures.world None "orders.created" rk.
Proof.
  refine (proj1 (C2_routing_precedence (Fixtures.publisher "" ∅ [] [])
                   Fixtures.producer Fixtures.world eq_refl _) _ _ _).
  - apply typed_delete, typed_empty.
  - by apply fixture_refs_ok.
  - apply typed_empty.
Defined.

(** C3.  In every call to [publish] or [request] the keyword arguments
    handed to the call chain carry a correlation id, and, the generator
    yielding non-empty ids, it is never empty: it is the caller's
    [correlation_id] when a (non-empty) one is supplied, and otherwise the
    id that [gen_cor_id] generates in this call. *)
Theorem C3_correlation_id_always_set
    (self : LogicPublisher.t) (producer : AioPikaFastProducer.t) (w : World) :
  LogicPublisher._producer self = Some producer ->
  typed PublishKwargs_keys (LogicPublisher.message_kwargs self) ->
  uuids w (drawn w) <> "" ->
  (forall a : PublishArgs.t,
     refs_ok w self (PublishArgs.queue a) ->
     typed PublishKwargs_keys (PublishArgs.publish_kwargs a) ->
     exists kwargs w' cid,
       publish_sends self a w kwargs w'
       /\ kwargs !! "correlation_id" = Some (VStr cid)
       /\ cid <> ""
       /\ (forall c, PublishArgs.correlation_id a = Some c -> c <> "" -> cid = c)
       /\ (PublishArgs.correlation_id a = None
           \/ PublishArgs.correlation_id a = Some "" ->
           gen_cor_id w = (Returned cid, w')))
  /\ (forall a : RequestArgs.t,
        refs_ok w self (RequestArgs.queue a) ->
        typed PublishKwargs_keys (RequestArgs.publish_kwargs a) ->
        exists kwargs w' cid,
          request_sends self a w kwargs w'
          /\ kwargs !! "correlation_id" = Some (VStr cid)
          /\ cid <> ""
          /\ (forall c, RequestArgs.correlation_id a = Some c -> c <> "" -> cid = c)
          /\ (RequestArgs.correlation_id a = None
              \/ RequestArgs.correlation_id a = Some "" ->
              gen_cor_id w = (Returned cid, w'))).
Proof.
  intros Hp Hstored Hgen.
  assert (Hcases : forall (o : option string) cid w',
    LogicPublisher.resolve_correlation_id o w = (Returned cid, w') ->
    cid <> ""
    /\ (forall c, o = Some c -> c <> "" -> cid = c)
    /\ (o = None \/ o = Some "" -> gen_cor_id w = (Returned cid, w'))).
  { intros o cid w' Hrun.
    destruct (resolve_correlation_id_run o w) as (cid' & w1 & Hrun' & Hsup & Hfresh).
    rewrite Hrun in Hrun'. injection Hrun' as <- <-.
    split; [|split].
    - destruct (truthy_opt o) eqn:Ho.
      + apply truthy_opt_true in Ho as (c & -> & Hc).
        by destruct (Hsup c eq_refl Hc) as [-> _].
      + apply truthy_opt_false in Ho.
        destruct (Hfresh Ho) as (_ & -> & _). done.
    - intros c Hc Hne. by destruct (Hsup c Hc Hne).
    - intros Ho. by destruct (Hfresh Ho). }
  split; intros a Hrefs Hcall.
  - destruct (publish_kwargs_dict_run self a w Hrefs)
      as (rk & cid & w' & layer & _ & Hcid & _ & Hl & Hrun).
    eexists _, w', cid. split; [by eapply publish_sends_intro|]. split.
    + rewrite (unpack_typed_lookup PublishKwargs_keys);
        auto using correlation_id_not_an_option.
    + by apply Hcases.
  - destruct (request_kwargs_dict_run self a w Hrefs)
      as (rk & cid & w' & layer & _ & Hcid & _ & Hl & Hrun).
    eexists _, w', cid. split; [by eapply request_sends_intro|]. split.
    + rewrite (unpack_typed_lookup PublishKwargs_keys);
        auto using correlation_id_not_an_option.
    + by apply Hcases.
Qed.

(** C3 on a [request] that supplies no correlation id. *)
Lemma C3_correlation_id_always_set_witness :
  let self := Fixtures.publisher "" ∅ [] [] in
  let a := RequestArgs.defaults Fixtures.hi in
  exists kwargs w' cid,
    request_sends self a Fixtures.world kwargs w'
    /\ kwargs !! "correlation_id" = Some (VStr cid)
    /\ cid <> ""
    /\ (forall c, RequestArgs.correlation_id a = Some c -> c <> "" -> cid = c)
    /\ (RequestArgs.correlation_id a = None
        \/ RequestArgs.correlation_id a = Some "" ->
        gen_cor_id Fixtures.world = (Returned cid, w')).
Proof.
  refine (proj2 (C3_correlation_id_always_set (Fixtures.publisher "" ∅ [] [])
                   Fixtures.producer Fixtures.world eq_refl _ _)
                (RequestArgs.defaults Fixtures.hi) _ _).
  - apply typed_delete, typed_empty.
  - discriminate.
  - by apply fixture_refs_ok.
  - apply typed_empty.
Defined.

(** C7.  In every call to [publish] or [request] the keyword arguments
    handed to the call chain are the call's own first layer with the
    publisher's stored message options unpacked over it and the per-call
    options unpacked last: on a key collision the per-call value wins over
    the stored one, and the stored one over the first layer. *)
Theorem C7_later_layer_wins
    (self : LogicPublisher.t) (producer : AioPikaFastProducer.t) (w : World) :
  LogicPublisher._producer self = Some producer ->
  (forall a : PublishArgs.t,
     refs_ok w self (PublishArgs.queue a) ->
     exists kwargs w' layer,
       publish_sends self a w kwargs w'
       /\ kwargs = unpack (unpack layer (LogicPublisher.message_kwargs self))
                          (PublishArgs.publish_kwargs a)
       /\ (forall k v, PublishArgs.publish_kwargs a !! k = Some v ->
             kwargs !! k = Some v)
       /\ (forall k v, PublishArgs.publish_kwargs a !! k = None ->
             LogicPublisher.message_kwargs self !! k = Some v ->
             kwargs !! k = Some v)
       /\ (forall k, PublishArgs.publish_kwargs a !! k = None ->
             LogicPublisher.message_kwargs self !! k = None ->
             kwargs !! k = layer !! k))
  /\ (forall a : RequestArgs.t,
        refs_ok w self (RequestArgs.queue a) ->
        exists kwargs w' layer,
          request_sends self a w kwargs w'
          /\ kwargs = unpack (unpack layer (LogicPublisher.message_kwargs self))
                             (RequestArgs.publish_kwargs a)
          /\ (forall k v, RequestArgs.publish_kwargs a !! k = Some v ->
                kwargs !! k = Some v)
          /\ (forall k v, RequestArgs.publish_kwargs a !! k = None ->
                LogicPublisher.message_kwargs self !! k = Some v ->
                kwargs !! k = Some v)
          /\ (forall k, RequestArgs.publish_kwargs a !! k = None ->
                LogicPublisher.message_kwargs self !! k = None ->
                kwargs !! k = layer !! k)).
Proof.
  intros Hp.
  assert (Hmerge : forall (layer d later : AnyDict),
    (forall k v, later !! k = Some v -> unpack (unpack layer d) later !! k = Some v)
    /\ (forall k v, later !! k = None -> d !! k = Some v ->
          unpack (unpack layer d) later !! k = Some v)
    /\ (forall k, later !! k = None -> d !! k = None ->
          unpack (unpack layer d) later !! k = layer !! k)).
  { intros layer d later. repeat split.
    - intros k v H. by rewrite unpack_lookup, H.
    - intros k v H1 H2. by rewrite !unpack_lookup, H1, H2.
    - intros k H1 H2. by rewrite !unpack_lookup, H1, H2. }
  split; intros a Hrefs.
  - destruct (publish_kwargs_dict_run self a w Hrefs)
      as (rk & cid & w' & layer & _ & _ & _ & _ & Hrun).
    eexists _, w', layer. split; [by eapply publish_sends_intro|].
    split; [done|]. apply Hmerge.
  - destruct (request_kwargs_dict_run self a w Hrefs)
      as (rk & cid & w' & layer & _ & _ & _ & _ & Hrun).
    eexists _, w', layer. split; [by eapply request_sends_intro|].
    split; [done|]. apply Hmerge.
Qed.

(** [__init__] keeps the message options it is given, apart from
    "reply_to", which it takes out and keeps on its own. *)
Lemma init_message_kwargs rk q ex (message_kwargs : AnyDict) bm ms sc ti de inc :
  let self := LogicPublisher.__init__ rk q ex message_kwargs bm ms sc ti de inc in
  LogicPublisher.message_kwargs self = delete "reply_to" message_kwargs
  /\ LogicPublisher.reply_to self = default VNone (message_kwargs !! "reply_to")
  /\ forall k, k <> "reply_to" ->
       LogicPublisher.message_kwargs self !! k = message_kwargs !! k.
Proof.
  simpl. repeat split. intros k Hk. by rewrite lookup_delete_ne.
Qed.

(** C7 on a publisher that stores priority 1 and persist, called with
    priority 9. *)
Lemma C7_later_layer_wins_witness :
  let self := Fixtures.publisher "" Fixtures.stored_options [] [] in
  let a := PublishArgs.mk Fixtures.hi None None "" None None VNone false
             (VFloat 15 1) false [] Fixtures.call_options in
  exists kwargs w' layer,
    publish_sends self a Fixtures.world kwargs w'
    /\ kwargs = unpack (unpack layer (LogicPublisher.message_kwargs self))
                       Fixtures.call_options
    /\ (forall k v, Fixtures.call_options !! k = Some v -> kwargs !! k = Some v)
    /\ (forall k v, Fixtures.call_options !! k = None ->
          LogicPublisher.message_kwargs self !! k = Some v ->
          kwargs !! k = Some v)
    /\ (forall k, Fixtures.call_options !! k = None ->
          LogicPublisher.message_kwargs self !! k = None ->
          kwargs !! k = layer !! k).
Proof.
  refine (proj1 (C7_later_layer_wins
                   (Fixtures.publisher "" Fixtures.stored_options [] [])
                   Fixtures.producer Fixtures.world eq_refl) _ _).
  by apply fixture_refs_ok.
Defined.

(** What that call carries: the per-call priority, the stored persist
    flag. *)
Example later_layer_wins_on_fixture :
  let self := Fixtures.publisher "" Fixtures.stored_options [] [] in
  let a := PublishArgs.mk Fixtures.hi None None "" None None VNone false
             (VFloat 15 1) false [] Fixtures.call_options in
  match LogicPublisher.publish_kwargs_dict self a Fixtures.world with
  | (Returned kwargs, _) =>
    kwargs !! "priority" = Some (VInt 9)
    /\ kwargs !! "persist" = Some (VBool true)
    /\ kwargs !! "routing_key" = Some (VStr "orders")
    /\ kwargs !! "exchange" = Some (VStr "events")
    /\ kwargs !! "correlation_id" = Some (VStr "uuid-0")
  | (Raised _, _) => False
  end.
Proof. vm_compute. repeat split. Qed.

(** C10.  A caller who passes the empty string as [correlation_id] or as
    [routing_key] does not get it forwarded.  An empty correlation id is
    replaced by the id that [gen_cor_id] generates in this call (non-empty
    when the generator's ids are).  An empty routing key falls through to
    the publisher's bound routing key or, when that is empty too, to the
    routing derived from the validated destination. *)
Theorem C10_empty_strings_count_as_absent
    (self : LogicPublisher.t) (producer : AioPikaFastProducer.t) (w : World) :
  LogicPublisher._producer self = Some producer ->
  typed PublishKwargs_keys (LogicPublisher.message_kwargs self) ->
  (forall a : PublishArgs.t,
     refs_ok w self (PublishArgs.queue a) ->
     typed PublishKwargs_keys (PublishArgs.publish_kwargs a) ->
     exists kwargs w' rk cid,
       publish_sends self a w kwargs w'
       /\ kwargs !! "routing_key" = Some (VStr rk)
       /\ kwargs !! "correlation_id" = Some (VStr cid)
       /\ (PublishArgs.correlation_id a = Some "" ->
           gen_cor_id w = (Returned cid, w')
           /\ (uuids w (drawn w) <> "" -> cid <> ""))
       /\ (PublishArgs.routing_key a = "" ->
           (LogicPublisher.routing_key self <> "" ->
            rk = LogicPublisher.routing_key self)
           /\ (LogicPublisher.routing_key self = "" ->
               exists q,
                 RabbitQueue_validate
                   (LogicPublisher.queue_or (PublishArgs.queue a)
                      (LogicPublisher.queue self)) w
                 = (Returned q, w)
                 /\ rk = RabbitQueue.routing q)))
  /\ (forall a : RequestArgs.t,
        refs_ok w self (RequestArgs.queue a) ->
        typed PublishKwargs_keys (RequestArgs.publish_kwargs a) ->
        exists kwargs w' rk cid,
          request_sends self a w kwargs w'
          /\ kwargs !! "routing_key" = Some (VStr rk)
          /\ kwargs !! "correlation_id" = Some (VStr cid)
          /\ (RequestArgs.correlation_id a = Some "" ->
              gen_cor_id w = (Returned cid, w')
              /\ (uuids w (drawn w) <> "" -> cid <> ""))
          /\ (RequestArgs.routing_key a = "" ->
              (LogicPublisher.routing_key self <> "" ->
               rk = LogicPublisher.routing_key self)
              /\ (LogicPublisher.routing_key self = "" ->
                  exists q,
                    RabbitQueue_validate
                      (LogicPublisher.queue_or (RequestArgs.queue a)
                         (LogicPublisher.queue self)) w
                    = (Returned q, w)
                    /\ rk = RabbitQueue.routing q))).
Proof.
  intros Hp Hstored.
  assert (Hcid : forall (o : option string) cid w',
    LogicPublisher.resolve_correlation_id o w = (Returned cid, w') ->
    o = Some "" ->
    gen_cor_id w = (Returned cid, w') /\ (uuids w (drawn w) <> "" -> cid <> "")).
  { intros o cid w' Hrun ->.
    destruct (resolve_correlation_id_run (Some "") w)
      as (cid' & w1 & Hrun' & _ & Hfresh).
    rewrite Hrun in Hrun'. injection Hrun' as <- <-.
    destruct Hfresh as (Hg & -> & _); auto. }
  split; intros a Hrefs Hcall.
  - destruct (publish_kwargs_dict_run self a w Hrefs)
      as (rk & cid & w' & layer & Hrk & Hc & Hl1 & Hl2 & Hrun).
    eexists _, w', rk, cid. split; [by eapply publish_sends_intro|].
    rewrite !(unpack_typed_lookup PublishKwargs_keys);
      auto using routing_key_not_an_option, correlation_id_not_an_option.
    split; [done|]. split; [done|]. split; [by apply Hcid|].
    intros Hempty. rewrite Hempty in Hrk.
    by apply resolve_routing_key_empty in Hrk.
  - destruct (request_kwargs_dict_run self a w Hrefs)
      as (rk & cid & w' & layer & Hrk & Hc & Hl1 & Hl2 & Hrun).
    eexists _, w', rk, cid. split; [by eapply request_sends_intro|].
    rewrite !(unpack_typed_lookup PublishKwargs_keys);
      auto using routing_key_not_an_option, correlation_id_not_an_option.
    split; [done|]. split; [done|]. split; [by apply Hcid|].
    intros Hempty. rewrite Hempty in Hrk.
    by apply resolve_routing_key_empty in Hrk.
Qed.

(** C10 on a call that passes two empty strings. *)
Lemma C10_empty_strings_count_as_absent_witness :
  let self := Fixtures.publisher "" ∅ [] [] in
  let a := PublishArgs.mk Fixtures.hi None None "" (Some "") None VNone false
             (VFloat 15 1) false [] ∅ in
  exists kwargs w' rk cid,
    publish_sends self a Fixtures.world kwargs w'
    /\ kwargs !! "routing_key" = Some (VStr rk)
    /\ kwargs !! "correlation_id" = Some (VStr cid)
    /\ (PublishArgs.correlation_id a = Some "" ->
        gen_cor_id Fixtures.world = (Returned cid, w')
        /\ (uuids Fixtures.world (drawn Fixtures.world) <> "" -> cid <> ""))
    /\ (PublishArgs.routing_key a = "" ->
        (LogicPublisher.routing_key self <> "" ->
         rk = LogicPublisher.routing_key self)
        /\ (LogicPublisher.routing_key self = "" ->
            exists q,
              RabbitQueue_validate
                (LogicPublisher.queue_or (PublishArgs.queue a)
                   (LogicPublisher.queue self)) Fixtures.world
              = (Returned q, Fixtures.world)
              /\ rk = RabbitQueue.routing q)).
Proof.
  refine (proj1 (C10_empty_strings_count_as_absent
                   (Fixtures.publisher "" ∅ [] [])
                   Fixtures.producer Fixtures.world eq_refl _) _ _ _).
  - apply typed_delete, typed_empty.
  - by apply fixture_refs_ok.
  - apply typed_empty.
Defined.

(** That call on the fixture: the generated id and the name of the bound
    queue travel, not the empty strings. *)
Example empty_strings_on_fixture :
  let self := Fixtures.publisher "" ∅ [] [] in
  let a := PublishArgs.mk Fixtures.hi None None "" (Some "") None VNone false
             (VFloat 15 1) false [] ∅ in
  match LogicPublisher.publish_kwargs_dict self a Fixtures.world with
  | (Returned kwargs, w') =>
    kwargs !! "routing_key" = Some (VStr "orders")
    /\ kwargs !! "correlation_id" = Some (VStr "uuid-0")
    /\ drawn w' = 1
  | (Raised _, _) => False
  end.
Proof. vm_compute. repeat split. Qed.

(** ** The connection guard *)

Lemma load_raises (l : loc) w e w' :
  load l w = (Raised e, w') -> e = Exception "no object at this reference".
Proof. unfold load. destruct (heap w !! l); by intros [= <- <-]. Qed.

Lemma resolve_routing_key_raises (self : LogicPublisher.t)
    (queue' : option (string + loc)) (routing_key' : string) w e w' :
  LogicPublisher.resolve_routing_key self queue' routing_key' w = (Raised e, w') ->
  e = Exception "no object at this reference".
Proof.
  unfold LogicPublisher.resolve_routing_key.
  destruct (truthy routing_key'); [discriminate|].
  destruct (truthy (LogicPublisher.routing_key self)); [discriminate|].
  intros H. apply bind_raised_inv in H as [H|(q & w1 & _ & H)]; [|discriminate].
  destruct (LogicPublisher.queue_or queue' (LogicPublisher.queue self)); simpl in H.
  - discriminate.
  - by apply load_raises in H.
Qed.

Lemma resolve_correlation_id_returns (correlation_id : option string) w e w' :
  LogicPublisher.resolve_correlation_id correlation_id w <> (Raised e, w').
Proof.
  unfold LogicPublisher.resolve_correlation_id.
  by destruct (truthy_opt correlation_id).
Qed.

(** Building the keyword arguments raises nothing of its own: the only
    failure is a reference without an object. *)
Lemma publish_kwargs_dict_raises (self : LogicPublisher.t) (a : PublishArgs.t)
    w e w' :
  LogicPublisher.publish_kwargs_dict self a w = (Raised e, w') ->
  e = Exception "no object at this reference".
Proof.
  unfold LogicPublisher.publish_kwargs_dict. intros H.
  apply bind_raised_inv in H as [H|(rk & w1 & _ & H)].
  - by apply resolve_routing_key_raises in H.
  - apply bind_raised_inv in H as [H|(cid & w2 & _ & H)]; [|discriminate].
    by apply resolve_correlation_id_returns in H.
Qed.

Lemma request_kwargs_dict_raises (self : LogicPublisher.t) (a : RequestArgs.t)
    w e w' :
  LogicPublisher.request_kwargs_dict self a w = (Raised e, w') ->
  e = Exception "no object at this reference".
Proof.
  unfold LogicPublisher.request_kwargs_dict. intros H.
  apply bind_raised_inv in H as [H|(rk & w1 & _ & H)].
  - by apply resolve_routing_key_raises in H.
  - apply bind_raised_inv in H as [H|(cid & w2 & _ & H)]; [|discriminate].
    by apply resolve_correlation_id_returns in H.
Qed.

(** C4, as the spec words it, fails: [setup] accepts [producer=None], and
    after such a [setup] both calls still fail with NotConnected. *)
Lemma C4_setup_without_producer_still_fails :
  let self :=
    LogicPublisher.setup (Fixtures.fresh_publisher "" ∅ [] []) None
      (Some "svc") "/" in
  LogicPublisher.publish self (PublishArgs.defaults Fixtures.hi) Fixtures.world
  = (Raised (AssertionError NOT_CONNECTED_YET), Fixtures.world)
  /\ LogicPublisher.request self (RequestArgs.defaults Fixtures.hi) Fixtures.world
     = (Raised (AssertionError NOT_CONNECTED_YET), Fixtures.world).
Proof. split; reflexivity. Qed.

(** C4, amended.  While the producer handle is absent, [publish] and
    [request] fail with NotConnected and touch nothing; this is so on a
    newly constructed publisher and stays so after a [setup] that was given
    no producer, because [setup] stores whatever it is handed.  Once a
    producer is stored the guard passes: a NotConnected failure can then
    only be one that the call chain or, for [request], the scoped block
    raised. *)
Theorem C4_not_connected_guard (self : LogicPublisher.t) :
  (LogicPublisher._producer self = None ->
   (forall a w,
      LogicPublisher.publish self a w
      = (Raised (AssertionError NOT_CONNECTED_YET), w))
   /\ (forall a w,
         LogicPublisher.request self a w
         = (Raised (AssertionError NOT_CONNECTED_YET), w)))
  /\ (forall rk q ex mk bm ms sc ti de inc,
        LogicPublisher._producer
          (LogicPublisher.__init__ rk q ex mk bm ms sc ti de inc) = None)
  /\ (forall producer app_id virtual_host,
        LogicPublisher._producer
          (LogicPublisher.setup self producer app_id virtual_host) = producer)
  /\ (forall producer,
        LogicPublisher._producer self = Some producer ->
        (forall a w w',
           LogicPublisher.publish self a w
           = (Raised (AssertionError NOT_CONNECTED_YET), w') ->
           exists kwargs w1,
             LogicPublisher.publish_kwargs_dict self a w = (Returned kwargs, w1)
             /\ LogicPublisher.wrap_call self (PublishArgs._extra_middlewares a)
                  (AioPikaFastProducer.publish producer)
                  (PublishArgs.message a) kwargs w1
                = (Raised (AssertionError NOT_CONNECTED_YET), w'))
        /\ (forall a w w',
              LogicPublisher.request self a w
              = (Raised (AssertionError NOT_CONNECTED_YET), w') ->
              (exists kwargs w1,
                 LogicPublisher.request_kwargs_dict self a w = (Returned kwargs, w1)
                 /\ LogicPublisher.wrap_call self (RequestArgs._extra_middlewares a)
                      (AioPikaFastProducer.request producer)
                      (RequestArgs.message a) kwargs w1
                    = (Raised (AssertionError NOT_CONNECTED_YET), w'))
              \/ (exists published_msg w1,
                    LogicPublisher.request_call self producer a w
                    = (Returned published_msg, w1)
                    /\ LogicPublisher.scoped_reply self producer published_msg w1
                       = (Raised (AssertionError NOT_CONNECTED_YET), w')))).
Proof.
  split; [|split; [|split]].
  - intros Hp. unfold LogicPublisher.publish, LogicPublisher.request.
    rewrite Hp. by split.
  - reflexivity.
  - reflexivity.
  - intros producer Hp. split; intros a w w' H.
    + unfold LogicPublisher.publish in H. rewrite Hp in H.
      apply bind_raised_inv in H as [H|(kwargs & w1 & Hk & H)]; [|eauto].
      by apply publish_kwargs_dict_raises in H.
    + unfold LogicPublisher.request in H. rewrite Hp in H.
      apply bind_raised_inv in H as [H|(published_msg & w1 & Hc & H)].
      * left. unfold LogicPublisher.request_call in H.
        apply bind_raised_inv in H as [H|(kwargs & w1 & Hk & H)]; [|eauto].
        by apply request_kwargs_dict_raises in H.
      * right. exists published_msg, w1. split; [done|].
        apply bind_raised_inv in H as [H|(result & w2 & Hs & H)]; [done|].
        destruct result; discriminate.
Qed.

(** The amended C4 on a publisher that was never set up. *)
Lemma C4_not_connected_guard_witness :
  LogicPublisher.publish (Fixtures.fresh_publisher "" ∅ [] [])
    (PublishArgs.defaults Fixtures.hi) Fixtures.world
  = (Raised (AssertionError NOT_CONNECTED_YET), Fixtures.world).
Proof.
  exact (proj1 (proj1 (C4_not_connected_guard (Fixtures.fresh_publisher "" ∅ [] []))
                      eq_refl)
               (PublishArgs.defaults Fixtures.hi) Fixtures.world).
Defined.

(** ** The reply of [request] *)

(** The entering loop never raises itself: what an [__aenter__] raises is
    part of its result. *)
Lemma enter_scopes_total (ms : list BrokerMiddleware) (published_msg : Any)
    stack (return_msg : ReturnMsg) w :
  exists entered stack' w',
    LogicPublisher.enter_scopes ms published_msg stack return_msg w
    = (Returned (entered, stack'), w').
Proof.
  revert stack return_msg w.
  induction ms as [|m ms IH]; intros stack return_msg w; simpl.
  - by eexists _, _, _.
  - unfold bind, attempt.
    destruct (BaseMiddleware.__aenter__ (m (Some published_msg)) w) as [[[]|e] w1].
    + apply IH.
    + by eexists _, _, _.
Qed.

(** When every scope was entered, the inbound chain is the consume scopes
    wrapped around [return_msg] in loop order, and the stack holds their
    exit callbacks, the one entered last on top. *)
Lemma enter_scopes_entered (ms : list BrokerMiddleware) (published_msg : Any)
    stack (return_msg chain : ReturnMsg) stack' w w' :
  LogicPublisher.enter_scopes ms published_msg stack return_msg w
  = (Returned (Returned chain, stack'), w') ->
  chain
  = fold_left
      (fun (call : ReturnMsg) (m : BrokerMiddleware) =>
         BaseMiddleware.consume_scope (m (Some published_msg)) call)
      ms return_msg
  /\ stack'
     = (rev (map (fun m : BrokerMiddleware =>
                    BaseMiddleware.__aexit__ (m (Some published_msg))) ms)
        ++ stack)%list.
Proof.
  revert stack return_msg w.
  induction ms as [|m ms IH]; intros stack return_msg w; simpl.
  - by intros [= <- <- <-].
  - unfold bind, attempt.
    destruct (BaseMiddleware.__aenter__ (m (Some published_msg)) w) as [[[]|e] w1].
    + intros H. apply IH in H as [-> ->]. split; [done|].
      by rewrite <- app_assoc.
    + discriminate.
Qed.

(** Whatever the loop did, the stack holds only exit callbacks of the
    middlewares it was given, on top of the stack it started with. *)
Lemma enter_scopes_stack (P : (option exn -> M bool) -> Prop)
    (ms : list BrokerMiddleware) (published_msg : Any)
    stack (return_msg : ReturnMsg) entered stack' w w' :
  (forall m, m ∈ ms -> P (BaseMiddleware.__aexit__ (m (Some published_msg)))) ->
  Forall P stack ->
  LogicPublisher.enter_scopes ms published_msg stack return_msg w
  = (Returned (entered, stack'), w') ->
  Forall P stack'.
Proof.
  revert stack return_msg w.
  induction ms as [|m ms IH]; intros stack return_msg w Hms Hstack; simpl.
  - by intros [= <- <- <-].
  - unfold bind, attempt.
    destruct (BaseMiddleware.__aenter__ (m (Some published_msg)) w) as [[[]|e] w1].
    + apply IH.
      * intros m' Hm'. apply Hms. by right.
      * constructor; [|done]. apply Hms. by left.
    + by intros [= <- <- <-].
Qed.

(** Callbacks that never swallow leave the suppression flag alone. *)
Lemma exit_callbacks_never_swallow (stack : list (option exn -> M bool))
    exc suppressed pending w exc' suppressed' pending' w' :
  Forall never_swallows stack ->
  exit_callbacks stack exc suppressed pending w
  = (Returned (exc', suppressed', pending'), w') ->
  suppressed' = suppressed.
Proof.
  intros Hstack. revert exc pending w.
  induction Hstack as [|cb stack Hcb _ IH]; intros exc pending w; simpl.
  - by intros [= _ <- _ _].
  - destruct (cb exc w) as [[b|e] w1] eqn:Hrun.
    + rewrite (Hcb _ _ _ _ Hrun). apply IH.
    + apply IH.
Qed.

Lemma exit_callbacks_total (stack : list (option exn -> M bool))
    exc suppressed pending w :
  exists final w',
    exit_callbacks stack exc suppressed pending w = (Returned final, w').
Proof.
  revert exc suppressed pending w.
  induction stack as [|cb stack IH]; intros exc suppressed pending w; simpl.
  - by eexists _, _.
  - destruct (cb exc w) as [[[]|e] w1]; apply IH.
Qed.

(** With such callbacks the exit stack never reports a swallowed
    exception. *)
Lemma aexit_never_swallow (stack : list (option exn -> M bool)) exc w b w' :
  Forall never_swallows stack ->
  AsyncExitStack_aexit stack exc w = (Returned b, w') ->
  b = false.
Proof.
  intros Hstack. unfold AsyncExitStack_aexit, bind.
  destruct (exit_callbacks_total stack exc false false w)
    as ([[exc' suppressed'] pending'] & w1 & Hrun).
  rewrite Hrun.
  apply exit_callbacks_never_swallow in Hrun as ->; [|done].
  rewrite andb_false_r.
  destruct pending'; [destruct exc'|]; by intros [= <- _].
Qed.

(** Without a swallowing exit callback among the broker middlewares, the
    scoped block of [request] never ends without returning: the guard
    behind it is out of reach. *)
Lemma scoped_reply_never_falls_through (self : LogicPublisher.t)
    (producer : AioPikaFastProducer.t) (published_msg : Any) w result w' :
  (forall m, m ∈ LogicPublisher._broker_middlewares self ->
     never_swallows (BaseMiddleware.__aexit__ (m (Some published_msg)))) ->
  LogicPublisher.scoped_reply self producer published_msg w = (Returned result, w') ->
  result <> None.
Proof.
  intros Hms. unfold LogicPublisher.scoped_reply.
  destruct (enter_scopes_total (rev (LogicPublisher._broker_middlewares self))
              published_msg [] return_input w) as (entered & stack & w1 & Hent).
  rewrite (bind_returned _ _ _ _ _ Hent). simpl.
  assert (Hstack : Forall never_swallows stack).
  { eapply enter_scopes_stack; [|constructor|exact Hent].
    intros m Hm. apply Hms.
    apply list_elem_of_In, in_rev. by apply list_elem_of_In. }
  unfold bind at 1, attempt.
  destruct (match entered with
            | Returned return_msg =>
              LogicPublisher.parse_reply producer published_msg return_msg
            | Raised e => raise e
            end w1) as [body w2].
  destruct body as [v|e]; simpl.
  - intros H. apply bind_returned_inv in H as (b & w3 & _ & [= <- _]). done.
  - intros H. apply bind_returned_inv in H as (b & w3 & Hexit & H).
    apply aexit_never_swallow in Hexit as ->; [|done]. discriminate.
Qed.

(** Whenever [request] returns, it returns what the inbound chain made of
    the reply that was parsed by the producer's parser, given the body
    decoded by the producer's decoder and tagged as a response; the chain
    is the consume scopes of the broker middlewares around [return_input],
    the one registered first outermost. *)
Lemma request_returned (self : LogicPublisher.t) (a : RequestArgs.t)
    w (v : RabbitMessage.t) w' :
  LogicPublisher.request self a w = (Returned v, w') ->
  exists producer published_msg w1 stack w2 parsed_msg w3 body w4 w5 b,
    LogicPublisher._producer self = Some producer
    /\ LogicPublisher.request_call self producer a w = (Returned published_msg, w1)
    /\ LogicPublisher.enter_scopes
         (rev (LogicPublisher._broker_middlewares self)) published_msg []
         return_input w1
       = (Returned
            (Returned
               (fold_left
                  (fun (call : ReturnMsg) (m : BrokerMiddleware) =>
                     BaseMiddleware.consume_scope (m (Some published_msg)) call)
                  (rev (LogicPublisher._broker_middlewares self)) return_input),
             stack), w2)
    /\ AioPikaFastProducer._parser producer published_msg w2
       = (Returned parsed_msg, w3)
    /\ AioPikaFastProducer._decoder producer parsed_msg w3 = (Returned body, w4)
    /\ fold_left
         (fun (call : ReturnMsg) (m : BrokerMiddleware) =>
            BaseMiddleware.consume_scope (m (Some published_msg)) call)
         (rev (LogicPublisher._broker_middlewares self)) return_input
         (RabbitMessage.set_source_type Response
            (RabbitMessage.set_decoded_body body parsed_msg)) w4
       = (Returned v, w5)
    /\ AsyncExitStack_aexit stack None w5 = (Returned b, w').
Proof.
  unfold LogicPublisher.request.
  destruct (LogicPublisher._producer self) as [producer|]; [|discriminate].
  intros H.
  apply bind_returned_inv in H as (published_msg & w1 & Hcall & H).
  apply bind_returned_inv in H as (result & w6 & Hscoped & H).
  destruct result as [v'|]; [|discriminate]. injection H as -> ->.
  unfold LogicPublisher.scoped_reply in Hscoped.
  apply bind_returned_inv in Hscoped as ([entered stack] & w2 & Hent & H).
  apply bind_returned_inv in H as (body_outcome & w5 & Hbody & Hexit).
  simpl in Hbody, Hexit. unfold attempt in Hbody.
  destruct entered as [chain|e].
  - destruct (LogicPublisher.parse_reply producer published_msg chain w2)
      as [[v'|e] w5'] eqn:Hparse; injection Hbody as <- <-.
    + simpl in Hexit.
      apply bind_returned_inv in Hexit as (b & w7 & Hexit & [= <- <-]).
      destruct (enter_scopes_entered _ _ _ _ _ _ _ _ Hent) as [Hchain _].
      subst chain.
      unfold LogicPublisher.parse_reply in Hparse.
      apply bind_returned_inv in Hparse as (parsed_msg & w3 & Hp & Hparse).
      apply bind_returned_inv in Hparse as (body & w4 & Hd & Hparse).
      by eexists producer, published_msg, w1, stack, w2, parsed_msg, w3, body,
        w4, w5', b.
    + simpl in Hexit.
      apply bind_returned_inv in Hexit as (b & w7 & _ & Hexit).
      by destruct b.
  - unfold raise in Hbody. injection Hbody as <- <-. simpl in Hexit.
    apply bind_returned_inv in Hexit as (b & w7 & _ & Hexit).
    by destruct b.
Qed.

(** C5 at the failing input.  The producer's [request] hands back a raw
    reply, the parser then raises, and the one broker middleware's
    [__aexit__] returns true: the exit stack swallows the exception,
    control leaves the scoped block without returning, and [request] fails
    at the guard that the code labels unreachable. *)
Theorem C5_unreachable_guard_is_reached :
  let self := Fixtures.publisher_swallowing in
  let a := RequestArgs.defaults Fixtures.hi in
  let w1 := set_log ["producer.request"] (set_drawn 1 Fixtures.world) in
  LogicPublisher.request_call self Fixtures.producer_bad_parser a Fixtures.world
  = (Returned (VObject 7), w1)
  /\ LogicPublisher.scoped_reply self Fixtures.producer_bad_parser (VObject 7) w1
     = (Returned None, w1)
  /\ LogicPublisher.request self a Fixtures.world
     = (Raised (AssertionError "unreachable"), w1).
Proof. vm_compute. repeat split. Qed.

(** ** The two tiers of the outbound chain *)

(** C6.  When a call to [publish] or [request] supplies a non-empty
    [_extra_middlewares] list, the chain around the producer's operation is
    built from the publisher-level middlewares and that list alone: no
    broker-level [publish_scope] is wrapped in, whatever the broker-level
    list holds.  When the call supplies none, the publisher-level
    middlewares are followed by the [publish_scope] of every broker-level
    middleware.  The publisher itself is not changed by either call. *)
Theorem C6_extra_middlewares_replace_broker_tier
    (self : LogicPublisher.t) (producer : AioPikaFastProducer.t) :
  LogicPublisher._producer self = Some producer ->
  let wrap := fun (call : AsyncFunc) (m : PublisherMiddleware) => m call in
  let broker_tier :=
    map (fun m : BrokerMiddleware => BaseMiddleware.publish_scope (m None))
        (rev (LogicPublisher._broker_middlewares self)) in
  (forall a : PublishArgs.t,
     (PublishArgs._extra_middlewares a <> [] ->
      LogicPublisher.publish self a
      = let* kwargs := LogicPublisher.publish_kwargs_dict self a in
        fold_left wrap
          (rev (LogicPublisher._middlewares self) ++ PublishArgs._extra_middlewares a)
          (AioPikaFastProducer.publish producer) (PublishArgs.message a) kwargs)
     /\ (PublishArgs._extra_middlewares a = [] ->
         LogicPublisher.publish self a
         = let* kwargs := LogicPublisher.publish_kwargs_dict self a in
           fold_left wrap (rev (LogicPublisher._middlewares self) ++ broker_tier)
             (AioPikaFastProducer.publish producer) (PublishArgs.message a) kwargs))
  /\ (forall a : RequestArgs.t,
        (RequestArgs._extra_middlewares a <> [] ->
         LogicPublisher.request_call self producer a
         = let* kwargs := LogicPublisher.request_kwargs_dict self a in
           fold_left wrap
             (rev (LogicPublisher._middlewares self) ++ RequestArgs._extra_middlewares a)
             (AioPikaFastProducer.request producer) (RequestArgs.message a) kwargs)
        /\ (RequestArgs._extra_middlewares a = [] ->
            LogicPublisher.request_call self producer a
            = let* kwargs := LogicPublisher.request_kwargs_dict self a in
              fold_left wrap (rev (LogicPublisher._middlewares self) ++ broker_tier)
                (AioPikaFastProducer.request producer) (RequestArgs.message a) kwargs)
        /\ LogicPublisher.request self a
           = let* published_msg := LogicPublisher.request_call self producer a in
             let* result := LogicPublisher.scoped_reply self producer published_msg in
             match result with
             | Some parsed_msg => ret parsed_msg
             | None => raise (AssertionError "unreachable")
             end).
Proof.
  intros Hp wrap broker_tier. split; intros a.
  - unfold LogicPublisher.publish, LogicPublisher.wrap_call,
      LogicPublisher.second_tier. rewrite Hp.
    split; intros Hx.
    + by destruct (PublishArgs._extra_middlewares a).
    + by rewrite Hx.
  - unfold LogicPublisher.request, LogicPublisher.request_call,
      LogicPublisher.wrap_call, LogicPublisher.second_tier. rewrite Hp.
    split; [|split]; [intros Hx..|done].
    + by destruct (RequestArgs._extra_middlewares a).
    + by rewrite Hx.
Qed.

(** C6 on a publisher with a broker-level probe K and a publisher-level
    probe A, called with the extra probe X. *)
Lemma C6_extra_middlewares_replace_broker_tier_witness :
  let self := Fixtures.publisher "" ∅ [Fixtures.broker_probe "K"] [Fixtures.probe "A"] in
  let a := PublishArgs.mk Fixtures.hi None None "" None None VNone false
             (VFloat 15 1) false [Fixtures.probe "X"] ∅ in
  LogicPublisher.publish self a
  = let* kwargs := LogicPublisher.publish_kwargs_dict self a in
    fold_left (fun (call : AsyncFunc) (m : PublisherMiddleware) => m call)
      (rev (LogicPublisher._middlewares self) ++ [Fixtures.probe "X"])
      (AioPikaFastProducer.publish Fixtures.producer) Fixtures.hi kwargs.
Proof.
  refine (proj1 (proj1 (C6_extra_middlewares_replace_broker_tier
                          (Fixtures.publisher "" ∅ [Fixtures.broker_probe "K"]
                             [Fixtures.probe "A"])
                          Fixtures.producer eq_refl) _) _).
  discriminate.
Defined.

(** What the logs show on that publisher: with the extra probe the
    broker-level probe stays silent, and on the next call, made without
    extras, it is back. *)
Example extra_middlewares_on_fixture :
  let self := Fixtures.publisher "" ∅ [Fixtures.broker_probe "K"] [Fixtures.probe "A"] in
  let with_extra := PublishArgs.mk Fixtures.hi None None "" None None VNone false
                      (VFloat 15 1) false [Fixtures.probe "X"] ∅ in
  log (LogicPublisher.publish self with_extra Fixtures.world).2
  = ["X"; "A"; "producer.publish"]
  /\ log (LogicPublisher.publish self (PublishArgs.defaults Fixtures.hi)
            (set_log [] (LogicPublisher.publish self with_extra Fixtures.world).2)).2
     = ["K.publish_scope"; "A"; "producer.publish"].
Proof. vm_compute. by split. Qed.

(** With extras supplied, two publishers that differ only in their
    broker-level middlewares publish alike. *)
Lemma publish_ignores_broker_tier rk q ex rep mk app vh producer ms sc ti de inc
    (broker broker' : list BrokerMiddleware) (a : PublishArgs.t) :
  PublishArgs._extra_middlewares a <> [] ->
  LogicPublisher.publish
    (LogicPublisher.mk rk q ex rep mk app vh producer ms broker sc ti de inc) a
  = LogicPublisher.publish
      (LogicPublisher.mk rk q ex rep mk app vh producer ms broker' sc ti de inc) a.
Proof.
  intros Hx. unfold LogicPublisher.publish, LogicPublisher.wrap_call,
    LogicPublisher.second_tier. simpl.
  by destruct (PublishArgs._extra_middlewares a).
Qed.

(** ** Prefixing the bound queue *)

Lemma fresh_not_allocated (w : World) : heap w !! fresh (dom (heap w)) = None.
Proof. apply not_elem_of_dom, is_fresh. Qed.

(** [add_prefix] runs whenever the bound descriptor is allocated: it
    allocates one new object, a copy with the prefixed name, binds the
    publisher to it and leaves every object that was there as it was. *)
Lemma add_prefix_run (self : LogicPublisher.t) (prefix : string) (w : World)
    (q : RabbitQueue.t) :
  heap w !! LogicPublisher.queue self = Some q ->
  let new_q := fresh (dom (heap w)) in
  let copy := RabbitQueue.set_name (prefix ++ RabbitQueue.name q) q in
  LogicPublisher.add_prefix self prefix w
  = (Returned (LogicPublisher.set_queue new_q self),
     set_heap (<[new_q := copy]> (heap w)) w)
  /\ heap w !! new_q = None.
Proof.
  intros Hq new_q copy. split; [|apply fresh_not_allocated].
  unfold LogicPublisher.add_prefix, deepcopy, prefix_name, bind, load.
  rewrite Hq. simpl. fold new_q. rewrite lookup_insert_eq. simpl.
  by rewrite insert_insert_eq.
Qed.

(** C8.  A publisher bound to a destination named "orders", with no
    explicit routing key, resolves its routing to "orders"; after
    [add_prefix("x.")] it resolves it to "x.orders".  The call binds the
    publisher to a new descriptor object and leaves the original one, and
    every other object, unmodified, so that another publisher bound to the
    original descriptor still resolves its routing to "orders". *)
Theorem C8_add_prefix_copies_descriptor
    (self other : LogicPublisher.t) (w : World) (q : RabbitQueue.t) :
  heap w !! LogicPublisher.queue self = Some q ->
  RabbitQueue.name q = "orders" ->
  RabbitQueue.routing_key q = "" ->
  LogicPublisher.routing_key self = "" ->
  LogicPublisher.queue other = LogicPublisher.queue self ->
  LogicPublisher.routing_key other = "" ->
  LogicPublisher.routing self w = (Returned "orders", w)
  /\ exists self' w',
       LogicPublisher.add_prefix self "x." w = (Returned self', w')
       /\ LogicPublisher.routing self' w' = (Returned "x.orders", w')
       /\ LogicPublisher.queue self' <> LogicPublisher.queue self
       /\ heap w' !! LogicPublisher.queue self = Some q
       /\ (forall l, allocated w l -> heap w' !! l = heap w !! l)
       /\ LogicPublisher.routing other w' = (Returned "orders", w').
Proof.
  intros Hq Hname Hkey Hself Hshare Hother.
  assert (Hrouting : RabbitQueue.routing q = "orders").
  { unfold RabbitQueue.routing. by rewrite Hkey, Hname. }
  split.
  { unfold LogicPublisher.routing, bind, load. rewrite Hself. simpl.
    by rewrite Hq, Hrouting. }
  destruct (add_prefix_run self "x." w q Hq) as [Hrun Hnew].
  set (new_q := fresh (dom (heap w))) in *.
  assert (Hne : new_q <> LogicPublisher.queue self) by congruence.
  eexists _, _. split; [exact Hrun|]. split; [|split; [|split; [|split]]].
  - unfold LogicPublisher.routing, bind, load. simpl.
    rewrite Hself. simpl. rewrite lookup_insert_eq.
    unfold RabbitQueue.routing, RabbitQueue.set_name. simpl.
    by rewrite Hkey, Hname.
  - done.
  - simpl. by rewrite lookup_insert_ne.
  - intros l [ql Hl]. simpl. rewrite lookup_insert_ne; [done|congruence].
  - unfold LogicPublisher.routing, bind, load. simpl.
    rewrite Hother, Hshare. simpl. rewrite lookup_insert_ne by done.
    by rewrite Hq, Hrouting.
Qed.

(** C8 on two publishers that share the "orders" descriptor of the
    fixture world. *)
Lemma C8_add_prefix_copies_descriptor_witness :
  let self := Fixtures.publisher "" ∅ [] [] in
  let other := Fixtures.fresh_publisher "" Fixtures.stored_options [] [] in
  LogicPublisher.routing self Fixtures.world = (Returned "orders", Fixtures.world)
  /\ exists self' w',
       LogicPublisher.add_prefix self "x." Fixtures.world = (Returned self', w')
       /\ LogicPublisher.routing self' w' = (Returned "x.orders", w')
       /\ LogicPublisher.queue self' <> LogicPublisher.queue self
       /\ heap w' !! LogicPublisher.queue self = Some (RabbitQueue.of_name "orders")
       /\ (forall l, allocated Fixtures.world l ->
             heap w' !! l = heap Fixtures.world !! l)
       /\ LogicPublisher.routing other w' = (Returned "orders", w').
Proof.
  intros self other.
  apply (C8_add_prefix_copies_descriptor self other Fixtures.world
           (RabbitQueue.of_name "orders")); reflexivity.
Defined.

(** On the fixture world the copy lands at the first free reference. *)
Example add_prefix_on_fixture :
  match LogicPublisher.add_prefix (Fixtures.publisher "" ∅ [] []) "x." Fixtures.world with
  | (Returned self', w') =>
    LogicPublisher.queue self' = 3%positive
    /\ heap w' !! 3%positive = Some (RabbitQueue.mk "x.orders" "")
    /\ heap w' !! Fixtures.orders = Some (RabbitQueue.mk "orders" "")
  | (Raised _, _) => False
  end.
Proof. vm_compute. by repeat split. Qed.

(** ** A publisher without middlewares *)

(** With no middleware of either tier and no extras, the composed call is
    the producer's operation itself: the keyword arguments reach the
    producer as they were built. *)
Lemma wrap_call_bare (self : LogicPublisher.t) (call : AsyncFunc) :
  LogicPublisher._middlewares self = [] ->
  LogicPublisher._broker_middlewares self = [] ->
  LogicPublisher.wrap_call self [] call = call.
Proof.
  intros Hm Hb. unfold LogicPublisher.wrap_call, LogicPublisher.second_tier.
  by rewrite Hm, Hb.
Qed.

(** The spec's end-to-end example: [publish] of "hi" with the routing key
    "orders.created" on a publisher bound to the exchange "events", without
    middlewares, hands the producer that routing key, that exchange and a
    generated correlation id. *)
Example publish_end_to_end :
  let self := Fixtures.publisher "" ∅ [] [] in
  let a := PublishArgs.mk Fixtures.hi None None "orders.created" None None
             VNone false (VFloat 15 1) false [] ∅ in
  match LogicPublisher.publish_kwargs_dict self a Fixtures.world with
  | (Returned kwargs, w') =>
    LogicPublisher.publish self a Fixtures.world
    = AioPikaFastProducer.publish Fixtures.producer Fixtures.hi kwargs w'
    /\ kwargs !! "routing_key" = Some (VStr "orders.created")
    /\ kwargs !! "exchange" = Some (VStr "events")
    /\ kwargs !! "correlation_id" = Some (VStr "uuid-0")
    /\ kwargs !! "app_id" = Some (VStr "svc")
  | (Raised _, _) => False
  end.
Proof. vm_compute. by repeat split. Qed.

(** * Further properties of the two files *)

(** ** The envelope, field by field *)

Ltac not_an_option :=
  unfold PublishKwargs_keys, RequestPublishKwargs_keys;
  rewrite !elem_of_union, !elem_of_singleton;
  let H := fresh in
  intros H; repeat (destruct H as [H|H]); discriminate.

Lemma exchange_not_an_option : "exchange" ∉ PublishKwargs_keys.
Proof. not_an_option. Qed.

Lemma app_id_not_an_option : "app_id" ∉ PublishKwargs_keys.
Proof. not_an_option. Qed.

Lemma message_id_not_an_option : "message_id" ∉ PublishKwargs_keys.
Proof. not_an_option. Qed.

Lemma timestamp_not_an_option : "timestamp" ∉ PublishKwargs_keys.
Proof. not_an_option. Qed.

Lemma rpc_not_an_option : "rpc" ∉ PublishKwargs_keys.
Proof. not_an_option. Qed.

Lemma rpc_timeout_not_an_option : "rpc_timeout" ∉ PublishKwargs_keys.
Proof. not_an_option. Qed.

Lemma raise_timeout_not_an_option : "raise_timeout" ∉ PublishKwargs_keys.
Proof. not_an_option. Qed.

Lemma virtual_host_not_an_option : "virtual_host" ∉ PublishKwargs_keys.
Proof. not_an_option. Qed.

Lemma reply_to_not_a_request_option : "reply_to" ∉ RequestPublishKwargs_keys.
Proof.
  unfold RequestPublishKwargs_keys.
  rewrite !elem_of_union, !elem_of_singleton.
  intros H; repeat (destruct H as [H|H]); discriminate.
Qed.

(** Resolving the routing key, when it returns, leaves the world as it
    was. *)
Lemma resolve_routing_key_world (self : LogicPublisher.t)
    (queue' : option (string + loc)) (routing_key' : string) w rk w1 :
  LogicPublisher.resolve_routing_key self queue' routing_key' w = (Returned rk, w1) ->
  w1 = w.
Proof.
  unfold LogicPublisher.resolve_routing_key.
  destruct (truthy routing_key'); [by intros [= _ <-]|].
  destruct (truthy (LogicPublisher.routing_key self)); [by intros [= _ <-]|].
  intros H. apply bind_returned_inv in H as (q & w2 & Hq & [= _ <-]).
  destruct (LogicPublisher.queue_or queue' (LogicPublisher.queue self)); simpl in Hq.
  - by injection Hq as _ <-.
  - unfold load in Hq. destruct (heap w !! p); by injection Hq as _ <-.
Qed.

(** The dict that [publish] builds, written out. *)
Lemma publish_kwargs_dict_inv (self : LogicPublisher.t) (a : PublishArgs.t)
    w kwargs w' :
  LogicPublisher.publish_kwargs_dict self a w = (Returned kwargs, w') ->
  exists rk cid,
    LogicPublisher.resolve_routing_key self (PublishArgs.queue a)
      (PublishArgs.routing_key a) w = (Returned rk, w)
    /\ LogicPublisher.resolve_correlation_id (PublishArgs.correlation_id a) w
       = (Returned cid, w')
    /\ kwargs
       = unpack
           (unpack
              (list_to_map
                 [ ("routing_key", VStr rk);
                   ("exchange",
                    LogicPublisher.exchange_or (PublishArgs.exchange a)
                      (LogicPublisher.exchange self));
                   ("app_id", of_optional_str (LogicPublisher.app_id self));
                   ("correlation_id", VStr cid);
                   ("message_id", of_optional_str (PublishArgs.message_id a));
                   ("timestamp", PublishArgs.timestamp a);
                   ("rpc", VBool (PublishArgs.rpc a));
                   ("rpc_timeout", PublishArgs.rpc_timeout a);
                   ("raise_timeout", VBool (PublishArgs.raise_timeout a));
                   ("reply_to", LogicPublisher.reply_to self) ])
              (LogicPublisher.message_kwargs self))
           (PublishArgs.publish_kwargs a).
Proof.
  unfold LogicPublisher.publish_kwargs_dict. intros H.
  apply bind_returned_inv in H as (rk & w1 & Hrk & H).
  apply bind_returned_inv in H as (cid & w2 & Hcid & [= <- <-]).
  assert (w1 = w) as -> by (by eapply resolve_routing_key_world).
  by exists rk, cid.
Qed.

(** The dict that [request] builds, written out. *)
Lemma request_kwargs_dict_inv (self : LogicPublisher.t) (a : RequestArgs.t)
    w kwargs w' :
  LogicPublisher.request_kwargs_dict self a w = (Returned kwargs, w') ->
  exists rk cid,
    LogicPublisher.resolve_routing_key self (RequestArgs.queue a)
      (RequestArgs.routing_key a) w = (Returned rk, w)
    /\ LogicPublisher.resolve_correlation_id (RequestArgs.correlation_id a) w
       = (Returned cid, w')
    /\ kwargs
       = unpack
           (unpack
              (list_to_map
                 [ ("routing_key", VStr rk);
                   ("exchange",
                    LogicPublisher.exchange_or (RequestArgs.exchange a)
                      (LogicPublisher.exchange self));
                   ("app_id", of_optional_str (LogicPublisher.app_id self));
                   ("correlation_id", VStr cid);
                   ("message_id", of_optional_str (RequestArgs.message_id a));
                   ("timestamp", RequestArgs.timestamp a) ])
              (LogicPublisher.message_kwargs self))
           (RequestArgs.publish_kwargs a).
Proof.
  unfold LogicPublisher.request_kwargs_dict. intros H.
  apply bind_returned_inv in H as (rk & w1 & Hrk & H).
  apply bind_returned_inv in H as (cid & w2 & Hcid & [= <- <-]).
  assert (w1 = w) as -> by (by eapply resolve_routing_key_world).
  by exists rk, cid.
Qed.

(** When the references are allocated, [publish] and [request] do build
    their dicts. *)
Lemma publish_kwargs_dict_total (self : LogicPublisher.t) (a : PublishArgs.t) w :
  refs_ok w self (PublishArgs.queue a) ->
  exists kwargs w',
    LogicPublisher.publish_kwargs_dict self a w = (Returned kwargs, w').
Proof.
  intros Hrefs.
  destruct (publish_kwargs_dict_run self a w Hrefs)
    as (rk & cid & w' & layer & _ & _ & _ & _ & Hrun).
  eauto.
Qed.

Lemma request_kwargs_dict_total (self : LogicPublisher.t) (a : RequestArgs.t) w :
  refs_ok w self (RequestArgs.queue a) ->
  exists kwargs w',
    LogicPublisher.request_kwargs_dict self a w = (Returned kwargs, w').
Proof.
  intros Hrefs.
  destruct (request_kwargs_dict_run self a w Hrefs)
    as (rk & cid & w' & layer & _ & _ & _ & _ & Hrun).
  eauto.
Qed.

(** The three ways an exchange can be passed to a call. *)
Lemma exchange_or_cases (exchange' : option (string + RabbitExchange.t))
    (bound : RabbitExchange.t) :
  (forall n, exchange' = Some (inl n) -> n <> "" ->
     LogicPublisher.exchange_or exchange' bound = VStr n)
  /\ (forall e, exchange' = Some (inr e) ->
        LogicPublisher.exchange_or exchange' bound = VExchange e)
  /\ (exchange' = None \/ exchange' = Some (inl "") ->
      LogicPublisher.exchange_or exchange' bound = VStr (RabbitExchange.name bound)).
Proof.
  split; [|split].
  - intros n -> Hn. simpl. by apply truthy_true in Hn as ->.
  - by intros e ->.
  - by intros [-> | ->].
Qed.

(** X1.  The exchange of the keyword arguments of [publish] and [request]:
    a non-empty exchange name passed to the call is forwarded as that name,
    an exchange object passed to the call is forwarded as the object
    itself, and with no exchange or an empty name the call forwards the
    name of the publisher's bound exchange. *)
Theorem exchange_override_wins
    (self : LogicPublisher.t) (producer : AioPikaFastProducer.t) (w : World) :
  LogicPublisher._producer self = Some producer ->
  typed PublishKwargs_keys (LogicPublisher.message_kwargs self) ->
  (forall a : PublishArgs.t,
     refs_ok w self (PublishArgs.queue a) ->
     typed PublishKwargs_keys (PublishArgs.publish_kwargs a) ->
     exists kwargs w',
       publish_sends self a w kwargs w'
       /\ (forall n, PublishArgs.exchange a = Some (inl n) -> n <> "" ->
             kwargs !! "exchange" = Some (VStr n))
       /\ (forall e, PublishArgs.exchange a = Some (inr e) ->
             kwargs !! "exchange" = Some (VExchange e))
       /\ (PublishArgs.exchange a = None \/ PublishArgs.exchange a = Some (inl "") ->
           kwargs !! "exchange"
           = Some (VStr (RabbitExchange.name (LogicPublisher.exchange self)))))
  /\ (forall a : RequestArgs.t,
        refs_ok w self (RequestArgs.queue a) ->
        typed PublishKwargs_keys (RequestArgs.publish_kwargs a) ->
        exists kwargs w',
          request_sends self a w kwargs w'
          /\ (forall n, RequestArgs.exchange a = Some (inl n) -> n <> "" ->
                kwargs !! "exchange" = Some (VStr n))
          /\ (forall e, RequestArgs.exchange a = Some (inr e) ->
                kwargs !! "exchange" = Some (VExchange e))
          /\ (RequestArgs.exchange a = None \/ RequestArgs.exchange a = Some (inl "") ->
              kwargs !! "exchange"
              = Some (VStr (RabbitExchange.name (LogicPublisher.exchange self))))).
Proof.
  intros Hp Hstored. split; intros a Hrefs Hcall.
  - destruct (publish_kwargs_dict_total self a w Hrefs) as (kwargs & w' & Hrun).
    exists kwargs, w'. split; [by eapply publish_sends_intro|].
    destruct (publish_kwargs_dict_inv _ _ _ _ _ Hrun) as (rk & cid & _ & _ & ->).
    rewrite (unpack_typed_lookup PublishKwargs_keys);
      auto using exchange_not_an_option.
    change (list_to_map _ !! "exchange") with
      (Some (LogicPublisher.exchange_or (PublishArgs.exchange a)
               (LogicPublisher.exchange self))).
    destruct (exchange_or_cases (PublishArgs.exchange a) (LogicPublisher.exchange self))
      as (H1 & H2 & H3).
    split; [|split].
    + intros n Hn Hne. by rewrite (H1 n).
    + intros e He. by rewrite (H2 e).
    + intros H. by rewrite H3.
  - destruct (request_kwargs_dict_total self a w Hrefs) as (kwargs & w' & Hrun).
    exists kwargs, w'. split; [by eapply request_sends_intro|].
    destruct (request_kwargs_dict_inv _ _ _ _ _ Hrun) as (rk & cid & _ & _ & ->).
    rewrite (unpack_typed_lookup PublishKwargs_keys);
      auto using exchange_not_an_option.
    change (list_to_map _ !! "exchange") with
      (Some (LogicPublisher.exchange_or (RequestArgs.exchange a)
               (LogicPublisher.exchange self))).
    destruct (exchange_or_cases (RequestArgs.exchange a) (LogicPublisher.exchange self))
      as (H1 & H2 & H3).
    split; [|split].
    + intros n Hn Hne. by rewrite (H1 n).
    + intros e He. by rewrite (H2 e).
    + intros H. by rewrite H3.
Qed.

(** X1 on a call that names the exchange "audit-log". *)
Lemma exchange_override_wins_witness :
  let self := Fixtures.publisher "" ∅ [] [] in
  let a := PublishArgs.mk Fixtures.hi None (Some (inl "audit-log")) "" None None
             VNone false (VFloat 15 1) false [] ∅ in
  exists kwargs w',
    publish_sends self a Fixtures.world kwargs w'
    /\ (forall n, PublishArgs.exchange a = Some (inl n) -> n <> "" ->
          kwargs !! "exchange" = Some (VStr n))
    /\ (forall e, PublishArgs.exchange a = Some (inr e) ->
          kwargs !! "exchange" = Some (VExchange e))
    /\ (PublishArgs.exchange a = None \/ PublishArgs.exchange a = Some (inl "") ->
        kwargs !! "exchange"
        = Some (VStr (RabbitExchange.name (LogicPublisher.exchange self)))).
Proof.
  refine (proj1 (exchange_override_wins (Fixtures.publisher "" ∅ [] [])
                   Fixtures.producer Fixtures.world eq_refl _) _ _ _).
  - apply typed_delete, typed_empty.
  - by apply fixture_refs_ok.
  - apply typed_empty.
Defined.

(** X2.  [publish] forwards the caller's message id, timestamp and the
    three deprecated RPC arguments as it got them: a message id that was
    not given travels as [None] (none is generated here), and [rpc],
    [rpc_timeout] and [raise_timeout] reach the call chain unchanged. *)
Theorem publish_forwards_call_arguments
    (self : LogicPublisher.t) (producer : AioPikaFastProducer.t) (w : World)
    (a : PublishArgs.t) :
  LogicPublisher._producer self = Some producer ->
  typed PublishKwargs_keys (LogicPublisher.message_kwargs self) ->
  refs_ok w self (PublishArgs.queue a) ->
  typed PublishKwargs_keys (PublishArgs.publish_kwargs a) ->
  exists kwargs w',
    publish_sends self a w kwargs w'
    /\ kwargs !! "message_id" = Some (of_optional_str (PublishArgs.message_id a))
    /\ kwargs !! "timestamp" = Some (PublishArgs.timestamp a)
    /\ kwargs !! "rpc" = Some (VBool (PublishArgs.rpc a))
    /\ kwargs !! "rpc_timeout" = Some (PublishArgs.rpc_timeout a)
    /\ kwargs !! "raise_timeout" = Some (VBool (PublishArgs.raise_timeout a)).
Proof.
  intros Hp Hstored Hrefs Hcall.
  destruct (publish_kwargs_dict_total self a w Hrefs) as (kwargs & w' & Hrun).
  exists kwargs, w'. split; [by eapply publish_sends_intro|].
  destruct (publish_kwargs_dict_inv _ _ _ _ _ Hrun) as (rk & cid & _ & _ & ->).
  rewrite !(unpack_typed_lookup PublishKwargs_keys)
    by auto using message_id_not_an_option, timestamp_not_an_option,
         rpc_not_an_option, rpc_timeout_not_an_option,
         raise_timeout_not_an_option.
  by repeat split.
Qed.

(** X2 on a call with the deprecated arguments set. *)
Lemma publish_forwards_call_arguments_witness :
  let self := Fixtures.publisher "" ∅ [] [] in
  let a := PublishArgs.mk Fixtures.hi None None "" None None (VObject 5) true
             (VFloat 5 0) true [] ∅ in
  exists kwargs w',
    publish_sends self a Fixtures.world kwargs w'
    /\ kwargs !! "message_id" = Some VNone
    /\ kwargs !! "timestamp" = Some (VObject 5)
    /\ kwargs !! "rpc" = Some (VBool true)
    /\ kwargs !! "rpc_timeout" = Some (VFloat 5 0)
    /\ kwargs !! "raise_timeout" = Some (VBool true).
Proof.
  refine (publish_forwards_call_arguments (Fixtures.publisher "" ∅ [] [])
            Fixtures.producer Fixtures.world
            (PublishArgs.mk Fixtures.hi None None "" None None (VObject 5) true
               (VFloat 5 0) true [] ∅) eq_refl _ _ _).
  - apply typed_delete, typed_empty.
  - by apply fixture_refs_ok.
  - apply typed_empty.
Defined.

(** X3.  [request] forwards the caller's message id and timestamp, and
    never the deprecated RPC arguments nor a reply-to: with request options
    stored and passed, its keyword arguments hold no "rpc", "rpc_timeout",
    "raise_timeout" or "reply_to" entry. *)
Theorem request_carries_no_rpc_arguments
    (self : LogicPublisher.t) (producer : AioPikaFastProducer.t) (w : World)
    (a : RequestArgs.t) :
  LogicPublisher._producer self = Some producer ->
  typed RequestPublishKwargs_keys (LogicPublisher.message_kwargs self) ->
  refs_ok w self (RequestArgs.queue a) ->
  typed RequestPublishKwargs_keys (RequestArgs.publish_kwargs a) ->
  exists kwargs w',
    request_sends self a w kwargs w'
    /\ kwargs !! "message_id" = Some (of_optional_str (RequestArgs.message_id a))
    /\ kwargs !! "timestamp" = Some (RequestArgs.timestamp a)
    /\ kwargs !! "rpc" = None
    /\ kwargs !! "rpc_timeout" = None
    /\ kwargs !! "raise_timeout" = None
    /\ kwargs !! "reply_to" = None.
Proof.
  intros Hp Hstored Hrefs Hcall.
  destruct (request_kwargs_dict_total self a w Hrefs) as (kwargs & w' & Hrun).
  exists kwargs, w'. split; [by eapply request_sends_intro|].
  destruct (request_kwargs_dict_inv _ _ _ _ _ Hrun) as (rk & cid & _ & _ & ->).
  rewrite (unpack_typed_lookup RequestPublishKwargs_keys _ _ _ "reply_to")
    by auto using reply_to_not_a_request_option.
  apply typed_request_kwargs in Hstored, Hcall.
  rewrite !(unpack_typed_lookup PublishKwargs_keys)
    by auto using message_id_not_an_option, timestamp_not_an_option,
         rpc_not_an_option, rpc_timeout_not_an_option,
         raise_timeout_not_an_option.
  by repeat split.
Qed.

(** X3 on a publisher constructed with a reply-to. *)
Lemma request_carries_no_rpc_arguments_witness :
  let self := Fixtures.publisher "" {[ "reply_to" := VStr "replies" ]} [] [] in
  let a := RequestArgs.defaults Fixtures.hi in
  exists kwargs w',
    request_sends self a Fixtures.world kwargs w'
    /\ kwargs !! "message_id" = Some VNone
    /\ kwargs !! "timestamp" = Some VNone
    /\ kwargs !! "rpc" = None
    /\ kwargs !! "rpc_timeout" = None
    /\ kwargs !! "raise_timeout" = None
    /\ kwargs !! "reply_to" = None.
Proof.
  refine (request_carries_no_rpc_arguments
            (Fixtures.publisher "" {[ "reply_to" := VStr "replies" ]} [] [])
            Fixtures.producer Fixtures.world (RequestArgs.defaults Fixtures.hi)
            eq_refl _ _ _).
  - apply init_typed. unfold typed, PublishKwargs_keys.
    rewrite dom_singleton_L. apply union_subseteq_r.
  - by apply fixture_refs_ok.
  - apply typed_empty.
Defined.

(** X4.  What the constructor and [setup] were given reaches [publish]: the
    keyword arguments carry the application id of the last [setup], and as
    "reply_to" the per-call value when the call passes one, else the
    "reply_to" the publisher was constructed with, else [None]. *)
Theorem publish_carries_setup_and_reply_to
    (rk : string) (q : loc) (ex : RabbitExchange.t) (message_kwargs : AnyDict)
    (bm : list BrokerMiddleware) (ms : list PublisherMiddleware)
    (sc : Any) (ti de : option string) (inc : bool)
    (producer : AioPikaFastProducer.t) (app_id : option string)
    (virtual_host : string) (w : World) (a : PublishArgs.t) :
  let self :=
    LogicPublisher.setup
      (LogicPublisher.__init__ rk q ex message_kwargs bm ms sc ti de inc)
      (Some producer) app_id virtual_host in
  typed PublishKwargs_keys message_kwargs ->
  refs_ok w self (PublishArgs.queue a) ->
  typed PublishKwargs_keys (PublishArgs.publish_kwargs a) ->
  exists kwargs w',
    publish_sends self a w kwargs w'
    /\ kwargs !! "app_id" = Some (of_optional_str app_id)
    /\ kwargs !! "virtual_host" = None
    /\ kwargs !! "reply_to"
       = Some match PublishArgs.publish_kwargs a !! "reply_to" with
              | Some v => v
              | None => default VNone (message_kwargs !! "reply_to")
              end.
Proof.
  intros self Hmk Hrefs Hcall.
  assert (Hstored : typed PublishKwargs_keys (LogicPublisher.message_kwargs self)).
  { apply typed_request_kwargs. by apply init_typed. }
  destruct (publish_kwargs_dict_total self a w Hrefs) as (kwargs & w' & Hrun).
  exists kwargs, w'. split; [by eapply publish_sends_intro|].
  destruct (publish_kwargs_dict_inv _ _ _ _ _ Hrun) as (rk' & cid & _ & _ & ->).
  rewrite !(unpack_typed_lookup PublishKwargs_keys)
    by auto using app_id_not_an_option, virtual_host_not_an_option.
  split; [done|]. split; [done|].
  rewrite !unpack_lookup. simpl. rewrite lookup_delete_eq.
  by destruct (PublishArgs.publish_kwargs a !! "reply_to").
Qed.

(** X4 on a publisher constructed with the reply-to "replies" and set up
    for the application "svc". *)
Lemma publish_carries_setup_and_reply_to_witness :
  let self := Fixtures.publisher "" {[ "reply_to" := VStr "replies" ]} [] [] in
  let a := PublishArgs.defaults Fixtures.hi in
  exists kwargs w',
    publish_sends self a Fixtures.world kwargs w'
    /\ kwargs !! "app_id" = Some (VStr "svc")
    /\ kwargs !! "virtual_host" = None
    /\ kwargs !! "reply_to" = Some (VStr "replies").
Proof.
  refine (publish_carries_setup_and_reply_to "" Fixtures.orders Fixtures.events
            {[ "reply_to" := VStr "replies" ]} [] [] VNone None None true
            Fixtures.producer (Some "svc") "/" Fixtures.world
            (PublishArgs.defaults Fixtures.hi) _ _ _).
  - unfold typed, PublishKwargs_keys.
    rewrite dom_singleton_L. apply union_subseteq_r.
  - by apply fixture_refs_ok.
  - apply typed_empty.
Defined.

Lemma unpack_dom (d later : AnyDict) : dom (unpack d later) = dom later ∪ dom d.
Proof. unfold unpack. apply dom_union_L. Qed.

(** X5.  The keys of the keyword arguments are the fixed ones of the call
    together with the keys of the stored and of the per-call options, and no
    others: ten fixed keys for [publish], six for [request]. *)
Theorem kwargs_keys
    (self : LogicPublisher.t) (producer : AioPikaFastProducer.t) (w : World) :
  LogicPublisher._producer self = Some producer ->
  (forall a : PublishArgs.t,
     refs_ok w self (PublishArgs.queue a) ->
     exists kwargs w',
       publish_sends self a w kwargs w'
       /\ dom kwargs
          = list_to_set
              [ "routing_key"; "exchange"; "app_id"; "correlation_id";
                "message_id"; "timestamp"; "rpc"; "rpc_timeout";
                "raise_timeout"; "reply_to" ]
            ∪ dom (LogicPublisher.message_kwargs self)
            ∪ dom (PublishArgs.publish_kwargs a))
  /\ (forall a : RequestArgs.t,
        refs_ok w self (RequestArgs.queue a) ->
        exists kwargs w',
          request_sends self a w kwargs w'
          /\ dom kwargs
             = list_to_set
                 [ "routing_key"; "exchange"; "app_id"; "correlation_id";
                   "message_id"; "timestamp" ]
               ∪ dom (LogicPublisher.message_kwargs self)
               ∪ dom (RequestArgs.publish_kwargs a)).
Proof.
  intros Hp. split; intros a Hrefs.
  - destruct (publish_kwargs_dict_total self a w Hrefs) as (kwargs & w' & Hrun).
    exists kwargs, w'. split; [by eapply publish_sends_intro|].
    destruct (publish_kwargs_dict_inv _ _ _ _ _ Hrun) as (rk & cid & _ & _ & ->).
    rewrite !unpack_dom, dom_list_to_map_L. simpl.
    rewrite (comm_L (∪) (dom (PublishArgs.publish_kwargs a))).
    by rewrite (comm_L (∪) (dom (LogicPublisher.message_kwargs self))).
  - destruct (request_kwargs_dict_total self a w Hrefs) as (kwargs & w' & Hrun).
    exists kwargs, w'. split; [by eapply request_sends_intro|].
    destruct (request_kwargs_dict_inv _ _ _ _ _ Hrun) as (rk & cid & _ & _ & ->).
    rewrite !unpack_dom, dom_list_to_map_L. simpl.
    rewrite (comm_L (∪) (dom (RequestArgs.publish_kwargs a))).
    by rewrite (comm_L (∪) (dom (LogicPublisher.message_kwargs self))).
Qed.

(** X5 on a publisher that stores two options, called with one. *)
Lemma kwargs_keys_witness :
  let self := Fixtures.publisher "" Fixtures.stored_options [] [] in
  let a := PublishArgs.mk Fixtures.hi None None "" None None VNone false
             (VFloat 15 1) false [] Fixtures.call_options in
  exists kwargs w',
    publish_sends self a Fixtures.world kwargs w'
    /\ dom kwargs
       = list_to_set
           [ "routing_key"; "exchange"; "app_id"; "correlation_id";
             "message_id"; "timestamp"; "rpc"; "rpc_timeout";
             "raise_timeout"; "reply_to" ]
         ∪ dom (LogicPublisher.message_kwargs self)
         ∪ dom Fixtures.call_options.
Proof.
  refine (proj1 (kwargs_keys (Fixtures.publisher "" Fixtures.stored_options [] [])
                   Fixtures.producer Fixtures.world eq_refl) _ _).
  by apply fixture_refs_ok.
Defined.

(** X6.  The [routing] property is the routing key of a call that overrides
    nothing: it is the publisher's routing key when that is non-empty and
    the routing of the bound descriptor otherwise, and a [publish] or
    [request] with no routing key and no queue of its own carries exactly
    that value. *)
Theorem routing_property_is_the_default_routing_key
    (self : LogicPublisher.t) (producer : AioPikaFastProducer.t) (w : World) :
  LogicPublisher._producer self = Some producer ->
  typed PublishKwargs_keys (LogicPublisher.message_kwargs self) ->
  allocated w (LogicPublisher.queue self) ->
  exists r,
    LogicPublisher.routing self w = (Returned r, w)
    /\ (LogicPublisher.routing_key self <> "" -> r = LogicPublisher.routing_key self)
    /\ (LogicPublisher.routing_key self = "" ->
        forall q, heap w !! LogicPublisher.queue self = Some q ->
          r = RabbitQueue.routing q)
    /\ (forall a : PublishArgs.t,
          PublishArgs.routing_key a = "" ->
          PublishArgs.queue a = None \/ PublishArgs.queue a = Some (inl "") ->
          typed PublishKwargs_keys (PublishArgs.publish_kwargs a) ->
          exists kwargs w',
            publish_sends self a w kwargs w'
            /\ kwargs !! "routing_key" = Some (VStr r))
    /\ (forall a : RequestArgs.t,
          RequestArgs.routing_key a = "" ->
          RequestArgs.queue a = None \/ RequestArgs.queue a = Some (inl "") ->
          typed PublishKwargs_keys (RequestArgs.publish_kwargs a) ->
          exists kwargs w',
            request_sends self a w kwargs w'
            /\ kwargs !! "routing_key" = Some (VStr r)).
Proof.
  intros Hp Hstored Hbound.
  destruct (load_allocated _ _ Hbound) as (qb & Hqb & Hload).
  assert (Hdefault : forall queue',
    queue' = None \/ queue' = Some (inl "") ->
    refs_ok w self queue'
    /\ LogicPublisher.resolve_routing_key self queue' "" w
       = LogicPublisher.routing self w).
  { intros queue' Hq. split.
    - split; [done|]. intros l Hl. destruct Hq as [-> | ->]; discriminate.
    - unfold LogicPublisher.resolve_routing_key, LogicPublisher.routing. simpl.
      by destruct Hq as [-> | ->]. }
  assert (Hr : exists r,
    LogicPublisher.routing self w = (Returned r, w)
    /\ (LogicPublisher.routing_key self <> "" -> r = LogicPublisher.routing_key self)
    /\ (LogicPublisher.routing_key self = "" ->
        forall q, heap w !! LogicPublisher.queue self = Some q ->
          r = RabbitQueue.routing q)).
  { unfold LogicPublisher.routing.
    destruct (truthy (LogicPublisher.routing_key self)) eqn:Hk.
    - apply truthy_true in Hk. exists (LogicPublisher.routing_key self).
      by repeat split.
    - apply truthy_false in Hk. exists (RabbitQueue.routing qb).
      rewrite (bind_returned _ _ _ _ _ Hload).
      split; [done|]. split; [done|]. intros _ q. rewrite Hqb. by intros [= <-]. }
  destruct Hr as (r & Hrun & Hkey & Hderived).
  exists r. split; [done|]. split; [done|]. split; [done|].
  split; intros a Hrk Hq Hcall; destruct (Hdefault _ Hq) as [Hrefs Hsame].
  - destruct (publish_kwargs_dict_total self a w Hrefs) as (kwargs & w' & Hk).
    exists kwargs, w'. split; [by eapply publish_sends_intro|].
    destruct (publish_kwargs_dict_inv _ _ _ _ _ Hk) as (rk & cid & Hres & _ & ->).
    rewrite (unpack_typed_lookup PublishKwargs_keys)
      by auto using routing_key_not_an_option.
    rewrite Hrk, Hsame, Hrun in Hres. by injection Hres as <-.
  - destruct (request_kwargs_dict_total self a w Hrefs) as (kwargs & w' & Hk).
    exists kwargs, w'. split; [by eapply request_sends_intro|].
    destruct (request_kwargs_dict_inv _ _ _ _ _ Hk) as (rk & cid & Hres & _ & ->).
    rewrite (unpack_typed_lookup PublishKwargs_keys)
      by auto using routing_key_not_an_option.
    rewrite Hrk, Hsame, Hrun in Hres. by injection Hres as <-.
Qed.

(** X6 on the publisher bound to "orders". *)
Lemma routing_property_is_the_default_routing_key_witness :
  let self := Fixtures.publisher "" ∅ [] [] in
  exists r,
    LogicPublisher.routing self Fixtures.world = (Returned r, Fixtures.world)
    /\ (LogicPublisher.routing_key self <> "" -> r = LogicPublisher.routing_key self)
    /\ (LogicPublisher.routing_key self = "" ->
        forall q, heap Fixtures.world !! LogicPublisher.queue self = Some q ->
          r = RabbitQueue.routing q)
    /\ (forall a : PublishArgs.t,
          PublishArgs.routing_key a = "" ->
          PublishArgs.queue a = None \/ PublishArgs.queue a = Some (inl "") ->
          typed PublishKwargs_keys (PublishArgs.publish_kwargs a) ->
          exists kwargs w',
            publish_sends self a Fixtures.world kwargs w'
            /\ kwargs !! "routing_key" = Some (VStr r))
    /\ (forall a : RequestArgs.t,
          RequestArgs.routing_key a = "" ->
          RequestArgs.queue a = None \/ RequestArgs.queue a = Some (inl "") ->
          typed PublishKwargs_keys (RequestArgs.publish_kwargs a) ->
          exists kwargs w',
            request_sends self a Fixtures.world kwargs w'
            /\ kwargs !! "routing_key" = Some (VStr r)).
Proof.
  refine (routing_property_is_the_default_routing_key
            (Fixtures.publisher "" ∅ [] []) Fixtures.producer Fixtures.world
            eq_refl _ _).
  - apply typed_delete, typed_empty.
  - by eexists.
Defined.

Lemma resolve_routing_key_raises_world (self : LogicPublisher.t)
    (queue' : option (string + loc)) (routing_key' : string) w e w' :
  LogicPublisher.resolve_routing_key self queue' routing_key' w = (Raised e, w') ->
  w' = w.
Proof.
  unfold LogicPublisher.resolve_routing_key.
  destruct (truthy routing_key'); [discriminate|].
  destruct (truthy (LogicPublisher.routing_key self)); [discriminate|].
  intros H. apply bind_raised_inv in H as [H|(q & w1 & _ & H)]; [|discriminate].
  destruct (LogicPublisher.queue_or queue' (LogicPublisher.queue self)); simpl in H.
  - discriminate.
  - unfold load in H. destruct (heap w !! p); by injection H as _ <-.
Qed.

(** Resolving the correlation id touches nothing but the draw counter. *)
Lemma resolve_correlation_id_world (correlation_id : option string) w cid w' :
  LogicPublisher.resolve_correlation_id correlation_id w = (Returned cid, w') ->
  heap w' = heap w /\ log w' = log w /\ uuids w' = uuids w
  /\ drawn w' = (if truthy_opt correlation_id then drawn w else S (drawn w))
  /\ (truthy_opt correlation_id = false -> cid = uuids w (drawn w)).
Proof.
  unfold LogicPublisher.resolve_correlation_id.
  destruct (truthy_opt correlation_id).
  - by intros [= _ <-].
  - by intros [= <- <-].
Qed.

(** X8.  Building the keyword arguments has no side effect but the draw of
    an id: the object store, the log and the generator's ids are left as
    they were, an id is drawn exactly when the caller supplied none (or an
    empty one), and a call that fails at this stage changes nothing. *)
Theorem building_kwargs_only_draws_an_id (self : LogicPublisher.t) (w : World) :
  (forall a : PublishArgs.t,
     match LogicPublisher.publish_kwargs_dict self a w with
     | (Returned _, w') =>
       heap w' = heap w /\ log w' = log w /\ uuids w' = uuids w
       /\ drawn w' = (if truthy_opt (PublishArgs.correlation_id a)
                      then drawn w else S (drawn w))
     | (Raised _, w') => w' = w
     end)
  /\ (forall a : RequestArgs.t,
        match LogicPublisher.request_kwargs_dict self a w with
        | (Returned _, w') =>
          heap w' = heap w /\ log w' = log w /\ uuids w' = uuids w
          /\ drawn w' = (if truthy_opt (RequestArgs.correlation_id a)
                         then drawn w else S (drawn w))
        | (Raised _, w') => w' = w
        end).
Proof.
  split; intros a.
  - destruct (LogicPublisher.publish_kwargs_dict self a w) as [[kwargs|e] w'] eqn:H.
    + destruct (publish_kwargs_dict_inv _ _ _ _ _ H) as (rk & cid & _ & Hcid & _).
      apply resolve_correlation_id_world in Hcid. tauto.
    + unfold LogicPublisher.publish_kwargs_dict in H.
      apply bind_raised_inv in H as [H|(rk & w1 & _ & H)].
      * by apply resolve_routing_key_raises_world in H.
      * apply bind_raised_inv in H as [H|(cid & w2 & _ & H)]; [|discriminate].
        by apply resolve_correlation_id_returns in H.
  - destruct (LogicPublisher.request_kwargs_dict self a w) as [[kwargs|e] w'] eqn:H.
    + destruct (request_kwargs_dict_inv _ _ _ _ _ H) as (rk & cid & _ & Hcid & _).
      apply resolve_correlation_id_world in Hcid. tauto.
    + unfold LogicPublisher.request_kwargs_dict in H.
      apply bind_raised_inv in H as [H|(rk & w1 & _ & H)].
      * by apply resolve_routing_key_raises_world in H.
      * apply bind_raised_inv in H as [H|(cid & w2 & _ & H)]; [|discriminate].
        by apply resolve_correlation_id_returns in H.
Qed.

Lemma strokes_length (n : nat) : String.length (MoreFixtures.strokes n) = n.
Proof.
  induction n as [|n IH]; [done|].
  change (S (String.length (MoreFixtures.strokes n)) = S n). by rewrite IH.
Qed.

Lemma fixture_ids_never_repeat (i j : nat) :
  uuids MoreFixtures.world i = uuids MoreFixtures.world j -> i = j.
Proof.
  simpl. intros H. apply (inj (String.app "uuid-")) in H.
  apply (f_equal String.length) in H. by rewrite !strokes_length in H.
Qed.

(** A [publish] that leaves the correlation id to the publisher sends the
    generator's next id and advances the generator by one. *)
Lemma publish_draws_an_id (self : LogicPublisher.t)
    (producer : AioPikaFastProducer.t) (a : PublishArgs.t) (w : World) :
  LogicPublisher._producer self = Some producer ->
  typed PublishKwargs_keys (LogicPublisher.message_kwargs self) ->
  refs_ok w self (PublishArgs.queue a) ->
  typed PublishKwargs_keys (PublishArgs.publish_kwargs a) ->
  truthy_opt (PublishArgs.correlation_id a) = false ->
  exists kwargs w',
    publish_sends self a w kwargs w'
    /\ kwargs !! "correlation_id" = Some (VStr (uuids w (drawn w)))
    /\ uuids w' = uuids w
    /\ drawn w' = S (drawn w).
Proof.
  intros Hp Hstored Hrefs Hcall Ho.
  destruct (publish_kwargs_dict_run self a w Hrefs)
    as (rk & cid & w' & layer & _ & Hcid & _ & Hl & Hrun).
  apply resolve_correlation_id_world in Hcid as (_ & _ & Hu & Hd & Hc).
  rewrite Ho in Hd. rewrite (Hc Ho) in Hl.
  eexists _, w'. split; [by eapply publish_sends_intro|]. split; [|done].
  rewrite (unpack_typed_lookup PublishKwargs_keys);
    auto using correlation_id_not_an_option.
Qed.

(** The same for [request]. *)
Lemma request_draws_an_id (self : LogicPublisher.t)
    (producer : AioPikaFastProducer.t) (a : RequestArgs.t) (w : World) :
  LogicPublisher._producer self = Some producer ->
  typed PublishKwargs_keys (LogicPublisher.message_kwargs self) ->
  refs_ok w self (RequestArgs.queue a) ->
  typed PublishKwargs_keys (RequestArgs.publish_kwargs a) ->
  truthy_opt (RequestArgs.correlation_id a) = false ->
  exists kwargs w',
    request_sends self a w kwargs w'
    /\ kwargs !! "correlation_id" = Some (VStr (uuids w (drawn w)))
    /\ uuids w' = uuids w
    /\ drawn w' = S (drawn w).
Proof.
  intros Hp Hstored Hrefs Hcall Ho.
  destruct (request_kwargs_dict_run self a w Hrefs)
    as (rk & cid & w' & layer & _ & Hcid & _ & Hl & Hrun).
  apply resolve_correlation_id_world in Hcid as (_ & _ & Hu & Hd & Hc).
  rewrite Ho in Hd. rewrite (Hc Ho) in Hl.
  eexists _, w'. split; [by eapply request_sends_intro|]. split; [|done].
  rewrite (unpack_typed_lookup PublishKwargs_keys);
    auto using correlation_id_not_an_option.
Qed.

(** An id drawn after the generator advanced differs from the one it
    advanced over, when the generator never repeats itself. *)
Lemma later_id_differs (w w1 w2 : World) (kwargs1 kwargs2 : AnyDict) :
  (forall i j, uuids w i = uuids w j -> i = j) ->
  uuids w1 = uuids w ->
  drawn w1 = S (drawn w) ->
  generator_not_rewound w1 w2 ->
  kwargs1 !! "correlation_id" = Some (VStr (uuids w (drawn w))) ->
  kwargs2 !! "correlation_id" = Some (VStr (uuids w2 (drawn w2))) ->
  distinct_correlation_ids kwargs1 kwargs2.
Proof.
  intros Hinj Hu1 Hd1 [Hu Hle] Hl1 Hl2.
  eexists _, _. split; [done|]. split; [done|].
  rewrite Hu, Hu1. intros Heq. apply Hinj in Heq. lia.
Qed.

(** X7.  Two calls, each a [publish] or a [request] in either order, that
    leave the correlation id to the publisher hand two different ids to
    their call chains, as long as the generator never repeats itself and
    nothing rewinds it between the moment the first call invokes its chain
    and the start of the second call: each call draws its own id, none is
    kept and reused. *)
Theorem successive_calls_get_distinct_correlation_ids
    (self : LogicPublisher.t) (producer : AioPikaFastProducer.t)
    (w w2 : World) :
  LogicPublisher._producer self = Some producer ->
  (forall i j, uuids w i = uuids w j -> i = j) ->
  typed PublishKwargs_keys (LogicPublisher.message_kwargs self) ->
  (forall a b : PublishArgs.t,
     refs_ok w self (PublishArgs.queue a) ->
     refs_ok w2 self (PublishArgs.queue b) ->
     typed PublishKwargs_keys (PublishArgs.publish_kwargs a) ->
     typed PublishKwargs_keys (PublishArgs.publish_kwargs b) ->
     truthy_opt (PublishArgs.correlation_id a) = false ->
     truthy_opt (PublishArgs.correlation_id b) = false ->
     exists kwargs1 w1,
       publish_sends self a w kwargs1 w1
       /\ (generator_not_rewound w1 w2 ->
           exists kwargs2 w3,
             publish_sends self b w2 kwargs2 w3
             /\ distinct_correlation_ids kwargs1 kwargs2))
  /\ (forall (a : PublishArgs.t) (b : RequestArgs.t),
        refs_ok w self (PublishArgs.queue a) ->
        refs_ok w2 self (RequestArgs.queue b) ->
        typed PublishKwargs_keys (PublishArgs.publish_kwargs a) ->
        typed PublishKwargs_keys (RequestArgs.publish_kwargs b) ->
        truthy_opt (PublishArgs.correlation_id a) = false ->
        truthy_opt (RequestArgs.correlation_id b) = false ->
        exists kwargs1 w1,
          publish_sends self a w kwargs1 w1
          /\ (generator_not_rewound w1 w2 ->
              exists kwargs2 w3,
                request_sends self b w2 kwargs2 w3
                /\ distinct_correlation_ids kwargs1 kwargs2))
  /\ (forall (a : RequestArgs.t) (b : PublishArgs.t),
        refs_ok w self (RequestArgs.queue a) ->
        refs_ok w2 self (PublishArgs.queue b) ->
        typed PublishKwargs_keys (RequestArgs.publish_kwargs a) ->
        typed PublishKwargs_keys (PublishArgs.publish_kwargs b) ->
        truthy_opt (RequestArgs.correlation_id a) = false ->
        truthy_opt (PublishArgs.correlation_id b) = false ->
        exists kwargs1 w1,
          request_sends self a w kwargs1 w1
          /\ (generator_not_rewound w1 w2 ->
              exists kwargs2 w3,
                publish_sends self b w2 kwargs2 w3
                /\ distinct_correlation_ids kwargs1 kwargs2))
  /\ (forall a b : RequestArgs.t,
        refs_ok w self (RequestArgs.queue a) ->
        refs_ok w2 self (RequestArgs.queue b) ->
        typed PublishKwargs_keys (RequestArgs.publish_kwargs a) ->
        typed PublishKwargs_keys (RequestArgs.publish_kwargs b) ->
        truthy_opt (RequestArgs.correlation_id a) = false ->
        truthy_opt (RequestArgs.correlation_id b) = false ->
        exists kwargs1 w1,
          request_sends self a w kwargs1 w1
          /\ (generator_not_rewound w1 w2 ->
              exists kwargs2 w3,
                request_sends self b w2 kwargs2 w3
                /\ distinct_correlation_ids kwargs1 kwargs2)).
Proof.
  intros Hp Hinj Hstored.
  split; [|split; [|split]]; intros a b Hra Hrb Ha Hb Hca Hcb.
  - destruct (publish_draws_an_id self producer a w Hp Hstored Hra Ha Hca)
      as (kwargs1 & w1 & Hs1 & Hl1 & Hu1 & Hd1).
    exists kwargs1, w1. split; [done|]. intros Hgen.
    destruct (publish_draws_an_id self producer b w2 Hp Hstored Hrb Hb Hcb)
      as (kwargs2 & w3 & Hs2 & Hl2 & _).
    exists kwargs2, w3. split; [done|]. by eapply later_id_differs.
  - destruct (publish_draws_an_id self producer a w Hp Hstored Hra Ha Hca)
      as (kwargs1 & w1 & Hs1 & Hl1 & Hu1 & Hd1).
    exists kwargs1, w1. split; [done|]. intros Hgen.
    destruct (request_draws_an_id self producer b w2 Hp Hstored Hrb Hb Hcb)
      as (kwargs2 & w3 & Hs2 & Hl2 & _).
    exists kwargs2, w3. split; [done|]. by eapply later_id_differs.
  - destruct (request_draws_an_id self producer a w Hp Hstored Hra Ha Hca)
      as (kwargs1 & w1 & Hs1 & Hl1 & Hu1 & Hd1).
    exists kwargs1, w1. split; [done|]. intros Hgen.
    destruct (publish_draws_an_id self producer b w2 Hp Hstored Hrb Hb Hcb)
      as (kwargs2 & w3 & Hs2 & Hl2 & _).
    exists kwargs2, w3. split; [done|]. by eapply later_id_differs.
  - destruct (request_draws_an_id self producer a w Hp Hstored Hra Ha Hca)
      as (kwargs1 & w1 & Hs1 & Hl1 & Hu1 & Hd1).
    exists kwargs1, w1. split; [done|]. intros Hgen.
    destruct (request_draws_an_id self producer b w2 Hp Hstored Hrb Hb Hcb)
      as (kwargs2 & w3 & Hs2 & Hl2 & _).
    exists kwargs2, w3. split; [done|]. by eapply later_id_differs.
Qed.

(** X7 on a [publish] followed by a [request], the second call starting in
    the world the first one left, where the generator hands out "uuid-",
    "uuid-|", "uuid-||" and so on. *)
Lemma successive_calls_get_distinct_correlation_ids_witness :
  let self := Fixtures.publisher "" ∅ [] [] in
  let a := PublishArgs.defaults Fixtures.hi in
  let b := RequestArgs.defaults Fixtures.hi in
  let w2 := (LogicPublisher.publish self a MoreFixtures.world).2 in
  exists kwargs1 w1 kwargs2 w3,
    publish_sends self a MoreFixtures.world kwargs1 w1
    /\ request_sends self b w2 kwargs2 w3
    /\ distinct_correlation_ids kwargs1 kwargs2.
Proof.
  intros self a b w2.
  assert (Hra : refs_ok MoreFixtures.world self (PublishArgs.queue a)).
  { split; [by eexists | done]. }
  assert (Hrb : refs_ok w2 self (RequestArgs.queue b)).
  { split; [by eexists | done]. }
  destruct (proj1 (proj2 (successive_calls_get_distinct_correlation_ids
                            self Fixtures.producer MoreFixtures.world w2
                            eq_refl fixture_ids_never_repeat
                            (typed_delete _ _ _ (typed_empty _))))
                  a b Hra Hrb (typed_empty _) (typed_empty _) eq_refl eq_refl)
    as (kwargs1 & w1 & Hs1 & Hrest).
  destruct Hs1 as (p & Hp & Hk & Hcall).
  assert (Hgen : generator_not_rewound w1 w2).
  { destruct (publish_kwargs_dict_inv _ _ _ _ _ Hk) as (rk & cid & _ & Hcid & _).
    apply resolve_correlation_id_world in Hcid as (_ & _ & Hu & Hd & _).
    split; [by rewrite Hu|]. rewrite Hd. vm_compute. lia. }
  destruct (Hrest Hgen) as (kwargs2 & w3 & Hs2 & Hdiff).
  exists kwargs1, w1, kwargs2, w3. split; [by exists p|]. done.
Defined.

(** ** The outbound chain in general *)

(** X9.  For any number of middlewares and a call without extras, the
    chain of [publish] and of [request] nests both tiers in registration
    order: the broker-level [publish_scope]s are outside the publisher-level
    middlewares, and in each tier the middleware registered first is the
    outermost; the producer's operation is innermost. *)
Theorem tiers_nest_in_registration_order
    (self : LogicPublisher.t) (producer : AioPikaFastProducer.t) :
  LogicPublisher._producer self = Some producer ->
  (forall a : PublishArgs.t,
     PublishArgs._extra_middlewares a = [] ->
     LogicPublisher.publish self a
     = let* kwargs := LogicPublisher.publish_kwargs_dict self a in
       fold_right
         (fun (m : BrokerMiddleware) (call : AsyncFunc) =>
            BaseMiddleware.publish_scope (m None) call)
         (fold_right (fun (m : PublisherMiddleware) (call : AsyncFunc) => m call)
                     (AioPikaFastProducer.publish producer)
                     (LogicPublisher._middlewares self))
         (LogicPublisher._broker_middlewares self)
         (PublishArgs.message a) kwargs)
  /\ (forall a : RequestArgs.t,
        RequestArgs._extra_middlewares a = [] ->
        LogicPublisher.request_call self producer a
        = let* kwargs := LogicPublisher.request_kwargs_dict self a in
          fold_right
            (fun (m : BrokerMiddleware) (call : AsyncFunc) =>
               BaseMiddleware.publish_scope (m None) call)
            (fold_right (fun (m : PublisherMiddleware) (call : AsyncFunc) => m call)
                        (AioPikaFastProducer.request producer)
                        (LogicPublisher._middlewares self))
            (LogicPublisher._broker_middlewares self)
            (RequestArgs.message a) kwargs).
Proof.
  intros Hp. split; intros a Hx.
  - unfold LogicPublisher.publish. rewrite Hp, Hx. by rewrite wrap_call_nesting.
  - unfold LogicPublisher.request_call. rewrite Hx. by rewrite wrap_call_nesting.
Qed.

(** X9 on two broker-level and two publisher-level probes. *)
Lemma tiers_nest_in_registration_order_witness :
  let self :=
    Fixtures.publisher "" ∅
      [Fixtures.broker_probe "K1"; Fixtures.broker_probe "K2"]
      [Fixtures.probe "A"; Fixtures.probe "B"] in
  LogicPublisher.publish self (PublishArgs.defaults Fixtures.hi)
  = let* kwargs :=
      LogicPublisher.publish_kwargs_dict self (PublishArgs.defaults Fixtures.hi) in
    BaseMiddleware.publish_scope (Fixtures.broker_probe "K1" None)
      (BaseMiddleware.publish_scope (Fixtures.broker_probe "K2" None)
         (Fixtures.probe "A"
            (Fixtures.probe "B" (AioPikaFastProducer.publish Fixtures.producer))))
      Fixtures.hi kwargs.
Proof.
  exact (proj1 (tiers_nest_in_registration_order
                  (Fixtures.publisher "" ∅
                     [Fixtures.broker_probe "K1"; Fixtures.broker_probe "K2"]
                     [Fixtures.probe "A"; Fixtures.probe "B"])
                  Fixtures.producer eq_refl)
               (PublishArgs.defaults Fixtures.hi) eq_refl).
Defined.

(** The log of that call: both tiers in registration order, the producer
    last. *)
Example tiers_on_fixture :
  let self :=
    Fixtures.publisher "" ∅
      [Fixtures.broker_probe "K1"; Fixtures.broker_probe "K2"]
      [Fixtures.probe "A"; Fixtures.probe "B"] in
  log (LogicPublisher.publish self (PublishArgs.defaults Fixtures.hi)
         Fixtures.world).2
  = ["K1.publish_scope"; "K2.publish_scope"; "A"; "B"; "producer.publish"].
Proof. vm_compute. reflexivity. Qed.

(** X10.  Extra middlewares passed to a call are wrapped in the order
    given, not reversed like the registered ones: the last extra is the
    outermost of the whole chain, the first extra is directly around the
    publisher-level middlewares, and these keep the one registered first
    outermost among themselves. *)
Theorem extras_nest_in_reverse_of_the_order_given
    (self : LogicPublisher.t) (producer : AioPikaFastProducer.t) :
  LogicPublisher._producer self = Some producer ->
  let nest :=
    fold_right (fun (m : PublisherMiddleware) (call : AsyncFunc) => m call) in
  (forall a : PublishArgs.t,
     PublishArgs._extra_middlewares a <> [] ->
     LogicPublisher.publish self a
     = let* kwargs := LogicPublisher.publish_kwargs_dict self a in
       nest (nest (AioPikaFastProducer.publish producer)
                  (LogicPublisher._middlewares self))
            (rev (PublishArgs._extra_middlewares a))
            (PublishArgs.message a) kwargs)
  /\ (forall a : RequestArgs.t,
        RequestArgs._extra_middlewares a <> [] ->
        LogicPublisher.request_call self producer a
        = let* kwargs := LogicPublisher.request_kwargs_dict self a in
          nest (nest (AioPikaFastProducer.request producer)
                     (LogicPublisher._middlewares self))
               (rev (RequestArgs._extra_middlewares a))
               (RequestArgs.message a) kwargs).
Proof.
  intros Hp nest.
  assert (Hwrap : forall (extras : list PublisherMiddleware) (call : AsyncFunc),
    extras <> [] ->
    LogicPublisher.wrap_call self extras call
    = nest (nest call (LogicPublisher._middlewares self)) (rev extras)).
  { intros extras call Hx. unfold LogicPublisher.wrap_call, LogicPublisher.second_tier.
    rewrite fold_left_app, fold_wrap_rev.
    destruct extras as [|x extras]; [done|].
    by rewrite <- (rev_involutive (x :: extras)) at 1; rewrite fold_wrap_rev. }
  split; intros a Hx.
  - unfold LogicPublisher.publish. rewrite Hp. by rewrite Hwrap.
  - unfold LogicPublisher.request_call. by rewrite Hwrap.
Qed.

(** X10 on a publisher with the probes A and B, called with the extras X
    and Y. *)
Lemma extras_nest_in_reverse_of_the_order_given_witness :
  let self := Fixtures.publisher "" ∅ [] [Fixtures.probe "A"; Fixtures.probe "B"] in
  let a := PublishArgs.mk Fixtures.hi None None "" None None VNone false
             (VFloat 15 1) false [Fixtures.probe "X"; Fixtures.probe "Y"] ∅ in
  LogicPublisher.publish self a
  = let* kwargs := LogicPublisher.publish_kwargs_dict self a in
    Fixtures.probe "Y"
      (Fixtures.probe "X"
         (Fixtures.probe "A"
            (Fixtures.probe "B" (AioPikaFastProducer.publish Fixtures.producer))))
      Fixtures.hi kwargs.
Proof.
  refine (proj1 (extras_nest_in_reverse_of_the_order_given
                   (Fixtures.publisher "" ∅ []
                      [Fixtures.probe "A"; Fixtures.probe "B"])
                   Fixtures.producer eq_refl) _ _).
  discriminate.
Defined.

(** X11.  A publisher without middlewares, called without extras, hands the
    keyword arguments it built to the producer's [publish] and returns
    whatever that returns or raises, unchanged. *)
Theorem bare_publish_is_the_producer_call
    (self : LogicPublisher.t) (producer : AioPikaFastProducer.t)
    (a : PublishArgs.t) (w : World) :
  LogicPublisher._producer self = Some producer ->
  LogicPublisher._middlewares self = [] ->
  LogicPublisher._broker_middlewares self = [] ->
  PublishArgs._extra_middlewares a = [] ->
  refs_ok w self (PublishArgs.queue a) ->
  exists kwargs w',
    LogicPublisher.publish_kwargs_dict self a w = (Returned kwargs, w')
    /\ LogicPublisher.publish self a w
       = AioPikaFastProducer.publish producer (PublishArgs.message a) kwargs w'.
Proof.
  intros Hp Hm Hb Hx Hrefs.
  destruct (publish_kwargs_dict_total self a w Hrefs) as (kwargs & w' & Hrun).
  exists kwargs, w'. split; [done|].
  unfold LogicPublisher.publish. rewrite Hp, Hx, (bind_returned _ _ _ _ _ Hrun).
  by rewrite wrap_call_bare.
Qed.

(** X11 on a publisher whose producer's channel is closed: the failure is
    the result of [publish]. *)
Lemma bare_publish_is_the_producer_call_witness :
  let self :=
    LogicPublisher.setup (Fixtures.fresh_publisher "" ∅ [] [])
      (Some MoreFixtures.producer_down) None "/" in
  exists kwargs w',
    LogicPublisher.publish_kwargs_dict self (PublishArgs.defaults Fixtures.hi)
      Fixtures.world = (Returned kwargs, w')
    /\ LogicPublisher.publish self (PublishArgs.defaults Fixtures.hi) Fixtures.world
       = (Raised (Exception "channel closed"), w').
Proof.
  refine (bare_publish_is_the_producer_call
            (LogicPublisher.setup (Fixtures.fresh_publisher "" ∅ [] [])
               (Some MoreFixtures.producer_down) None "/")
            MoreFixtures.producer_down (PublishArgs.defaults Fixtures.hi)
            Fixtures.world eq_refl eq_refl eq_refl eq_refl _).
  by apply fixture_refs_ok.
Defined.

(** ** The scoped block of [request] in general *)

(** X12.  When the outbound call of [request] raises, for instance on a
    timeout, [request] raises the same exception and leaves the world as the
    call left it: no consume scope is entered and the reply parser is not
    run. *)
Theorem request_propagates_outbound_failure
    (self : LogicPublisher.t) (producer : AioPikaFastProducer.t)
    (a : RequestArgs.t) (w : World) (e : exn) (w1 : World) :
  LogicPublisher._producer self = Some producer ->
  LogicPublisher.request_call self producer a w = (Raised e, w1) ->
  LogicPublisher.request self a w = (Raised e, w1).
Proof.
  intros Hp Hcall. unfold LogicPublisher.request. rewrite Hp.
  unfold bind at 1. by rewrite Hcall.
Qed.

(** X12 on a producer whose [request] times out, behind a broker-level
    probe: the probe's [publish_scope] ran, none of its scopes was
    entered. *)
Lemma request_propagates_outbound_failure_witness :
  let self :=
    LogicPublisher.setup
      (Fixtures.fresh_publisher "" ∅ [Fixtures.broker_probe "K"] [])
      (Some MoreFixtures.producer_down) None "/" in
  LogicPublisher.request self (RequestArgs.defaults Fixtures.hi) Fixtures.world
  = (Raised (Exception "timeout"),
     set_log ["K.publish_scope"] (set_drawn 1 Fixtures.world)).
Proof.
  exact (request_propagates_outbound_failure
           (LogicPublisher.setup
              (Fixtures.fresh_publisher "" ∅ [Fixtures.broker_probe "K"] [])
              (Some MoreFixtures.producer_down) None "/")
           MoreFixtures.producer_down (RequestArgs.defaults Fixtures.hi)
           Fixtures.world (Exception "timeout")
           (set_log ["K.publish_scope"] (set_drawn 1 Fixtures.world))
           eq_refl eq_refl).
Defined.

(** Quiet exit callbacks run one after the other and change nothing in the
    exit stack's bookkeeping. *)
Lemma exit_callbacks_quiet (stack : list (option exn -> M bool))
    exc suppressed pending w :
  Forall quiet_exit stack ->
  exists w',
    exit_callbacks stack exc suppressed pending w
    = (Returned (exc, suppressed, pending), w').
Proof.
  intros Hstack. revert w.
  induction Hstack as [|cb stack Hcb _ IH]; intros w; simpl.
  - by eexists.
  - destruct (Hcb exc w) as [w1 ->]. apply IH.
Qed.

Lemma aexit_quiet (stack : list (option exn -> M bool)) exc w :
  Forall quiet_exit stack ->
  exists w', AsyncExitStack_aexit stack exc w = (Returned false, w').
Proof.
  intros Hstack.
  destruct (exit_callbacks_quiet stack exc false false w Hstack) as [w' Hrun].
  exists w'. unfold AsyncExitStack_aexit.
  rewrite (bind_returned _ _ _ _ _ Hrun). simpl.
  by rewrite andb_false_r.
Qed.

(** Behind quiet exit callbacks, an [async with] block ends the way its
    body ended. *)
Lemma async_with_exit_quiet {A} (stack : list (option exn -> M bool))
    (body : outcome A) w :
  Forall quiet_exit stack ->
  exists w',
    async_with_exit stack body w
    = (match body with
       | Returned v => Returned (Some v)
       | Raised e => Raised e
       end, w').
Proof.
  intros Hstack. destruct body as [v|e]; simpl.
  - destruct (aexit_quiet stack None w Hstack) as [w' Hrun].
    exists w'. by rewrite (bind_returned _ _ _ _ _ Hrun).
  - destruct (aexit_quiet stack (Some e) w Hstack) as [w' Hrun].
    exists w'. by rewrite (bind_returned _ _ _ _ _ Hrun).
Qed.

(** X13.  When the [__aexit__] of every broker middleware lets exceptions
    pass (it returns false and does not raise), [request] ends the way the
    body of its scoped block ended: it returns the message the inbound
    chain returned, or raises exactly what an [__aenter__], the parser, the
    decoder or the chain raised. *)
Theorem request_ends_as_the_scoped_body
    (self : LogicPublisher.t) (producer : AioPikaFastProducer.t)
    (a : RequestArgs.t) (w : World) (published_msg : Any) (w1 : World) :
  LogicPublisher._producer self = Some producer ->
  LogicPublisher.request_call self producer a w = (Returned published_msg, w1) ->
  (forall m, m ∈ LogicPublisher._broker_middlewares self ->
     quiet_exit (BaseMiddleware.__aexit__ (m (Some published_msg)))) ->
  exists entered stack w2 body w3 w4,
    LogicPublisher.enter_scopes
      (rev (LogicPublisher._broker_middlewares self)) published_msg []
      return_input w1
    = (Returned (entered, stack), w2)
    /\ match entered with
       | Returned return_msg =>
         LogicPublisher.parse_reply producer published_msg return_msg
       | Raised e => raise e
       end w2 = (body, w3)
    /\ LogicPublisher.request self a w = (body, w4).
Proof.
  intros Hp Hcall Hquiet.
  destruct (enter_scopes_total (rev (LogicPublisher._broker_middlewares self))
              published_msg [] return_input w1) as (entered & stack & w2 & Hent).
  assert (Hstack : Forall quiet_exit stack).
  { eapply enter_scopes_stack; [|constructor|exact Hent].
    intros m Hm. apply Hquiet.
    apply list_elem_of_In, in_rev. by apply list_elem_of_In. }
  destruct (match entered with
            | Returned return_msg =>
              LogicPublisher.parse_reply producer published_msg return_msg
            | Raised e => raise e
            end w2) as [body w3] eqn:Hbody.
  destruct (async_with_exit_quiet stack body w3 Hstack) as [w4 Hexit].
  exists entered, stack, w2, body, w3, w4. split; [done|]. split; [done|].
  unfold LogicPublisher.request. rewrite Hp.
  rewrite (bind_returned _ _ _ _ _ Hcall).
  unfold LogicPublisher.scoped_reply.
  unfold bind at 1. unfold bind at 1. rewrite Hent. simpl.
  unfold bind at 1, attempt. rewrite Hbody, Hexit.
  by destruct body.
Qed.

(** X13 on the producer whose parser fails, behind a broker-level probe:
    the parser's exception is what [request] raises. *)
Lemma request_ends_as_the_scoped_body_witness :
  let self :=
    LogicPublisher.setup
      (Fixtures.fresh_publisher "" ∅ [Fixtures.broker_probe "K"] [])
      (Some Fixtures.producer_bad_parser) None "/" in
  let w1 := set_log ["K.publish_scope"; "producer.request"]
              (set_drawn 1 Fixtures.world) in
  exists entered stack w2 body w3 w4,
    LogicPublisher.enter_scopes [Fixtures.broker_probe "K"] (VObject 7) []
      return_input w1
    = (Returned (entered, stack), w2)
    /\ match entered with
       | Returned return_msg =>
         LogicPublisher.parse_reply Fixtures.producer_bad_parser (VObject 7)
           return_msg
       | Raised e => raise e
       end w2 = (body, w3)
    /\ LogicPublisher.request self (RequestArgs.defaults Fixtures.hi) Fixtures.world
       = (body, w4).
Proof.
  refine (request_ends_as_the_scoped_body
            (LogicPublisher.setup
               (Fixtures.fresh_publisher "" ∅ [Fixtures.broker_probe "K"] [])
               (Some Fixtures.producer_bad_parser) None "/")
            Fixtures.producer_bad_parser (RequestArgs.defaults Fixtures.hi)
            Fixtures.world (VObject 7)
            (set_log ["K.publish_scope"; "producer.request"]
               (set_drawn 1 Fixtures.world))
            eq_refl eq_refl _).
  intros m Hm. apply list_elem_of_singleton in Hm as ->.
  intros exc w. by eexists.
Defined.

(** What that call does, step by step. *)
Example parser_failure_on_fixture :
  let self :=
    LogicPublisher.setup
      (Fixtures.fresh_publisher "" ∅ [Fixtures.broker_probe "K"] [])
      (Some Fixtures.producer_bad_parser) None "/" in
  let run := LogicPublisher.request self (RequestArgs.defaults Fixtures.hi)
               Fixtures.world in
  run.1 = Raised (Exception "malformed reply")
  /\ log run.2 = ["K.publish_scope"; "producer.request"; "K.enter"; "K.exit"].
Proof. vm_compute. by split. Qed.

(** X14.  On a publisher without broker middlewares, [request] is the
    outbound call followed by the producer's parser and decoder: it returns
    the parsed message with the decoded body stored in it and the source
    type set to [Response], it raises what any of the three stages raises,
    and the guard behind the scoped block plays no part. *)
Theorem request_without_broker_middlewares
    (self : LogicPublisher.t) (producer : AioPikaFastProducer.t)
    (a : RequestArgs.t) (w : World) :
  LogicPublisher._producer self = Some producer ->
  LogicPublisher._broker_middlewares self = [] ->
  LogicPublisher.request self a w
  = (let* published_msg := LogicPublisher.request_call self producer a in
     let* parsed_msg := AioPikaFastProducer._parser producer published_msg in
     let* body := AioPikaFastProducer._decoder producer parsed_msg in
     ret (RabbitMessage.set_source_type Response
            (RabbitMessage.set_decoded_body body parsed_msg))) w.
Proof.
  intros Hp Hb. unfold LogicPublisher.request, LogicPublisher.scoped_reply.
  rewrite Hp, Hb. simpl. unfold bind at 1 5.
  destruct (LogicPublisher.request_call self producer a w)
    as [[published_msg|e] w1]; [|done].
  unfold LogicPublisher.parse_reply, return_input, bind, attempt, ret, raise.
  simpl.
  destruct (AioPikaFastProducer._parser producer published_msg w1)
    as [[parsed_msg|e] w2]; [|done].
  by destruct (AioPikaFastProducer._decoder producer parsed_msg w2)
    as [[body|e] w3].
Qed.

(** X14 on the logging producer: the reply is tagged as a response and
    holds the decoded body. *)
Lemma request_without_broker_middlewares_witness :
  LogicPublisher.request (Fixtures.publisher "" ∅ [] [])
    (RequestArgs.defaults Fixtures.hi) Fixtures.world
  = (Returned (RabbitMessage.mk (VObject 7) (VStr "pong") Response),
     set_log ["producer.request"] (set_drawn 1 Fixtures.world)).
Proof.
  exact (request_without_broker_middlewares (Fixtures.publisher "" ∅ [] [])
           Fixtures.producer (RequestArgs.defaults Fixtures.hi) Fixtures.world
           eq_refl eq_refl).
Defined.

(** X15.  When every consume scope of [request] was entered, the inbound
    chain nests the [consume_scope]s in registration order around
    [return_input], the broker middleware registered first outermost, and
    the exit stack releases the scopes in registration order, which is the
    reverse of the order in which the loop entered them. *)
Theorem consume_scopes_nest_and_release_in_registration_order
    (self : LogicPublisher.t) (published_msg : Any)
    (chain : ReturnMsg) (stack : list (option exn -> M bool)) (w w' : World) :
  LogicPublisher.enter_scopes
    (rev (LogicPublisher._broker_middlewares self)) published_msg []
    return_input w
  = (Returned (Returned chain, stack), w') ->
  chain
  = fold_right
      (fun (m : BrokerMiddleware) (call : ReturnMsg) =>
         BaseMiddleware.consume_scope (m (Some published_msg)) call)
      return_input (LogicPublisher._broker_middlewares self)
  /\ stack
     = map (fun m : BrokerMiddleware =>
              BaseMiddleware.__aexit__ (m (Some published_msg)))
           (LogicPublisher._broker_middlewares self).
Proof.
  intros H. apply enter_scopes_entered in H as [-> ->]. split.
  - rewrite <- fold_left_rev_right. by rewrite rev_involutive.
  - by rewrite app_nil_r, map_rev, rev_involutive.
Qed.

(** X15 on the broker-level probes K1 and K2. *)
Lemma consume_scopes_nest_and_release_in_registration_order_witness :
  let self :=
    Fixtures.publisher "" ∅
      [Fixtures.broker_probe "K1"; Fixtures.broker_probe "K2"] [] in
  let K1 := Fixtures.broker_probe "K1" (Some (VObject 7)) in
  let K2 := Fixtures.broker_probe "K2" (Some (VObject 7)) in
  exists chain stack,
    LogicPublisher.enter_scopes
      (rev (LogicPublisher._broker_middlewares self)) (VObject 7) []
      return_input Fixtures.world
    = (Returned (Returned chain, stack),
       set_log ["K2.enter"; "K1.enter"] Fixtures.world)
    /\ chain
       = BaseMiddleware.consume_scope K1
           (BaseMiddleware.consume_scope K2 return_input)
    /\ stack = [BaseMiddleware.__aexit__ K1; BaseMiddleware.__aexit__ K2].
Proof.
  intros self K1 K2.
  exists (BaseMiddleware.consume_scope K1
            (BaseMiddleware.consume_scope K2 return_input)),
    [BaseMiddleware.__aexit__ K1; BaseMiddleware.__aexit__ K2].
  split; [reflexivity|].
  exact (consume_scopes_nest_and_release_in_registration_order
           self (VObject 7) _ _ Fixtures.world
           (set_log ["K2.enter"; "K1.enter"] Fixtures.world) eq_refl).
Defined.

(** The log of a whole [request] behind K1 and K2: the outbound tier, the
    producer, the scopes entered last-registered first, the consume scopes
    first-registered first, and the exits in registration order. *)
Example scopes_on_fixture :
  let self :=
    Fixtures.publisher "" ∅
      [Fixtures.broker_probe "K1"; Fixtures.broker_probe "K2"] [] in
  log (LogicPublisher.request self (RequestArgs.defaults Fixtures.hi)
         Fixtures.world).2
  = ["K1.publish_scope"; "K2.publish_scope"; "producer.request";
     "K2.enter"; "K1.enter";
     "K1.consume_scope"; "K2.consume_scope";
     "K1.exit"; "K2.exit"].
Proof. vm_compute. reflexivity. Qed.

(** The entering loop over two lists in a row: the second part runs only
    if every scope of the first was entered. *)
Lemma enter_scopes_app (ms1 ms2 : list BrokerMiddleware) (published_msg : Any)
    stack (return_msg : ReturnMsg) w :
  LogicPublisher.enter_scopes (ms1 ++ ms2) published_msg stack return_msg w
  = match LogicPublisher.enter_scopes ms1 published_msg stack return_msg w with
    | (Returned (Returned chain, stack1), w1) =>
      LogicPublisher.enter_scopes ms2 published_msg stack1 chain w1
    | other => other
    end.
Proof.
  revert stack return_msg w.
  induction ms1 as [|m ms1 IH]; intros stack return_msg w; simpl; [done|].
  unfold bind, attempt.
  destruct (BaseMiddleware.__aenter__ (m (Some published_msg)) w) as [[[]|e] w1].
  - apply IH.
  - done.
Qed.

(** X16.  When the [__aenter__] of a broker middleware raises, the scoped
    block of [request] is left at once with that exception: only the
    middlewares entered before it are on the exit stack, so the failing
    middleware and those that would have come after it are neither entered
    nor exited, and the producer's parser and decoder are not run. *)
Theorem failed_enter_leaves_the_block
    (self : LogicPublisher.t) (producer : AioPikaFastProducer.t)
    (published_msg : Any) (before after : list BrokerMiddleware)
    (m : BrokerMiddleware) (w : World)
    (chain : ReturnMsg) (stack : list (option exn -> M bool))
    (w1 : World) (e : exn) (w2 : World) :
  rev (LogicPublisher._broker_middlewares self) = (before ++ m :: after)%list ->
  LogicPublisher.enter_scopes before published_msg [] return_input w
  = (Returned (Returned chain, stack), w1) ->
  BaseMiddleware.__aenter__ (m (Some published_msg)) w1 = (Raised e, w2) ->
  stack
  = rev (map (fun m : BrokerMiddleware =>
                BaseMiddleware.__aexit__ (m (Some published_msg))) before)
  /\ LogicPublisher.scoped_reply self producer published_msg w
     = async_with_exit stack (Raised e) w2.
Proof.
  intros Hms Hbefore Henter. split.
  { apply enter_scopes_entered in Hbefore as [_ ->]. by rewrite app_nil_r. }
  unfold LogicPublisher.scoped_reply. rewrite Hms.
  unfold bind at 1. rewrite enter_scopes_app, Hbefore. simpl.
  unfold bind at 1, attempt at 1. rewrite Henter. simpl.
  unfold bind at 1, attempt, raise. done.
Qed.

(** X16 on a publisher whose broker middlewares are, in registration
    order, one that cannot be entered and the probe K: K, entered first, is
    exited; nothing else runs and the exception is raised. *)
Lemma failed_enter_leaves_the_block_witness :
  let self :=
    Fixtures.publisher "" ∅
      [MoreFixtures.failing_enter; Fixtures.broker_probe "K"] [] in
  let K := Fixtures.broker_probe "K" (Some (VObject 7)) in
  LogicPublisher.scoped_reply self Fixtures.producer (VObject 7) Fixtures.world
  = async_with_exit [BaseMiddleware.__aexit__ K]
      (Raised (Exception "cannot enter"))
      (set_log ["K.enter"] Fixtures.world).
Proof.
  exact (proj2 (failed_enter_leaves_the_block
                  (Fixtures.publisher "" ∅
                     [MoreFixtures.failing_enter; Fixtures.broker_probe "K"] [])
                  Fixtures.producer (VObject 7) [Fixtures.broker_probe "K"] []
                  MoreFixtures.failing_enter Fixtures.world _ _
                  (set_log ["K.enter"] Fixtures.world) (Exception "cannot enter")
                  (set_log ["K.enter"] Fixtures.world) eq_refl eq_refl eq_refl)).
Defined.

(** That block, run: K is entered and exited, the failing middleware's
    exit never logs, and the exception comes out. *)
Example failed_enter_on_fixture :
  let self :=
    Fixtures.publisher "" ∅
      [MoreFixtures.failing_enter; Fixtures.broker_probe "K"] [] in
  let run := LogicPublisher.scoped_reply self Fixtures.producer (VObject 7)
               Fixtures.world in
  run.1 = Raised (Exception "cannot enter")
  /\ log run.2 = ["K.enter"; "K.exit"].
Proof. vm_compute. by split. Qed.

(** ** Prefixing in general *)

(** What one [add_prefix] does to the publisher and to the store. *)
Lemma add_prefix_effect
    (self : LogicPublisher.t) (prefix : string) (w : World) (q : RabbitQueue.t) :
  heap w !! LogicPublisher.queue self = Some q ->
  exists self' w',
    LogicPublisher.add_prefix self prefix w = (Returned self', w')
    /\ heap w !! LogicPublisher.queue self' = None
    /\ heap w' !! LogicPublisher.queue self'
       = Some (RabbitQueue.mk (prefix ++ RabbitQueue.name q)
                 (RabbitQueue.routing_key q))
    /\ dom (heap w') = {[ LogicPublisher.queue self' ]} ∪ dom (heap w)
    /\ (forall l, l <> LogicPublisher.queue self' -> heap w' !! l = heap w !! l)
    /\ uuids w' = uuids w /\ drawn w' = drawn w /\ log w' = log w
    /\ LogicPublisher.set_queue (LogicPublisher.queue self) self' = self.
Proof.
  intros Hq. destruct (add_prefix_run self prefix w q Hq) as [Hrun Hnew].
  eexists _, _. split; [exact Hrun|]. simpl.
  split; [done|]. split; [by rewrite lookup_insert_eq|].
  split; [by rewrite dom_insert_L|].
  split; [by intros l Hl; rewrite lookup_insert_ne|].
  repeat split. by destruct self.
Qed.

(** X17.  [add_prefix], whatever the prefix: it allocates exactly one new
    descriptor, equal to the bound one but for the name, which gets the
    prefix in front; it rebinds the publisher to it and changes nothing
    else, neither in the publisher nor in any object that was there, nor
    in the log or the id generator.  Even the empty prefix unshares the
    descriptor. *)
Theorem add_prefix_allocates_a_prefixed_copy
    (self : LogicPublisher.t) (prefix : string) (w : World) (q : RabbitQueue.t) :
  heap w !! LogicPublisher.queue self = Some q ->
  exists self' w',
    LogicPublisher.add_prefix self prefix w = (Returned self', w')
    /\ heap w !! LogicPublisher.queue self' = None
    /\ heap w' !! LogicPublisher.queue self'
       = Some (RabbitQueue.mk (prefix ++ RabbitQueue.name q)
                 (RabbitQueue.routing_key q))
    /\ dom (heap w') = {[ LogicPublisher.queue self' ]} ∪ dom (heap w)
    /\ (forall l, l <> LogicPublisher.queue self' -> heap w' !! l = heap w !! l)
    /\ uuids w' = uuids w /\ drawn w' = drawn w /\ log w' = log w
    /\ LogicPublisher.set_queue (LogicPublisher.queue self) self' = self.
Proof. apply add_prefix_effect. Qed.

(** X17 on the publisher bound to "orders", prefixed with "eu.". *)
Lemma add_prefix_allocates_a_prefixed_copy_witness :
  let self := Fixtures.publisher "" ∅ [] [] in
  exists self' w',
    LogicPublisher.add_prefix self "eu." Fixtures.world = (Returned self', w')
    /\ heap Fixtures.world !! LogicPublisher.queue self' = None
    /\ heap w' !! LogicPublisher.queue self'
       = Some (RabbitQueue.mk "eu.orders" "")
    /\ dom (heap w') = {[ LogicPublisher.queue self' ]} ∪ dom (heap Fixtures.world)
    /\ (forall l, l <> LogicPublisher.queue self' ->
          heap w' !! l = heap Fixtures.world !! l)
    /\ uuids w' = uuids Fixtures.world /\ drawn w' = drawn Fixtures.world
    /\ log w' = log Fixtures.world
    /\ LogicPublisher.set_queue (LogicPublisher.queue self) self' = self.
Proof.
  exact (add_prefix_allocates_a_prefixed_copy (Fixtures.publisher "" ∅ [] [])
           "eu." Fixtures.world (RabbitQueue.of_name "orders") eq_refl).
Defined.

(** X18.  Prefixes accumulate: after [add_prefix(p1)] and then
    [add_prefix(p2)] the publisher is bound to a descriptor named
    [p2 + p1 + name], while the original descriptor and the copy made by
    the first call both stay as they were. *)
Theorem add_prefix_twice
    (self : LogicPublisher.t) (p1 p2 : string) (w : World) (q : RabbitQueue.t) :
  heap w !! LogicPublisher.queue self = Some q ->
  exists self1 w1 self2 w2,
    LogicPublisher.add_prefix self p1 w = (Returned self1, w1)
    /\ LogicPublisher.add_prefix self1 p2 w1 = (Returned self2, w2)
    /\ heap w2 !! LogicPublisher.queue self2
       = Some (RabbitQueue.mk (p2 ++ p1 ++ RabbitQueue.name q)
                 (RabbitQueue.routing_key q))
    /\ heap w2 !! LogicPublisher.queue self1
       = Some (RabbitQueue.mk (p1 ++ RabbitQueue.name q)
                 (RabbitQueue.routing_key q))
    /\ heap w2 !! LogicPublisher.queue self = Some q.
Proof.
  intros Hq.
  destruct (add_prefix_effect self p1 w q Hq)
    as (self1 & w1 & Hrun1 & Hnew1 & Hq1 & _ & Hframe1 & _).
  destruct (add_prefix_effect self1 p2 w1 _ Hq1)
    as (self2 & w2 & Hrun2 & Hnew2 & Hq2 & _ & Hframe2 & _).
  exists self1, w1, self2, w2. split; [done|]. split; [done|].
  split; [done|].
  assert (Hne1 : LogicPublisher.queue self <> LogicPublisher.queue self1)
    by congruence.
  assert (Hq' : heap w1 !! LogicPublisher.queue self = Some q)
    by (by rewrite Hframe1).
  assert (Hne2 : LogicPublisher.queue self <> LogicPublisher.queue self2)
    by congruence.
  assert (Hne12 : LogicPublisher.queue self1 <> LogicPublisher.queue self2)
    by congruence.
  split; [by rewrite Hframe2|]. by rewrite Hframe2.
Qed.

(** X18 on the publisher bound to "orders", prefixed with "eu." and then
    with "prod.". *)
Lemma add_prefix_twice_witness :
  let self := Fixtures.publisher "" ∅ [] [] in
  exists self1 w1 self2 w2,
    LogicPublisher.add_prefix self "eu." Fixtures.world = (Returned self1, w1)
    /\ LogicPublisher.add_prefix self1 "prod." w1 = (Returned self2, w2)
    /\ heap w2 !! LogicPublisher.queue self2
       = Some (RabbitQueue.mk "prod.eu.orders" "")
    /\ heap w2 !! LogicPublisher.queue self1 = Some (RabbitQueue.mk "eu.orders" "")
    /\ heap w2 !! LogicPublisher.queue self = Some (RabbitQueue.of_name "orders").
Proof.
  exact (add_prefix_twice (Fixtures.publisher "" ∅ [] []) "eu." "prod."
           Fixtures.world (RabbitQueue.of_name "orders") eq_refl).
Defined.

Lemma str_or_truthy a b : a <> "" -> str_or a b = a.
Proof. intros H. unfold str_or. by apply truthy_true in H as ->. Qed.

(** X19.  [add_prefix] does not change the routing of a publisher that has
    an explicit routing key, nor of one whose bound descriptor has a
    binding key of its own: the [routing] property reads the same before
    and after. *)
Theorem add_prefix_keeps_an_explicit_routing
    (self : LogicPublisher.t) (prefix : string) (w : World) (q : RabbitQueue.t) :
  heap w !! LogicPublisher.queue self = Some q ->
  LogicPublisher.routing_key self <> "" \/ RabbitQueue.routing_key q <> "" ->
  exists r self' w',
    LogicPublisher.routing self w = (Returned r, w)
    /\ LogicPublisher.add_prefix self prefix w = (Returned self', w')
    /\ LogicPublisher.routing self' w' = (Returned r, w').
Proof.
  intros Hq Hkey.
  destruct (add_prefix_run self prefix w q Hq) as [Hrun _].
  unfold LogicPublisher.routing.
  destruct (truthy (LogicPublisher.routing_key self)) eqn:Hs.
  - eexists _, _, _. split; [done|]. split; [exact Hrun|]. simpl. by rewrite Hs.
  - apply truthy_false in Hs. destruct Hkey as [Hkey|Hkey]; [done|].
    exists (RabbitQueue.routing_key q). eexists _, _.
    split; [|split; [exact Hrun|]].
    + unfold bind, load. rewrite Hq. unfold RabbitQueue.routing.
      by rewrite (str_or_truthy _ _ Hkey).
    + simpl. rewrite Hs. simpl. unfold bind, load. simpl.
      rewrite lookup_insert_eq. unfold RabbitQueue.routing. simpl.
      by rewrite (str_or_truthy _ _ Hkey).
Qed.

(** X19 on a publisher with the routing key "orders.created". *)
Lemma add_prefix_keeps_an_explicit_routing_witness :
  let self := Fixtures.publisher "orders.created" ∅ [] [] in
  exists r self' w',
    LogicPublisher.routing self Fixtures.world = (Returned r, Fixtures.world)
    /\ LogicPublisher.add_prefix self "eu." Fixtures.world = (Returned self', w')
    /\ LogicPublisher.routing self' w' = (Returned r, w').
Proof.
  refine (add_prefix_keeps_an_explicit_routing
            (Fixtures.publisher "orders.created" ∅ [] []) "eu." Fixtures.world
            (RabbitQueue.of_name "orders") eq_refl _).
  left. discriminate.
Defined.

(** X20.  After [add_prefix], a call that overrides nothing is routed to
    the prefixed name: for a publisher without routing key, bound to a
    descriptor without binding key, the routing key that [publish] and
    [request] then carry is the prefix followed by the descriptor's
    name. *)
Theorem calls_after_add_prefix_use_the_prefixed_name
    (self : LogicPublisher.t) (producer : AioPikaFastProducer.t)
    (prefix : string) (w : World) (q : RabbitQueue.t) :
  LogicPublisher._producer self = Some producer ->
  typed PublishKwargs_keys (LogicPublisher.message_kwargs self) ->
  heap w !! LogicPublisher.queue self = Some q ->
  RabbitQueue.routing_key q = "" ->
  LogicPublisher.routing_key self = "" ->
  exists self' w',
    LogicPublisher.add_prefix self prefix w = (Returned self', w')
    /\ (forall a : PublishArgs.t,
          PublishArgs.routing_key a = "" ->
          PublishArgs.queue a = None ->
          typed PublishKwargs_keys (PublishArgs.publish_kwargs a) ->
          exists kwargs w'',
            publish_sends self' a w' kwargs w''
            /\ kwargs !! "routing_key"
               = Some (VStr (prefix ++ RabbitQueue.name q)))
    /\ (forall a : RequestArgs.t,
          RequestArgs.routing_key a = "" ->
          RequestArgs.queue a = None ->
          typed PublishKwargs_keys (RequestArgs.publish_kwargs a) ->
          exists kwargs w'',
            request_sends self' a w' kwargs w''
            /\ kwargs !! "routing_key"
               = Some (VStr (prefix ++ RabbitQueue.name q))).
Proof.
  intros Hp Hstored Hq Hqkey Hself.
  destruct (add_prefix_run self prefix w q Hq) as [Hrun _].
  set (new_q := fresh (dom (heap w))) in *.
  set (self' := LogicPublisher.set_queue new_q self) in *.
  set (w' := set_heap _ w) in *.
  assert (Hcopy : heap w' !! LogicPublisher.queue self'
                  = Some (RabbitQueue.set_name (prefix ++ RabbitQueue.name q) q)).
  { simpl. apply lookup_insert_eq. }
  assert (Hrefs : refs_ok w' self' None).
  { split; [by eexists | done]. }
  assert (Hrk : LogicPublisher.resolve_routing_key self' None "" w'
                = (Returned (prefix ++ RabbitQueue.name q), w')).
  { destruct (resolve_routing_key_run self' w' None "" Hrefs)
      as (rk & Hres & _ & _ & Hderived).
    destruct (Hderived eq_refl Hself) as (_ & _ & Hbound).
    rewrite (Hbound (or_introl eq_refl) _ Hcopy) in Hres.
    unfold RabbitQueue.routing in Hres. simpl in Hres.
    by rewrite Hqkey in Hres. }
  exists self', w'. split; [done|].
  split; intros a Hark Haq Hcall.
  - rewrite <- Haq in Hrefs.
    destruct (publish_kwargs_dict_total self' a w' Hrefs) as (kwargs & w'' & Hk).
    exists kwargs, w''. split; [by eapply publish_sends_intro|].
    destruct (publish_kwargs_dict_inv _ _ _ _ _ Hk) as (rk & cid & Hres & _ & ->).
    rewrite (unpack_typed_lookup PublishKwargs_keys)
      by auto using routing_key_not_an_option.
    rewrite Hark, Haq, Hrk in Hres. by injection Hres as <-.
  - rewrite <- Haq in Hrefs.
    destruct (request_kwargs_dict_total self' a w' Hrefs) as (kwargs & w'' & Hk).
    exists kwargs, w''. split; [by eapply request_sends_intro|].
    destruct (request_kwargs_dict_inv _ _ _ _ _ Hk) as (rk & cid & Hres & _ & ->).
    rewrite (unpack_typed_lookup PublishKwargs_keys)
      by auto using routing_key_not_an_option.
    rewrite Hark, Haq, Hrk in Hres. by injection Hres as <-.
Qed.

(** X20 on the publisher bound to "orders", prefixed with "eu.". *)
Lemma calls_after_add_prefix_use_the_prefixed_name_witness :
  let self := Fixtures.publisher "" ∅ [] [] in
  exists self' w',
    LogicPublisher.add_prefix self "eu." Fixtures.world = (Returned self', w')
    /\ (forall a : PublishArgs.t,
          PublishArgs.routing_key a = "" ->
          PublishArgs.queue a = None ->
          typed PublishKwargs_keys (PublishArgs.publish_kwargs a) ->
          exists kwargs w'',
            publish_sends self' a w' kwargs w''
            /\ kwargs !! "routing_key" = Some (VStr "eu.orders"))
    /\ (forall a : RequestArgs.t,
          RequestArgs.routing_key a = "" ->
          RequestArgs.queue a = None ->
          typed PublishKwargs_keys (RequestArgs.publish_kwargs a) ->
          exists kwargs w'',
            request_sends self' a w' kwargs w''
            /\ kwargs !! "routing_key" = Some (VStr "eu.orders")).
Proof.
  refine (calls_after_add_prefix_use_the_prefixed_name
            (Fixtures.publisher "" ∅ [] []) Fixtures.producer "eu."
            Fixtures.world (RabbitQueue.of_name "orders") eq_refl _ eq_refl
            eq_refl eq_refl).
  apply typed_delete, typed_empty.
Defined.

(** ** Hashes *)

(** X21.  The hash of a publisher is computed from the descriptor it is
    bound to, its exchange and its routing key, and from nothing else:
    [setup] leaves it as it is; [add_prefix] turns it into the hash
    computed from the prefixed copy, while a publisher still bound to the
    original descriptor keeps the hash it had. *)
Theorem publisher_hash_follows_the_binding
    (hash : string -> Z) (get_routing_hash : RabbitQueue.t -> RabbitExchange.t -> Z)
    (self : LogicPublisher.t) (w : World) (q : RabbitQueue.t) :
  heap w !! LogicPublisher.queue self = Some q ->
  let h (d : RabbitQueue.t) :=
    (get_routing_hash d (LogicPublisher.exchange self)
     + hash (LogicPublisher.routing_key self))%Z in
  LogicPublisher_hash hash get_routing_hash self w = (Returned (h q), w)
  /\ (forall producer app_id virtual_host,
        LogicPublisher_hash hash get_routing_hash
          (LogicPublisher.setup self producer app_id virtual_host) w
        = (Returned (h q), w))
  /\ (forall prefix,
        exists self' w',
          LogicPublisher.add_prefix self prefix w = (Returned self', w')
          /\ LogicPublisher_hash hash get_routing_hash self' w'
             = (Returned
                  (h (RabbitQueue.mk (prefix ++ RabbitQueue.name q)
                        (RabbitQueue.routing_key q))), w')
          /\ LogicPublisher_hash hash get_routing_hash self w'
             = (Returned (h q), w')).
Proof.
  intros Hq h.
  assert (Hhash : forall (p : LogicPublisher.t) w0 d,
    heap w0 !! LogicPublisher.queue p = Some d ->
    LogicPublisher_hash hash get_routing_hash p w0
    = (Returned (get_routing_hash d (LogicPublisher.exchange p)
                 + hash (LogicPublisher.routing_key p))%Z, w0)).
  { intros p w0 d Hd. unfold LogicPublisher_hash, bind, load. by rewrite Hd. }
  split; [by apply Hhash|]. split.
  { intros producer app_id virtual_host.
    exact (Hhash (LogicPublisher.setup self producer app_id virtual_host) w q Hq). }
  intros prefix.
  destruct (add_prefix_effect self prefix w q Hq)
    as (self' & w' & Hrun & Hnew & Hcopy & _ & Hframe & _ & _ & _ & Hself).
  exists self', w'. split; [done|]. split.
  - rewrite (Hhash _ _ _ Hcopy). unfold h. by rewrite <- Hself.
  - apply Hhash. rewrite Hframe; [done|]. congruence.
Qed.

(** X21 on the publisher bound to "orders", with the length of the names
    standing in for the two hash functions. *)
Lemma publisher_hash_follows_the_binding_witness :
  let hash := fun s : string => Z.of_nat (String.length s) in
  let get_routing_hash :=
    fun (d : RabbitQueue.t) (e : RabbitExchange.t) =>
      Z.of_nat (String.length (RabbitQueue.name d)) in
  let self := Fixtures.publisher "" ∅ [] [] in
  LogicPublisher_hash hash get_routing_hash self Fixtures.world
  = (Returned 6%Z, Fixtures.world)
  /\ (forall producer app_id virtual_host,
        LogicPublisher_hash hash get_routing_hash
          (LogicPublisher.setup self producer app_id virtual_host) Fixtures.world
        = (Returned 6%Z, Fixtures.world))
  /\ (forall prefix,
        exists self' w',
          LogicPublisher.add_prefix self prefix Fixtures.world = (Returned self', w')
          /\ LogicPublisher_hash hash get_routing_hash self' w'
             = (Returned
                  (Z.of_nat (String.length (prefix ++ "orders")) + 0)%Z, w')
          /\ LogicPublisher_hash hash get_routing_hash self w'
             = (Returned 6%Z, w')).
Proof.
  exact (publisher_hash_follows_the_binding
           (fun s : string => Z.of_nat (String.length s))
           (fun (d : RabbitQueue.t) (e : RabbitExchange.t) =>
              Z.of_nat (String.length (RabbitQueue.name d)))
           (Fixtures.publisher "" ∅ [] []) Fixtures.world
           (RabbitQueue.of_name "orders") eq_refl).
Defined.

(** ** More on the stream subscription descriptor *)

(** X22.  Every descriptor that [StreamSub.__init__] returns has its group
    and its consumer both set or both unset, and holds the arguments as
    they were given; the last-seen id is replaced by "$" only when it is
    [None], so an empty string is kept, unlike an empty group or consumer,
    which count as unset. *)
Theorem constructed_stream_sub_is_consistent
    (stream : string) (polling_interval : option Z)
    (group consumer : option string) (batch no_ack : bool)
    (last_id : option string) (maxlen max_records max_concurrent : option Z)
    (warnings : list StreamSub.Warning) (s : StreamSub.t) :
  StreamSub.__init__ stream polling_interval group consumer batch no_ack
    last_id maxlen max_records max_concurrent
  = (warnings, Returned s) ->
  truthy_opt (StreamSub.group s) = truthy_opt (StreamSub.consumer s)
  /\ StreamSub.name s = stream
  /\ StreamSub.group s = group
  /\ StreamSub.consumer s = consumer
  /\ StreamSub.polling_interval s = polling_interval
  /\ StreamSub.batch s = batch
  /\ StreamSub.no_ack s = no_ack
  /\ StreamSub.maxlen s = maxlen
  /\ StreamSub.max_records s = max_records
  /\ StreamSub.max_concurrent s = max_concurrent
  /\ (last_id = None -> StreamSub.last_id s = "$")
  /\ (forall i, last_id = Some i -> StreamSub.last_id s = i).
Proof.
  unfold StreamSub.__init__.
  destruct (truthy_opt group) eqn:Hg, (truthy_opt consumer) eqn:Hc; simpl;
    try discriminate; intros [= _ <-]; simpl; rewrite ?Hg, ?Hc;
    repeat split; try done;
    try (by intros ->); by intros i ->.
Qed.

(** X22 on a descriptor with group, consumer and an empty last-seen id. *)
Lemma constructed_stream_sub_is_consistent_witness :
  let s := StreamSub.mk "s" (Some "g") (Some "c") (Some 100%Z) false false ""
             None None None in
  truthy_opt (StreamSub.group s) = truthy_opt (StreamSub.consumer s)
  /\ StreamSub.name s = "s"
  /\ StreamSub.group s = Some "g"
  /\ StreamSub.consumer s = Some "c"
  /\ StreamSub.polling_interval s = Some 100%Z
  /\ StreamSub.batch s = false
  /\ StreamSub.no_ack s = false
  /\ StreamSub.maxlen s = None
  /\ StreamSub.max_records s = None
  /\ StreamSub.max_concurrent s = None
  /\ (Some "" = None -> StreamSub.last_id s = "$")
  /\ (forall i, Some "" = Some i -> StreamSub.last_id s = i).
Proof.
  exact (constructed_stream_sub_is_consistent "s" (Some 100%Z) (Some "g")
           (Some "c") false false (Some "") None None None [] _ eq_refl).
Defined.

(** X23.  [StreamSub.__init__] warns exactly when it is given a group, a
    consumer and [no_ack] together; it never warns more than once, and a
    construction that fails has not warned and fails with the
    configuration error. *)
Theorem no_ack_warning_exactly_with_a_group
    (stream : string) (polling_interval : option Z)
    (group consumer : option string) (batch no_ack : bool)
    (last_id : option string) (maxlen max_records max_concurrent : option Z) :
  let r := StreamSub.__init__ stream polling_interval group consumer batch
             no_ack last_id maxlen max_records max_concurrent in
  let warning := StreamSub.warn StreamSub.no_ack_message StreamSub.RuntimeWarning in
  (r.1 = [warning]
   <-> truthy_opt group = true /\ truthy_opt consumer = true /\ no_ack = true)
  /\ (r.1 = [] \/ r.1 = [warning])
  /\ (forall e, r.2 = Raised e ->
        r.1 = [] /\ e = SetupError StreamSub.both_message).
Proof.
  unfold StreamSub.__init__.
  destruct (truthy_opt group), (truthy_opt consumer), no_ack; simpl;
    (split; [split; [by intros; try done | by intros (? & ? & ?)] |]);
    (split; [by auto |]); intros e; by intros [= <-].
Qed.

(** X24.  The hash of a constructed descriptor.  Without a group ([None])
    it is the hash of "stream:<name>" alone.  With a non-empty group the
    consumer is there too, and it is the hash of
    "stream:<name> group:<group> consumer:<consumer>".  An empty group,
    which the constructor treats as unset, is still a group to [__hash__]:
    the hash is then that of "stream:<name> group: consumer:" followed by
    the consumer as an f-string renders it, "None" or nothing.  No other
    argument of the constructor enters the hash. *)
Theorem stream_sub_hash_of_constructed
    (hash : string -> Z)
    (stream : string) (polling_interval : option Z)
    (group consumer : option string) (batch no_ack : bool)
    (last_id : option string) (maxlen max_records max_concurrent : option Z)
    (warnings : list StreamSub.Warning) (s : StreamSub.t) :
  StreamSub.__init__ stream polling_interval group consumer batch no_ack
    last_id maxlen max_records max_concurrent
  = (warnings, Returned s) ->
  (group = None -> StreamSub_hash hash s = hash ("stream:" ++ stream))
  /\ (forall g, group = Some g -> g <> "" ->
        exists c,
          consumer = Some c /\ c <> ""
          /\ StreamSub_hash hash s
             = hash ("stream:" ++ stream ++ " group:" ++ g ++ " consumer:" ++ c))
  /\ (group = Some "" ->
      (consumer = None
       /\ StreamSub_hash hash s
          = hash ("stream:" ++ stream ++ " group: consumer:None"))
      \/ (consumer = Some ""
          /\ StreamSub_hash hash s
             = hash ("stream:" ++ stream ++ " group: consumer:"))).
Proof.
  unfold StreamSub.__init__.
  destruct (truthy_opt group) eqn:Hg, (truthy_opt consumer) eqn:Hc; simpl;
    try discriminate; intros [= _ <-];
    unfold StreamSub_hash, StreamSub_hash_key; simpl.
  - apply truthy_opt_true in Hg as (g & -> & Hg).
    apply truthy_opt_true in Hc as (c & -> & Hc).
    split; [done|]. split; [|intros [= ?]; congruence].
    intros g' [= <-] _. by exists c.
  - apply truthy_opt_false in Hg as [-> | ->];
      apply truthy_opt_false in Hc as [-> | ->];
      (split; [done|]); (split; [by intros g [= <-]|]); try done; intros _; auto.
Qed.

(** X24 on a descriptor with group "g" and consumer "c". *)
Lemma stream_sub_hash_of_constructed_witness :
  let hash := fun s : string => Z.of_nat (String.length s) in
  let s := StreamSub.mk "s" (Some "g") (Some "c") (Some 100%Z) false false "$"
             None None None in
  (Some "g" = None -> StreamSub_hash hash s = hash ("stream:" ++ "s"))
  /\ (forall g, Some "g" = Some g -> g <> "" ->
        exists c,
          Some "c" = Some c /\ c <> ""
          /\ StreamSub_hash hash s
             = hash ("stream:" ++ "s" ++ " group:" ++ g ++ " consumer:" ++ c))
  /\ (Some "g" = Some "" ->
      (Some "c" = None
       /\ StreamSub_hash hash s
          = hash ("stream:" ++ "s" ++ " group: consumer:None"))
      \/ (Some "c" = Some ""
          /\ StreamSub_hash hash s
             = hash ("stream:" ++ "s" ++ " group: consumer:"))).
Proof.
  exact (stream_sub_hash_of_constructed
           (fun s : string => Z.of_nat (String.length s))
           "s" (Some 100%Z) (Some "g") (Some "c") false false None None None
           None [] _ eq_refl).
Defined.

(** ** Witnesses for the two general facts about the reply *)

(** X25, witnessed.  A [request] behind the broker-level probe K that
    returns: the message
    is the one the parser made of the raw reply, with the decoded body and
    the response tag, handed through K's consume scope. *)
Lemma request_returned_witness :
  let self := Fixtures.publisher "" ∅ [Fixtures.broker_probe "K"] [] in
  let a := RequestArgs.defaults Fixtures.hi in
  exists producer published_msg w1 stack w2 parsed_msg w3 body w4 w5 b,
    LogicPublisher._producer self = Some producer
    /\ LogicPublisher.request_call self producer a Fixtures.world
       = (Returned published_msg, w1)
    /\ LogicPublisher.enter_scopes
         (rev (LogicPublisher._broker_middlewares self)) published_msg []
         return_input w1
       = (Returned
            (Returned
               (fold_left
                  (fun (call : ReturnMsg) (m : BrokerMiddleware) =>
                     BaseMiddleware.consume_scope (m (Some published_msg)) call)
                  (rev (LogicPublisher._broker_middlewares self)) return_input),
             stack), w2)
    /\ AioPikaFastProducer._parser producer published_msg w2
       = (Returned parsed_msg, w3)
    /\ AioPikaFastProducer._decoder producer parsed_msg w3 = (Returned body, w4)
    /\ fold_left
         (fun (call : ReturnMsg) (m : BrokerMiddleware) =>
            BaseMiddleware.consume_scope (m (Some published_msg)) call)
         (rev (LogicPublisher._broker_middlewares self)) return_input
         (RabbitMessage.set_source_type Response
            (RabbitMessage.set_decoded_body body parsed_msg)) w4
       = (Returned (RabbitMessage.mk (VObject 7) (VStr "pong") Response), w5)
    /\ AsyncExitStack_aexit stack None w5
       = (Returned b,
          set_log ["K.publish_scope"; "producer.request"; "K.enter";
                   "K.consume_scope"; "K.exit"]
            (set_drawn 1 Fixtures.world)).
Proof.
  exact (request_returned
           (Fixtures.publisher "" ∅ [Fixtures.broker_probe "K"] [])
           (RequestArgs.defaults Fixtures.hi) Fixtures.world
           (RabbitMessage.mk (VObject 7) (VStr "pong") Response)
           (set_log ["K.publish_scope"; "producer.request"; "K.enter";
                     "K.consume_scope"; "K.exit"]
              (set_drawn 1 Fixtures.world))
           eq_refl).
Defined.

(** X26, witnessed.  The scoped block behind the same probe, whose exit
    never swallows: it ends by returning. *)
Lemma scoped_reply_never_falls_through_witness :
  Some (RabbitMessage.mk (VObject 7) (VStr "pong") Response) <> None.
Proof.
  refine (scoped_reply_never_falls_through
            (Fixtures.publisher "" ∅ [Fixtures.broker_probe "K"] [])
            Fixtures.producer (VObject 7) Fixtures.world
            (Some (RabbitMessage.mk (VObject 7) (VStr "pong") Response))
            (set_log ["K.enter"; "K.consume_scope"; "K.exit"] Fixtures.world)
            _ eq_refl).
  intros m Hm. apply list_elem_of_singleton in Hm as ->.
  intros exc w b w'. simpl. unfold bind, Fixtures.say. by intros [= <- _].
Defined.
